(** * GeneRx portal: the prescription form controller of [static/js/app.js]

    A shallow embedding of the autocomplete / tag-collection engine.  The
    JavaScript globals ([state], [herbKoreanCache]) and the parts of the
    document the script reads and writes (prescription cards, herb tags,
    toasts, suggestion panels, the console) are the fields of one record,
    [page], threaded explicitly through every function.

    Strings are [string]s of bytes, a character outside ASCII being its
    UTF-8 sequence.  White space is that of ECMAScript, the Unicode spaces
    included; case mapping and markup escaping are those of ASCII text.
    Numbers that the script only counts with are [nat]; [selectedIndex],
    which takes the value -1, is a [Z].

    Left out of the page record: focus, placeholders, styling, the debounce
    timers (a handler is modelled with its timer run) and the text typed into
    a herb field, which the handlers that read it take as an argument. *)

From Stdlib Require Import ZArith Ascii String.
From stdpp Require Import gmap strings list fin_maps pretty.


Local Open Scope list_scope.

(** ** Data model *)

(** The [type] argument of [showToast]. *)
Inductive toastType := ToastInfo | ToastWarning | ToastSuccess | ToastError.

#[global] Instance toastType_eq_dec : EqDecision toastType.
Proof. solve_decision. Defined.

Record toast := Toast {
  toast_message : string;
  toast_type : toastType;
  toast_duration : nat
}.

(** A [.prescription-card] element: its identity as a node and its
    [dataset.index]. *)
Record card := Card {
  node : nat;
  dataset_index : nat
}.

(** A [.herb-tag] span: its [dataset.herb] and the display name that was
    escaped into it. *)
Record herbTag := HerbTag {
  dataset_herb : string;
  tag_display : string
}.

(** An element of the array a suggestion endpoint answers with: a plain
    string (diseases) or an [{english, korean}] record (herbs). *)
Inductive suggestion :=
  | PlainSuggestion (value : string)
  | HerbSuggestion (english korean : string).

(** A rendered [.suggestion-item]: its [dataset.value] and [dataset.korean]
    ([None] when the attribute is not written) and its inner markup.  The
    attributes are written escaped and read back unescaped, so the dataset
    holds the name itself; names are taken to be free of double quotes, which
    the markup does not escape. *)
Record suggestionItem := SuggestionItem {
  item_active : bool;
  data_value : string;
  data_korean : option string;
  item_html : string
}.

(** A suggestion dropdown: [style.display] and its content. *)
Record panel := Panel {
  panel_shown : bool;
  panel_count_header : string;
  panel_items : list suggestionItem
}.

Record page := Page {
  (* const state *)
  prescriptions : gmap nat (list string);
  prescriptionCount : nat;
  maxPrescriptions : nat;
  activeDropdown : option nat;
  selectedIndex : Z;
  (* const herbKoreanCache *)
  herbKoreanCache : gmap string string;
  (* the document *)
  diseaseInput : string;
  herbsDataInput : option (list string);
  cards : list card;
  tags : gmap nat (list herbTag);
  panels : gmap nat panel;
  toasts : list toast;
  console : list string;
  nextNode : nat
}.

Definition set_prescriptions (f : gmap nat (list string) → gmap nat (list string)) (w : page) : page :=
  Page (f (prescriptions w)) (prescriptionCount w) (maxPrescriptions w)
       (activeDropdown w) (selectedIndex w) (herbKoreanCache w) (diseaseInput w)
       (herbsDataInput w) (cards w) (tags w) (panels w) (toasts w) (console w)
       (nextNode w).

Definition set_prescriptionCount (n : nat) (w : page) : page :=
  Page (prescriptions w) n (maxPrescriptions w)
       (activeDropdown w) (selectedIndex w) (herbKoreanCache w) (diseaseInput w)
       (herbsDataInput w) (cards w) (tags w) (panels w) (toasts w) (console w)
       (nextNode w).

Definition set_activeDropdown (d : option nat) (w : page) : page :=
  Page (prescriptions w) (prescriptionCount w) (maxPrescriptions w)
       d (selectedIndex w) (herbKoreanCache w) (diseaseInput w)
       (herbsDataInput w) (cards w) (tags w) (panels w) (toasts w) (console w)
       (nextNode w).

Definition set_selectedIndex (i : Z) (w : page) : page :=
  Page (prescriptions w) (prescriptionCount w) (maxPrescriptions w)
       (activeDropdown w) i (herbKoreanCache w) (diseaseInput w)
       (herbsDataInput w) (cards w) (tags w) (panels w) (toasts w) (console w)
       (nextNode w).

Definition set_herbKoreanCache (f : gmap string string → gmap string string) (w : page) : page :=
  Page (prescriptions w) (prescriptionCount w) (maxPrescriptions w)
       (activeDropdown w) (selectedIndex w) (f (herbKoreanCache w)) (diseaseInput w)
       (herbsDataInput w) (cards w) (tags w) (panels w) (toasts w) (console w)
       (nextNode w).

Definition set_herbsDataInput (v : option (list string)) (w : page) : page :=
  Page (prescriptions w) (prescriptionCount w) (maxPrescriptions w)
       (activeDropdown w) (selectedIndex w) (herbKoreanCache w) (diseaseInput w)
       v (cards w) (tags w) (panels w) (toasts w) (console w)
       (nextNode w).

Definition set_cards (f : list card → list card) (w : page) : page :=
  Page (prescriptions w) (prescriptionCount w) (maxPrescriptions w)
       (activeDropdown w) (selectedIndex w) (herbKoreanCache w) (diseaseInput w)
       (herbsDataInput w) (f (cards w)) (tags w) (panels w) (toasts w) (console w)
       (nextNode w).

Definition set_tags (f : gmap nat (list herbTag) → gmap nat (list herbTag)) (w : page) : page :=
  Page (prescriptions w) (prescriptionCount w) (maxPrescriptions w)
       (activeDropdown w) (selectedIndex w) (herbKoreanCache w) (diseaseInput w)
       (herbsDataInput w) (cards w) (f (tags w)) (panels w) (toasts w) (console w)
       (nextNode w).

Definition set_panels (f : gmap nat panel → gmap nat panel) (w : page) : page :=
  Page (prescriptions w) (prescriptionCount w) (maxPrescriptions w)
       (activeDropdown w) (selectedIndex w) (herbKoreanCache w) (diseaseInput w)
       (herbsDataInput w) (cards w) (tags w) (f (panels w)) (toasts w) (console w)
       (nextNode w).

Definition set_toasts (f : list toast → list toast) (w : page) : page :=
  Page (prescriptions w) (prescriptionCount w) (maxPrescriptions w)
       (activeDropdown w) (selectedIndex w) (herbKoreanCache w) (diseaseInput w)
       (herbsDataInput w) (cards w) (tags w) (panels w) (f (toasts w)) (console w)
       (nextNode w).

Definition set_console (f : list string → list string) (w : page) : page :=
  Page (prescriptions w) (prescriptionCount w) (maxPrescriptions w)
       (activeDropdown w) (selectedIndex w) (herbKoreanCache w) (diseaseInput w)
       (herbsDataInput w) (cards w) (tags w) (panels w) (toasts w) (f (console w))
       (nextNode w).

Definition set_nextNode (n : nat) (w : page) : page :=
  Page (prescriptions w) (prescriptionCount w) (maxPrescriptions w)
       (activeDropdown w) (selectedIndex w) (herbKoreanCache w) (diseaseInput w)
       (herbsDataInput w) (cards w) (tags w) (panels w) (toasts w) (console w)
       n.

(** [state.prescriptions[i] || []]. *)
Definition herbsOf (w : page) (i : nat) : list string :=
  default [] (prescriptions w !! i).

(** The page as the script finds it: the [state] literal of the source, an
    empty cache, and the two prescription cards that [prescriptionCount: 2]
    and [prescriptions: {1: [], 2: []}] stand for (the markup itself is a
    template outside the script). *)
Definition initialPage : page :=
  {| prescriptions := <[2 := []]> (<[1 := []]> ∅);
     prescriptionCount := 2;
     maxPrescriptions := 2;
     activeDropdown := None;
     selectedIndex := (-1)%Z;
     herbKoreanCache := ∅;
     diseaseInput := "";
     herbsDataInput := None;
     cards := [Card 1 1; Card 2 2];
     tags := ∅;
     panels := ∅;
     toasts := [];
     console := [];
     nextNode := 3 |}.

(** ** Toasts *)

(** [showToast(message, type = 'info', duration = 3000)]: toasts of the same
    type are removed, the new one is appended to the body.  (Dismissal by
    timer or by the close button is not part of the model.) *)
Definition showToast (message : string) (type : toastType) (duration : nat) (w : page) : page :=
  set_toasts (λ ts, filter (λ t, toast_type t ≠ type) ts ++ [Toast message type duration]) w.

(** ** Prescription management *)

(** [updateRemoveButtonsVisibility]: every card's remove button is shown
    exactly when there is more than one card. *)
Definition removeButtonsVisible (w : page) : bool :=
  bool_decide (1 < length (cards w)).

Definition addPrescription (w : page) : page :=
  if decide (maxPrescriptions w ≤ prescriptionCount w) then
    showToast "Maximum 3 prescriptions allowed" ToastWarning 3000 w
  else
    let index := S (prescriptionCount w) in
    let prescriptionCard := Card (nextNode w) index in
    set_nextNode (S (nextNode w))
      (set_tags (λ t, <[node prescriptionCard := []]> t)
        (set_cards (λ cs, cs ++ [prescriptionCard])
          (set_prescriptions (λ p, <[index := []]> p)
            (set_prescriptionCount index w)))).

(** The [forEach] of [renumberPrescriptions], on the cards from position [i]
    on: the new [dataset.index] of each card ... *)
Fixpoint renumberCards (i : nat) (cs : list card) : list card :=
  match cs with
  | [] => []
  | c :: cs' => Card (node c) (S i) :: renumberCards (S i) cs'
  end.

(** ... and the entries written into [newPrescriptions]. *)
Fixpoint renumberMap (old : gmap nat (list string)) (i : nat) (cs : list card)
    (newPrescriptions : gmap nat (list string)) : gmap nat (list string) :=
  match cs with
  | [] => newPrescriptions
  | c :: cs' =>
      renumberMap old (S i) cs'
        (<[S i := default [] (old !! dataset_index c)]> newPrescriptions)
  end.

Definition renumberPrescriptions (w : page) : page :=
  let cs := cards w in
  let newPrescriptions := renumberMap (prescriptions w) 0 cs ∅ in
  set_prescriptionCount (length cs)
    (set_prescriptions (λ _, newPrescriptions)
      (set_cards (λ _, renumberCards 0 cs) w)).

(** [removePrescription(index, element)]; [element] is given by its node. *)
Definition removePrescription (index : nat) (element : nat) (w : page) : page :=
  if decide (prescriptionCount w ≤ 1) then
    showToast "At least one prescription is required" ToastWarning 3000 w
  else
    renumberPrescriptions
      (set_prescriptionCount (prescriptionCount w - 1)
        (set_cards (λ cs, filter (λ c, node c ≠ element) cs)
          (set_prescriptions (λ p, delete index p) w))).

(** ** Strings *)

(** The double quote, for the markup the script writes. *)
Definition dq : string := String "034"%char "".

(** White space as [String.prototype.trim] sees it: the WhiteSpace and
    LineTerminator code points of ECMAScript, in UTF-8.  In one byte: TAB,
    LF, VT, FF, CR and SPACE. *)
Definition isWhiteSpace (c : ascii) : bool :=
  match nat_of_ascii c with
  | 9 | 10 | 11 | 12 | 13 | 32 => true
  | _ => false
  end.

(** In two bytes: U+00A0, the no-break space. *)
Definition isWhiteSpace2 (a b : ascii) : bool :=
  Ascii.eqb a "194" && Ascii.eqb b "160".

(** In three bytes: U+1680; U+2000 .. U+200A, U+2028, U+2029 and U+202F;
    U+205F; U+3000; U+FEFF. *)
Definition isWhiteSpace3 (a b c : ascii) : bool :=
  let n := nat_of_ascii c in
  Ascii.eqb a "225" && Ascii.eqb b "154" && Ascii.eqb c "128"
  || Ascii.eqb a "226" && Ascii.eqb b "128"
       && ((128 <=? n) && (n <=? 138) || (n =? 168) || (n =? 169) || (n =? 175))
  || Ascii.eqb a "226" && Ascii.eqb b "129" && Ascii.eqb c "159"
  || Ascii.eqb a "227" && Ascii.eqb b "128" && Ascii.eqb c "128"
  || Ascii.eqb a "239" && Ascii.eqb b "187" && Ascii.eqb c "191".

(** What follows the white-space character a string begins with, if it
    begins with one. *)
Definition afterWhiteSpace (s : string) : option string :=
  match s with
  | String a s1 =>
      if isWhiteSpace a then Some s1
      else match s1 with
           | String b s2 =>
               if isWhiteSpace2 a b then Some s2
               else match s2 with
                    | String c s3 => if isWhiteSpace3 a b c then Some s3 else None
                    | EmptyString => None
                    end
           | EmptyString => None
           end
  | EmptyString => None
  end.

(** [s.trimStart()]: the white-space characters at the head are passed
    over, one after the other. *)
Fixpoint trimStart (s : string) : string :=
  match s with
  | EmptyString => EmptyString
  | String a s1 =>
      if isWhiteSpace a then trimStart s1
      else match s1 with
           | String b s2 =>
               if isWhiteSpace2 a b then trimStart s2
               else match s2 with
                    | String c s3 => if isWhiteSpace3 a b c then trimStart s3 else s
                    | EmptyString => s
                    end
           | EmptyString => s
           end
  end.

(** Is the text made of white-space characters only (the empty text
    included)? *)
Fixpoint whitespaceOnly (s : string) : bool :=
  match s with
  | EmptyString => true
  | String a s1 =>
      if isWhiteSpace a then whitespaceOnly s1
      else match s1 with
           | String b s2 =>
               if isWhiteSpace2 a b then whitespaceOnly s2
               else match s2 with
                    | String c s3 => isWhiteSpace3 a b c && whitespaceOnly s3
                    | EmptyString => false
                    end
           | EmptyString => false
           end
  end.

(** [s.trimEnd()]: the string up to the point from which only white space
    follows. *)
Fixpoint trimEnd (s : string) : string :=
  match s with
  | EmptyString => EmptyString
  | String c s' => if whitespaceOnly s then EmptyString else String c (trimEnd s')
  end.

(** [s.trim()]. *)
Definition trim (s : string) : string := trimEnd (trimStart s).

(** [s.includes(c)] for a one-character needle. *)
Fixpoint includesChar (c : ascii) (s : string) : bool :=
  match s with
  | EmptyString => false
  | String d s' => if Ascii.eqb d c then true else includesChar c s'
  end.

(** [s.split(c)] for a one-character separator. *)
Fixpoint split (sep : ascii) (s : string) : list string :=
  match s with
  | EmptyString => [EmptyString]
  | String c s' =>
      if Ascii.eqb c sep then EmptyString :: split sep s'
      else match split sep s' with
           | [] => [String c EmptyString]
           | seg :: segs => String c seg :: segs
           end
  end.

(** [l.join(sep)]. *)
Fixpoint join (sep : string) (l : list string) : string :=
  match l with
  | [] => EmptyString
  | [x] => x
  | x :: l' => x +:+ sep +:+ join sep l'
  end.

(** Concatenation of a list of pieces ([join('')]). *)
Fixpoint concatStrings (l : list string) : string :=
  match l with
  | [] => EmptyString
  | x :: l' => x +:+ concatStrings l'
  end.

Definition isUpper (c : ascii) : bool :=
  let n := nat_of_ascii c in (65 <=? n) && (n <=? 90).

Definition isLower (c : ascii) : bool :=
  let n := nat_of_ascii c in (97 <=? n) && (n <=? 122).

Definition lowerChar (c : ascii) : ascii :=
  if isUpper c then ascii_of_nat (nat_of_ascii c + 32) else c.

(** The [Canonicalize] step of a case-insensitive regular expression:
    the character's upper case. *)
Definition canonicalize (c : ascii) : ascii :=
  if isLower c then ascii_of_nat (nat_of_ascii c - 32) else c.

(** [s.toLowerCase()]. *)
Fixpoint toLowerCase (s : string) : string :=
  match s with
  | EmptyString => EmptyString
  | String c s' => String (lowerChar c) (toLowerCase s')
  end.

Definition escapeChar (c : ascii) : string :=
  match nat_of_ascii c with
  | 38 => "&amp;"
  | 60 => "&lt;"
  | 62 => "&gt;"
  | _ => String c EmptyString
  end.

(** [escapeHtml(text)]: the text is stored as a text node and read back as
    markup, which escapes the ampersand and the angle brackets. *)
Fixpoint escapeHtml (text : string) : string :=
  match text with
  | EmptyString => EmptyString
  | String c s' => escapeChar c +:+ escapeHtml s'
  end.

(** ** Highlighting *)

(** The characters of the class [[.*+?^${}()|[\]\\]]. *)
Definition isRegExpSyntax (c : ascii) : bool :=
  match nat_of_ascii c with
  | 46 | 42 | 43 | 63 | 94 | 36 | 123 | 125 | 40 | 41 | 124 | 91 | 93 | 92 => true
  | _ => false
  end.

(** [query.replace(/[.*+?^${}()|[\]\\]/g, '\\$&')]. *)
Fixpoint escapeRegExp (query : string) : string :=
  match query with
  | EmptyString => EmptyString
  | String c s' =>
      if isRegExpSyntax c then String "\"%char (String c (escapeRegExp s'))
      else String c (escapeRegExp s')
  end.

(** The syntax characters of a pattern: [^ $ \ . * + ? ( ) [ ] { } |].  Any
    other character stands for itself. *)
Definition isSyntaxCharacter (c : ascii) : bool :=
  includesChar c "^$\.*+?()[]{}|".

(** The body of a capture group up to the parenthesis that closes it, which
    must end the pattern: the literal it denotes when it is made of
    characters that stand for themselves and of escaped syntax characters.
    A syntax character on its own has a meaning of its own or is refused,
    and a backslash before another character starts a class or a control
    escape: such bodies are outside the model, [None]. *)
Fixpoint groupLiteral (body : string) : option string :=
  match body with
  | EmptyString => None
  | String c rest =>
      if Ascii.eqb c ")"%char then
        match rest with
        | EmptyString => Some EmptyString
        | String _ _ => None
        end
      else if Ascii.eqb c "\"%char then
        match rest with
        | String d rest' =>
            if isSyntaxCharacter d then String d <$> groupLiteral rest' else None
        | EmptyString => None
        end
      else if isSyntaxCharacter c then None
      else String c <$> groupLiteral rest
  end.

(** [new RegExp(pattern, 'gi')] for a pattern that is one capture group
    around a literal: the literal. *)
Definition newRegExp (pattern : string) : option string :=
  match pattern with
  | String c body => if Ascii.eqb c "("%char then groupLiteral body else None
  | EmptyString => None
  end.

(** Does the literal match at the head of [s], ignoring case?  This is the
    matcher of the regular expression tried at one position. *)
Fixpoint matchesAt (literal s : string) : bool :=
  match literal, s with
  | EmptyString, _ => true
  | String _ _, EmptyString => false
  | String a literal', String b s' =>
      Ascii.eqb (canonicalize a) (canonicalize b) && matchesAt literal' s'
  end.

(** [s.substring(0, n)]. *)
Fixpoint takeString (n : nat) (s : string) : string :=
  match n, s with
  | S n', String c s' => String c (takeString n' s')
  | _, _ => EmptyString
  end.

Fixpoint revString (acc s : string) : string :=
  match s with
  | EmptyString => acc
  | String c s' => revString (String c acc) s'
  end.

(** [text.split(regex)] for the one-group regex above, with a non-empty
    literal.  The scan goes left to right; [skip] counts the characters of
    the current match still to be passed over and [segment] holds, in
    reverse, the characters since the end of the last match.  At a match
    the segment before it and the captured text are both emitted; the
    remainder after the last match is the final piece. *)
Fixpoint splitLoop (literal : string) (s : string) (skip : nat) (segment : string) : list string :=
  match s with
  | EmptyString => [revString EmptyString segment]
  | String c s' =>
      match skip with
      | S k => splitLoop literal s' k segment
      | 0 =>
          if matchesAt literal s then
            revString EmptyString segment
              :: takeString (String.length literal) s
              :: splitLoop literal s' (String.length literal - 1) EmptyString
          else splitLoop literal s' 0 (String c segment)
      end
  end.

Definition splitCapture (literal text : string) : list string :=
  splitLoop literal text 0 EmptyString.

(** The opening and closing highlight marker. *)
Definition markOpen : string := "<mark class=" +:+ dq +:+ "highlight" +:+ dq +:+ ">".
Definition markClose : string := "</mark>".

Definition highlightPart (query part : string) : string :=
  if String.eqb (toLowerCase part) (toLowerCase query) then
    markOpen +:+ escapeHtml part +:+ markClose
  else escapeHtml part.

(** [highlightMatch(text, query)].  The pattern is built from the escaped
    query and is therefore always a group around a literal
    ([newRegExp_escapeRegExp] below); for any other pattern, which the model
    of the constructor does not cover, the text is returned escaped. *)
Definition highlightMatch (text query : string) : string :=
  if String.eqb query EmptyString then escapeHtml text
  else
    let escapedQuery := escapeRegExp query in
    match newRegExp ("(" +:+ escapedQuery +:+ ")") with
    | Some literal =>
        let parts := splitCapture literal text in
        concatStrings (map (highlightPart query) parts)
    | None => escapeHtml text
    end.

(** ** Effects: completions, exceptions and the network *)

(** How a call completes: normally with a value, or abruptly with a thrown
    error (for an [async] function: a rejected promise). *)
Inductive completion (A : Type) : Type :=
  | Normal (a : A)
  | Throw (error : string).
Arguments Normal {A} a.
Arguments Throw {A} error.

(** A computation over the page.  An [await] is run to completion at the
    point where it stands. *)
Definition js (A : Type) : Type := page → completion A * page.

Definition ret {A : Type} (a : A) : js A := λ w, (Normal a, w).

Definition throw {A : Type} (error : string) : js A := λ w, (Throw error, w).

Definition bind {A B : Type} (m : js A) (k : A → js B) : js B :=
  λ w, match m w with
       | (Normal a, w') => k a w'
       | (Throw error, w') => (Throw error, w')
       end.

(** [try { body } catch (error) { handler }]. *)
Definition tryCatch {A : Type} (body : js A) (handler : string → js A) : js A :=
  λ w, match body w with
       | (Normal a, w') => (Normal a, w')
       | (Throw error, w') => handler error w'
       end.

Definition modify (f : page → page) : js unit := λ w, (Normal tt, f w).

Definition gets {A : Type} (f : page → A) : js A := λ w, (Normal (f w), w).

Definition liftCompletion {A : Type} (c : completion A) : js A := λ w, (c, w).

Notation "'let*' x ':=' m 'in' k" := (bind m (λ x, k))
  (at level 10, x name, m at level 100, k at level 200).
Notation "m ';;' k" := (bind m (λ _, k))
  (at level 100, k at level 200, right associativity).

(** What a request comes back with: the transport fails, or a response
    arrives whose body does or does not parse as JSON of the expected
    shape. *)
Inductive body (A : Type) : Type :=
  | Malformed (error : string)
  | Json (a : A).
Arguments Malformed {A} error.
Arguments Json {A} a.

Inductive reply (A : Type) : Type :=
  | Unreachable (error : string)
  | Responded (b : body A).
Arguments Unreachable {A} error.
Arguments Responded {A} b.

(** The object [/api/herbs/validate] answers with.  A field the service
    leaves out reads as the empty string: the script only tests these fields
    for truthiness. *)
Record validation := Validation {
  valid : bool;
  v_english : string;
  v_name : string;
  v_korean : string
}.

(** The services behind the page, as functions of the request: the
    suggestion endpoints by path and query, the validation endpoint by
    name. *)
Record network := Network {
  suggestions_for : string → string → reply (list suggestion);
  validate_name : string → reply validation
}.

(** [await fetch(url)]. *)
Definition fetch {A : Type} (r : reply A) : js (body A) :=
  match r with
  | Unreachable error => throw error
  | Responded b => ret b
  end.

(** [await response.json()]. *)
Definition json {A : Type} (b : body A) : js A :=
  match b with
  | Malformed error => throw error
  | Json a => ret a
  end.

(** [console.error(label, error)]. *)
Definition console_error (label error : string) : js unit :=
  modify (set_console (λ out, out ++ [label +:+ " " +:+ error])).

(** [a || b] on strings. *)
Definition jsOr (a b : string) : string :=
  if String.eqb a EmptyString then b else a.

(** Truthiness of a string. *)
Definition truthy (a : string) : bool := negb (String.eqb a EmptyString).

(** ** Suggestions *)

Definition fetchSuggestions (net : network) (endpoint query : string) : js (list suggestion) :=
  tryCatch
    (let* response := fetch (suggestions_for net endpoint query) in
     json response)
    (λ error,
       console_error "Failed to fetch suggestions:" error ;;
       ret []).

Definition hideSuggestions (container : nat) (w : page) : page :=
  set_selectedIndex (-1)%Z
    (set_panels (λ p, <[container := Panel false EmptyString []]> p) w).

Definition countHeader (n : nat) : string :=
  "<div class=" +:+ dq +:+ "suggestions-count" +:+ dq +:+ "><i class=" +:+ dq
    +:+ "fas fa-search" +:+ dq +:+ "></i> Found " +:+ pretty n
    +:+ " matching result" +:+ (if decide (n = 1) then "" else "s") +:+ "</div>".

(** One row of the bilingual branch.  A plain string has neither [english]
    nor [korean]: with a non-empty query [highlightMatch] is then called on
    [undefined] and throws. *)
Definition herbItem (query : string) (i : nat) (s : suggestion) : completion suggestionItem :=
  match s with
  | HerbSuggestion english korean =>
      let highlightedText :=
        if truthy korean then
          highlightMatch korean query +:+ " <span class=" +:+ dq +:+ "herb-english"
            +:+ dq +:+ ">(" +:+ highlightMatch english query +:+ ")</span>"
        else highlightMatch english query in
      Normal (SuggestionItem (bool_decide (i = 0)) english (Some (jsOr korean "")) highlightedText)
  | PlainSuggestion _ =>
      if truthy query then Throw "TypeError"
      else Normal (SuggestionItem (bool_decide (i = 0)) "" (Some "") "")
  end.

(** One row of the plain branch.  A record is not a string: with a non-empty
    query [highlightMatch] calls [split] on it and throws. *)
Definition plainItem (query : string) (i : nat) (s : suggestion) : completion suggestionItem :=
  match s with
  | PlainSuggestion value =>
      Normal (SuggestionItem (bool_decide (i = 0)) value None (highlightMatch value query))
  | HerbSuggestion _ _ =>
      if truthy query then Throw "TypeError"
      else Normal (SuggestionItem (bool_decide (i = 0)) "[object Object]" None "[object Object]")
  end.

(** [suggestions.map((s, i) => ...)], from index [i] on. *)
Fixpoint renderItems (row : nat → suggestion → completion suggestionItem)
    (i : nat) (suggestions : list suggestion) : completion (list suggestionItem) :=
  match suggestions with
  | [] => Normal []
  | s :: rest =>
      match row i s with
      | Throw error => Throw error
      | Normal item =>
          match renderItems row (S i) rest with
          | Throw error => Throw error
          | Normal items => Normal (item :: items)
          end
      end
  end.

(** [showSuggestionsWithKeyboard(container, suggestions, query, onSelect)].
    The [onSelect] callback is attached to the rows; it is run by
    [clickSuggestion] and [handleKeyboardNavigation] below. *)
Definition showSuggestionsWithKeyboard (container : nat) (suggestions : list suggestion)
    (query : string) : js unit :=
  match suggestions with
  | [] => modify (hideSuggestions container)
  | first :: _ =>
      modify (set_selectedIndex 0%Z) ;;
      let isHerbSuggestion :=
        match first with
        | HerbSuggestion english _ => truthy english
        | PlainSuggestion _ => false
        end in
      let* itemsHtml :=
        liftCompletion
          (renderItems (if isHerbSuggestion then herbItem query else plainItem query)
             0 suggestions) in
      modify (set_panels (λ p,
        <[container := Panel true (countHeader (length suggestions)) itemsHtml]> p))
  end.

Definition itemsOf (w : page) (dropdown : nat) : list suggestionItem :=
  match panels w !! dropdown with
  | Some p => panel_items p
  | None => []
  end.

Fixpoint markActive (selected : Z) (i : nat) (items : list suggestionItem) : list suggestionItem :=
  match items with
  | [] => []
  | it :: rest =>
      SuggestionItem (bool_decide (Z.of_nat i = selected)) (data_value it)
        (data_korean it) (item_html it) :: markActive selected (S i) rest
  end.

(** [updateSelectedItem(items)] on the rows of [dropdown]. *)
Definition updateSelectedItem (dropdown : nat) (w : page) : page :=
  set_panels (λ p,
    match p !! dropdown with
    | Some pn =>
        <[dropdown := Panel (panel_shown pn) (panel_count_header pn)
                        (markActive (selectedIndex w) 0 (panel_items pn))]> p
    | None => p
    end) w.

Inductive key := ArrowDown | ArrowUp | Enter | Escape | Backspace | OtherKey.

(** [items[state.selectedIndex]]. *)
Definition itemAt (items : list suggestionItem) (i : Z) : option suggestionItem :=
  if decide (0 ≤ i)%Z then items !! Z.to_nat i else None.

Definition handleKeyboardNavigation (e : key) (dropdown : nat)
    (onSelect : string → js unit) : js unit :=
  let* items := gets (λ w, itemsOf w dropdown) in
  match items with
  | [] => ret tt
  | _ :: _ =>
      match e with
      | ArrowDown =>
          modify (λ w, set_selectedIndex
                         (Z.min (selectedIndex w + 1) (Z.of_nat (length items) - 1)) w) ;;
          modify (updateSelectedItem dropdown)
      | ArrowUp =>
          modify (λ w, set_selectedIndex (Z.max (selectedIndex w - 1) 0) w) ;;
          modify (updateSelectedItem dropdown)
      | Enter =>
          let* selected := gets (λ w, itemAt items (selectedIndex w)) in
          match selected with
          | Some it =>
              onSelect (data_value it) ;;
              modify (set_selectedIndex (-1)%Z)
          | None => ret tt
          end
      | Escape =>
          modify (hideSuggestions dropdown) ;;
          modify (set_selectedIndex (-1)%Z)
      | Backspace | OtherKey => ret tt
      end
  end.

(** ** The Korean-name cache *)

(** [getKoreanName(englishName)].  The cache object is a finite map from the
    names stored in it; the properties every object inherits ([constructor],
    [toString], ...) are not in it, so the model covers herb names other
    than those. *)
Definition getKoreanName (net : network) (englishName : string) : js string :=
  let* cached := gets (λ w, herbKoreanCache w !! englishName) in
  match cached with
  | Some koreanName => ret koreanName
  | None =>
      tryCatch
        (let* response := fetch (validate_name net englishName) in
         let* data := json response in
         modify (set_herbKoreanCache (λ c, <[englishName := jsOr (v_korean data) ""]> c)) ;;
         ret (jsOr (v_korean data) ""))
        (λ _, ret EmptyString)
  end.

(** ** Inline herb tags *)

(** [addHerbTagInline(prescriptionIndex, herbName, tagsContainer, input,
    koreanName = null)].  The tags container is given by the node of its
    card; the new tag goes before the input, that is after the tags that are
    there.  [koreanName] is [None] for [null] and for a missing argument. *)
Definition addHerbTagInline (net : network) (prescriptionIndex : nat) (herbName : string)
    (tagsContainer : nat) (koreanName : option string) : js unit :=
  modify (λ w,
    match prescriptions w !! prescriptionIndex with
    | None => set_prescriptions (λ p, <[prescriptionIndex := []]> p) w
    | Some _ => w
    end) ;;
  let* herbs := gets (λ w, herbsOf w prescriptionIndex) in
  if bool_decide (herbName ∈ herbs) then ret tt
  else
    modify (set_prescriptions (λ p, <[prescriptionIndex := herbs ++ [herbName]]> p)) ;;
    let* koreanName :=
      match koreanName with
      | None => getKoreanName net herbName
      | Some k => ret k
      end in
    let displayName :=
      if truthy koreanName then koreanName +:+ " (" +:+ herbName +:+ ")" else herbName in
    let tag := HerbTag herbName (escapeHtml displayName) in
    modify (set_tags (λ t, <[tagsContainer := default [] (t !! tagsContainer) ++ [tag]]> t)).

(** [tagsContainer.querySelector('.herb-tag[data-herb=...]')] followed by
    [tag.remove()]: the first tag of that herb goes. *)
Fixpoint removeFirstTag (herbName : string) (ts : list herbTag) : list herbTag :=
  match ts with
  | [] => []
  | t :: ts' =>
      if String.eqb (dataset_herb t) herbName then ts'
      else t :: removeFirstTag herbName ts'
  end.

(** [removeHerbTagInline(prescriptionIndex, herbName, tagsContainer)].
    Reading [filter] from a missing entry throws. *)
Definition removeHerbTagInline (prescriptionIndex : nat) (herbName : string)
    (tagsContainer : nat) : js unit :=
  let* entry := gets (λ w, prescriptions w !! prescriptionIndex) in
  match entry with
  | None => throw "TypeError"
  | Some herbs =>
      modify (set_prescriptions (λ p,
        <[prescriptionIndex := filter (λ h, h ≠ herbName) herbs]> p)) ;;
      modify (set_tags (λ t,
        match t !! tagsContainer with
        | Some ts => <[tagsContainer := removeFirstTag herbName ts]> t
        | None => t
        end))
  end.

(** The selection callback the herb field gives to
    [showSuggestionsWithKeyboard], run by a click on a row: the row is found
    again by its [data-value]. *)
Definition herbSelectByClick (net : network) (prescriptionIndex tagsContainer dropdown : nat)
    (value : string) : js unit :=
  let* suggestionItem :=
    gets (λ w, find (λ it, String.eqb (data_value it) value) (itemsOf w dropdown)) in
  let korean :=
    match suggestionItem with
    | Some it => data_korean it
    | None => None
    end in
  match korean with
  | Some k => if truthy k then modify (set_herbKoreanCache (λ c, <[value := k]> c)) else ret tt
  | None => ret tt
  end ;;
  addHerbTagInline net prescriptionIndex value tagsContainer korean ;;
  modify (hideSuggestions dropdown).

(** The selection callback the herb field gives to
    [handleKeyboardNavigation]: the row is the one under the cursor. *)
Definition herbSelectByEnter (net : network) (prescriptionIndex tagsContainer dropdown : nat)
    (value : string) : js unit :=
  let* selectedItem := gets (λ w, itemAt (itemsOf w dropdown) (selectedIndex w)) in
  let korean :=
    match selectedItem with
    | Some it => data_korean it
    | None => None
    end in
  match korean with
  | Some k => if truthy k then modify (set_herbKoreanCache (λ c, <[value := k]> c)) else ret tt
  | None => ret tt
  end ;;
  addHerbTagInline net prescriptionIndex value tagsContainer korean ;;
  modify (hideSuggestions dropdown).

(** A click on row [i] of a herb dropdown. *)
Definition clickSuggestion (net : network) (prescriptionIndex tagsContainer dropdown : nat)
    (i : nat) : js unit :=
  let* item := gets (λ w, itemsOf w dropdown !! i) in
  match item with
  | Some it => herbSelectByClick net prescriptionIndex tagsContainer dropdown (data_value it)
  | None => ret tt
  end.

(** [l[l.length - 1]]. *)
Definition lastHerbOf (herbs : list string) : option string := last herbs.

(** The [keydown] listener of a herb field; [value] is the text in the
    field. *)
Definition herbKeydown (net : network) (prescriptionIndex tagsContainer dropdown : nat)
    (e : key) (value : string) : js unit :=
  match e with
  | Backspace =>
      if String.eqb value EmptyString then
        let* herbs := gets (λ w, prescriptions w !! prescriptionIndex) in
        match herbs with
        | Some hs =>
            match lastHerbOf hs with
            | Some lastHerb => removeHerbTagInline prescriptionIndex lastHerb tagsContainer
            | None => ret tt
            end
        | None => ret tt
        end
      else
        handleKeyboardNavigation e dropdown
          (herbSelectByEnter net prescriptionIndex tagsContainer dropdown)
  | _ =>
      handleKeyboardNavigation e dropdown
        (herbSelectByEnter net prescriptionIndex tagsContainer dropdown)
  end.

(** [typeof s === 'object' ? s.english : s]. *)
Definition englishNameOf (s : suggestion) : string :=
  match s with
  | HerbSuggestion english _ => english
  | PlainSuggestion value => value
  end.

(** The [input] listener of a herb field, with its timer run: [value] is the
    text in the field. *)
Definition herbInput (net : network) (prescriptionIndex dropdown : nat) (value : string) : js unit :=
  let query := trim value in
  modify (set_selectedIndex (-1)%Z) ;;
  if bool_decide (String.length query < 1) then modify (hideSuggestions dropdown)
  else
    let* suggestions := fetchSuggestions net "/api/herbs" query in
    let* selectedHerbs := gets (λ w, herbsOf w prescriptionIndex) in
    let suggestions := filter (λ s, englishNameOf s ∉ selectedHerbs) suggestions in
    modify (set_activeDropdown (Some dropdown)) ;;
    showSuggestionsWithKeyboard dropdown suggestions query.

(** ** Bulk paste *)

(** What [validateHerb] resolves to for a recognised name. *)
Record validated := Validated {
  english : string;
  korean : string
}.

Definition validateHerb (net : network) (herbName : string) : js (option validated) :=
  tryCatch
    (let* response := fetch (validate_name net herbName) in
     let* data := json response in
     if valid data then
       (if truthy (v_korean data) then
          modify (set_herbKoreanCache (λ c,
            <[jsOr (v_english data) (v_name data) := v_korean data]> c))
        else ret tt) ;;
       ret (Some (Validated (jsOr (v_english data) (v_name data)) (jsOr (v_korean data) "")))
     else ret None)
    (λ error,
       console_error "Error validating herb:" error ;;
       ret None).

(** The first loop of [addBulkHerbs]. *)
Fixpoint classifyHerbs (net : network) (prescriptionIndex : nat) (herbs : list string)
    (validHerbs : list validated) (invalidHerbs duplicateHerbs : list string)
    : js (list validated * list string * list string) :=
  match herbs with
  | [] => ret (validHerbs, invalidHerbs, duplicateHerbs)
  | herb :: rest =>
      let* checked := validateHerb net herb in
      match checked with
      | Some v =>
          let* present :=
            gets (λ w, bool_decide (english v ∈ herbsOf w prescriptionIndex)) in
          if present then
            classifyHerbs net prescriptionIndex rest validHerbs invalidHerbs
              (duplicateHerbs ++ [herb])
          else
            classifyHerbs net prescriptionIndex rest (validHerbs ++ [v]) invalidHerbs
              duplicateHerbs
      | None =>
          classifyHerbs net prescriptionIndex rest validHerbs (invalidHerbs ++ [herb])
            duplicateHerbs
      end
  end.

(** The second loop of [addBulkHerbs]. *)
Fixpoint addValidHerbs (net : network) (prescriptionIndex tagsContainer : nat)
    (validHerbs : list validated) : js unit :=
  match validHerbs with
  | [] => ret tt
  | herbData :: rest =>
      addHerbTagInline net prescriptionIndex (english herbData) tagsContainer
        (Some (korean herbData)) ;;
      addValidHerbs net prescriptionIndex tagsContainer rest
  end.

Definition addBulkHerbs (net : network) (prescriptionIndex : nat) (herbs : list string)
    (tagsContainer : nat) : js unit :=
  modify (showToast "Validating herbs..." ToastInfo 3000) ;;
  let* lists := classifyHerbs net prescriptionIndex herbs [] [] [] in
  let '(validHerbs, invalidHerbs, duplicateHerbs) := lists in
  addValidHerbs net prescriptionIndex tagsContainer validHerbs ;;
  (if bool_decide (0 < length validHerbs) then
     modify (showToast
       ("Added " +:+ pretty (length validHerbs) +:+ " herb"
          +:+ (if bool_decide (1 < length validHerbs) then "s" else "")
          +:+ " successfully") ToastSuccess 3000)
   else ret tt) ;;
  (if bool_decide (0 < length invalidHerbs) then
     modify (showToast ("Not found in database: " +:+ join ", " invalidHerbs) ToastError 5000)
   else ret tt) ;;
  (if bool_decide (0 < length duplicateHerbs) then
     modify (showToast ("Already added: " +:+ join ", " duplicateHerbs) ToastWarning 3000)
   else ret tt).

(** The candidate names of a bulk paste:
    [pastedText.split(',').map(h => h.trim()).filter(h => h.length > 0)]. *)
Definition pastedHerbs (pastedText : string) : list string :=
  filter (λ h, 0 < String.length h) (map trim (split ","%char pastedText)).

(** The [paste] listener of a herb field.  Without a comma the text goes
    into the field, whose content is not part of the page record, and the
    [input] listener runs on the result. *)
Definition herbPaste (net : network) (prescriptionIndex tagsContainer : nat)
    (pastedText : string) : js unit :=
  if includesChar ","%char pastedText then
    addBulkHerbs net prescriptionIndex (pastedHerbs pastedText) tagsContainer
  else ret tt.

(** ** Form submission *)

(** The loop of [handleFormSubmit] over the indices still to visit. *)
Fixpoint collectHerbs (w : page) (indices : list nat) (herbsData : list string)
    (hasHerbs : bool) : list string * bool :=
  match indices with
  | [] => (herbsData, hasHerbs)
  | i :: rest =>
      let herbs := herbsOf w i in
      if bool_decide (0 < length herbs) then
        collectHerbs w rest (herbsData ++ [join ", " herbs]) true
      else collectHerbs w rest herbsData hasHerbs
  end.

(** [handleFormSubmit(e)].  The boolean tells whether [form.submit()] was
    reached; [herbsDataInput] then holds the array that [JSON.stringify]
    encodes. *)
Definition handleFormSubmit (w : page) : page * bool :=
  if negb (truthy (trim (diseaseInput w))) then
    (showToast "Please enter a disease name" ToastError 3000 w, false)
  else
    let '(herbsData, hasHerbs) :=
      collectHerbs w (seq 1 (prescriptionCount w)) [] false in
    if negb hasHerbs then
      (showToast "Please add at least one herb to a prescription" ToastError 3000 w, false)
    else (set_herbsDataInput (Some herbsData) w, true).

(** ** Runs of the prescription registry *)

(** The consistency of the registry with the document: the counter counts
    the cards, the cards carry the indices 1, 2, ... in display order, and
    every card is a node of its own. *)
Definition wellFormed (w : page) : Prop :=
  prescriptionCount w = length (cards w) ∧
  map dataset_index (cards w) = seq 1 (length (cards w)) ∧
  NoDup (map node (cards w)) ∧
  Forall (λ c, node c < nextNode w) (cards w) ∧
  1 ≤ prescriptionCount w ≤ maxPrescriptions w.

(** A call on the registry: the add button, or [removePrescription] with
    whatever index and element its caller holds. *)
Inductive registryOp :=
  | OpAdd
  | OpRemove (index element : nat).

Definition runOp (op : registryOp) (w : page) : page :=
  match op with
  | OpAdd => addPrescription w
  | OpRemove index element => removePrescription index element w
  end.

Fixpoint runOps (ops : list registryOp) (w : page) : page :=
  match ops with
  | [] => w
  | op :: rest => runOps rest (runOp op w)
  end.

(** ** What highlighting should do *)

(** [s.substring(n)]. *)
Fixpoint dropString (n : nat) (s : string) : string :=
  match n, s with
  | S n', String _ s' => dropString n' s'
  | _, _ => s
  end.

(** The query occurs in the text at position [k], letter case aside. *)
Definition occursAt (query text : string) (k : nat) : Prop :=
  k + String.length query ≤ String.length text ∧
  toLowerCase (takeString (String.length query) (dropString k text)) = toLowerCase query.


(** A segment as it should be written: an occurrence inside the highlight
    marker, any other stretch as escaped text. *)
Definition renderSegment (segment : bool * string) : string :=
  if fst segment then markOpen +:+ escapeHtml (snd segment) +:+ markClose
  else escapeHtml (snd segment).




(** ** Runs of one tag collection *)

(** A sequence of [addHerbTagInline] calls on one prescription, each with its
    herb name and its [koreanName] argument. *)
Fixpoint addHerbCalls (net : network) (prescriptionIndex tagsContainer : nat)
    (calls : list (string * option string)) : js unit :=
  match calls with
  | [] => ret tt
  | (herbName, koreanName) :: rest =>
      addHerbTagInline net prescriptionIndex herbName tagsContainer koreanName ;;
      addHerbCalls net prescriptionIndex tagsContainer rest
  end.

(** The distinct names of a list, each once, in the order in which they first
    occur. *)
Fixpoint firstOccurrences (names : list string) : list string :=
  match names with
  | [] => []
  | name :: rest => name :: filter (λ h, h ≠ name) (firstOccurrences rest)
  end.

(** ** What a submission should carry *)

(** The names of a list written one after the other, each but the first
    behind a comma and a space. *)
Definition commaJoined (names : list string) : string :=
  match names with
  | [] => EmptyString
  | name :: rest => name +:+ concatStrings (map (λ h, ", " +:+ h) rest)
  end.

(** The herb lists of prescriptions 1 .. count that are not empty, in index
    order, each as one comma-joined string. *)
Definition nonEmptyPrescriptions (w : page) : list string :=
  map commaJoined
    (filter (λ herbs, herbs ≠ []) (map (herbsOf w) (seq 1 (prescriptionCount w)))).

(** An element as the herb endpoint promises it: a record with a name. *)
Definition isHerbRecord (s : suggestion) : Prop :=
  match s with
  | HerbSuggestion english _ => english ≠ EmptyString
  | PlainSuggestion _ => False
  end.

(** ** Sample pages and services *)

(** The initial page after some herbs were entered. *)
Definition filledPage : page :=
  set_prescriptions (λ _, <[2 := ["Licorice"; "Jujube"]]> (<[1 := ["Ginseng"]]> ∅))
    initialPage.

(** A validation service that knows two herbs, one of them without a
    Korean name, accepts the Korean spelling of the other, and cannot be
    reached for one name; and suggestion endpoints with fixed answers. *)
Definition sampleNetwork : network :=
  {| suggestions_for := λ endpoint query,
       if String.eqb endpoint "/api/herbs" then
         Responded (Json [HerbSuggestion "Ginseng" "insam";
                          HerbSuggestion "Licorice" "";
                          HerbSuggestion "Ginger" "saenggang"])
       else if String.eqb endpoint "/api/diseases" then
         Responded (Json [PlainSuggestion "fever"])
       else Unreachable "TypeError: Failed to fetch";
     validate_name := λ name,
       if String.eqb name "Ginseng" then
         Responded (Json (Validation true "Ginseng" "Ginseng" "insam"))
       else if String.eqb name "insam" then
         Responded (Json (Validation true "Ginseng" "insam" "insam"))
       else if String.eqb name "Licorice" then
         Responded (Json (Validation true "Licorice" "Licorice" ""))
       else if String.eqb name "offline" then
         Unreachable "TypeError: Failed to fetch"
       else Responded (Json (Validation false "" name "")) |}.

(** A disease is chosen and only the second prescription has a herb. *)
Definition secondOnlyPage : page :=
  {| prescriptions := <[2 := ["Ginseng"]]> (<[1 := []]> ∅);
     prescriptionCount := 2;
     maxPrescriptions := 2;
     activeDropdown := None;
     selectedIndex := (-1)%Z;
     herbKoreanCache := ∅;
     diseaseInput := "fever";
     herbsDataInput := None;
     cards := [Card 1 1; Card 2 2];
     tags := <[2 := [HerbTag "Ginseng" "insam (Ginseng)"]]> ∅;
     panels := ∅;
     toasts := [];
     console := [];
     nextNode := 3 |}.

(** U+00A0, the no-break space, and U+3000, the ideographic space. *)
Definition noBreakSpace : string := String "194" (String "160" EmptyString).
Definition ideographicSpace : string :=
  String "227" (String "128" (String "128" EmptyString)).

(** Herbs are there but the disease field holds only blanks: a space, a
    no-break space, an ideographic space and a tab. *)
Definition blankDiseasePage : page :=
  {| prescriptions := <[2 := ["Ginseng"]]> (<[1 := []]> ∅);
     prescriptionCount := 2;
     maxPrescriptions := 2;
     activeDropdown := None;
     selectedIndex := (-1)%Z;
     herbKoreanCache := ∅;
     diseaseInput := " " +:+ noBreakSpace +:+ ideographicSpace +:+ String "009" EmptyString;
     herbsDataInput := None;
     cards := [Card 1 1; Card 2 2];
     tags := <[2 := [HerbTag "Ginseng" "insam (Ginseng)"]]> ∅;
     panels := ∅;
     toasts := [];
     console := [];
     nextNode := 3 |}.

(** A disease is chosen and no prescription has a herb. *)
Definition noHerbsPage : page :=
  {| prescriptions := <[2 := []]> (<[1 := []]> ∅);
     prescriptionCount := 2;
     maxPrescriptions := 2;
     activeDropdown := None;
     selectedIndex := (-1)%Z;
     herbKoreanCache := ∅;
     diseaseInput := "fever";
     herbsDataInput := None;
     cards := [Card 1 1; Card 2 2];
     tags := ∅;
     panels := ∅;
     toasts := [];
     console := [];
     nextNode := 3 |}.

(** ** Clearing the form *)

Definition set_diseaseInput (v : string) (w : page) : page :=
  Page (prescriptions w) (prescriptionCount w) (maxPrescriptions w)
       (activeDropdown w) (selectedIndex w) (herbKoreanCache w) v
       (herbsDataInput w) (cards w) (tags w) (panels w) (toasts w) (console w)
       (nextNode w).

(** [document.getElementById('tags-container-' + i)]: the tags container of
    the card that carries index [i].  The id of a container follows the
    [dataset.index] of its card: [addPrescription] writes both from one
    number and [renumberPrescriptions] rewrites both. *)
Definition tagsContainerOf (w : page) (i : nat) : option nat :=
  node <$> find (λ c, bool_decide (dataset_index c = i)) (cards w).

(** One turn of the loop of [clearForm]. *)
Definition clearPrescription (i : nat) (w : page) : page :=
  let w1 :=
    match tagsContainerOf w i with
    | Some tagsContainer => set_tags (λ t, <[tagsContainer := []]> t) w
    | None => w
    end in
  set_prescriptions (λ p, <[i := []]> p) w1.

(** [clearForm()]; its loop runs over the indices 1 and 2. *)
Definition clearForm (w : page) : page :=
  clearPrescription 2 (clearPrescription 1 (set_diseaseInput EmptyString w)).

(** ** The disease field *)

(** [elements.diseaseSuggestions], a node apart from every card. *)
Definition diseaseSuggestions : nat := 0.

(** [selectDisease(value)].  The [justSelected] flag, which only the focus
    listener reads, and the delayed move of the focus are left out. *)
Definition selectDisease (value : string) : js unit :=
  modify (set_diseaseInput value) ;;
  modify (hideSuggestions diseaseSuggestions).

(** The [input] listener of the disease field, with its timer run, after
    the user has brought the text of the field to [value]. *)
Definition diseaseInputEvent (net : network) (value : string) : js unit :=
  modify (set_diseaseInput value) ;;
  let query := trim value in
  modify (set_selectedIndex (-1)%Z) ;;
  if bool_decide (String.length query < 1) then modify (hideSuggestions diseaseSuggestions)
  else
    let* suggestions := fetchSuggestions net "/api/diseases" query in
    modify (set_activeDropdown (Some diseaseSuggestions)) ;;
    showSuggestionsWithKeyboard diseaseSuggestions suggestions query.

(** The [keydown] listener of the disease field. *)
Definition diseaseKeydown (e : key) : js unit :=
  handleKeyboardNavigation e diseaseSuggestions selectDisease.

(** An element as the disease endpoint promises it: a string. *)
Definition isPlainString (s : suggestion) : Prop :=
  match s with
  | PlainSuggestion _ => True
  | HerbSuggestion _ _ => False
  end.

#[global] Instance key_eq_dec : EqDecision key.
Proof. solve_decision. Defined.

(** The text of a tag. *)
Definition tagText (herbName koreanName : string) : string :=
  escapeHtml (if truthy koreanName then koreanName +:+ " (" +:+ herbName +:+ ")"
              else herbName).

(** ** What the validation service says of a name *)

(** The canonical pair of a name the service answers for and accepts;
    [None] when it does not accept it or no usable answer arrives. *)
Definition recognise (net : network) (herbName : string) : option validated :=
  match validate_name net herbName with
  | Responded (Json data) =>
      if valid data then
        Some (Validated (jsOr (v_english data) (v_name data)) (jsOr (v_korean data) ""))
      else None
  | _ => None
  end.

(** The recognised names of a paste whose English name is not in [old], as
    canonical pairs, in the order of the paste. *)
Definition recognisedNew (net : network) (old herbs : list string) : list validated :=
  omap (λ h, match recognise net h with
             | Some v => if decide (english v ∈ old) then None else Some v
             | None => None
             end) herbs.

(** Is the name one the service does not accept (or gives no usable answer
    for)? *)
Definition isUnknown (net : network) (herbName : string) : bool :=
  match recognise net herbName with
  | Some _ => false
  | None => true
  end.

(** Is the name recognised, with an English name that is in [old]? *)
Definition isKnownIn (net : network) (old : list string) (herbName : string) : bool :=
  match recognise net herbName with
  | Some v => bool_decide (english v ∈ old)
  | None => false
  end.

(** ** Events *)

(** What the user can do to the page, with the arguments the listeners
    hold: any index, container or dropdown, since a listener keeps the ones
    it was created with. *)
Inductive event :=
  | HerbTyped (prescriptionIndex dropdown : nat) (value : string)
  | HerbKey (prescriptionIndex tagsContainer dropdown : nat) (e : key) (value : string)
  | HerbClicked (prescriptionIndex tagsContainer dropdown row : nat)
  | HerbPasted (prescriptionIndex tagsContainer : nat) (pastedText : string)
  | TagRemoved (prescriptionIndex : nat) (herbName : string) (tagsContainer : nat)
  | DiseaseTyped (value : string)
  | DiseaseKey (e : key)
  | AddClicked
  | RemoveClicked (index element : nat)
  | ClearClicked
  | SubmitClicked.

(** The listener an event runs. *)
Definition handle (net : network) (ev : event) : js unit :=
  match ev with
  | HerbTyped prescriptionIndex dropdown value =>
      herbInput net prescriptionIndex dropdown value
  | HerbKey prescriptionIndex tagsContainer dropdown e value =>
      herbKeydown net prescriptionIndex tagsContainer dropdown e value
  | HerbClicked prescriptionIndex tagsContainer dropdown row =>
      clickSuggestion net prescriptionIndex tagsContainer dropdown row
  | HerbPasted prescriptionIndex tagsContainer pastedText =>
      herbPaste net prescriptionIndex tagsContainer pastedText
  | TagRemoved prescriptionIndex herbName tagsContainer =>
      removeHerbTagInline prescriptionIndex herbName tagsContainer
  | DiseaseTyped value => diseaseInputEvent net value
  | DiseaseKey e => diseaseKeydown e
  | AddClicked => modify addPrescription
  | RemoveClicked index element => modify (removePrescription index element)
  | ClearClicked => modify clearForm
  | SubmitClicked => modify (λ w, fst (handleFormSubmit w))
  end.

(** A run of events; a listener that throws leaves the page as it is at the
    throw and the next event goes on from there. *)
Fixpoint runEvents (net : network) (events : list event) (w : page) : page :=
  match events with
  | [] => w
  | ev :: rest => runEvents net rest (snd (handle net ev w))
  end.

(** No herb list names a herb twice. *)
Definition noDuplicates (w : page) : Prop :=
  ∀ i, NoDup (herbsOf w i).

(** What every page reached from the initial one satisfies. *)
Definition pageInvariant (w : page) : Prop :=
  wellFormed w ∧ noDuplicates w.

(** A computation keeps the invariant, however it completes. *)
Definition keeps {A : Type} (m : js A) : Prop :=
  ∀ w, pageInvariant w →
       pageInvariant (snd (m w)) ∧ maxPrescriptions (snd (m w)) = maxPrescriptions w.

(** A change that leaves the registry and the cards alone. *)
Definition besideRegistry (f : page → page) : Prop :=
  ∀ w, prescriptions (f w) = prescriptions w ∧
       prescriptionCount (f w) = prescriptionCount w ∧
       maxPrescriptions (f w) = maxPrescriptions w ∧
       cards (f w) = cards w ∧ nextNode (f w) = nextNode w.

(** ** More sample pages *)

(** The initial page with an error and a warning on screen. *)
Definition toastedPage : page :=
  showToast "At least one prescription is required" ToastWarning 3000
    (showToast "Please enter a disease name" ToastError 3000 initialPage).

(** The filled page with the herb dropdown of prescription 2 open on three
    rows and the cursor on the second. *)
Definition openPanelPage : page :=
  set_selectedIndex 1%Z
    (set_panels (λ p,
       <[2 := Panel true (countHeader 3)
                [SuggestionItem false "Ginseng" (Some "insam") "Ginseng";
                 SuggestionItem true "Ginger" (Some "saenggang") "Ginger";
                 SuggestionItem false "Peony" (Some "") "Peony"]]> p)
       filledPage).



(** The filled page with its tags in place and a disease chosen. *)
Definition taggedPage : page :=
  set_diseaseInput "fever"
    (set_tags (λ _, <[2 := [HerbTag "Licorice" "Licorice"; HerbTag "Jujube" "Jujube"]]>
                      (<[1 := [HerbTag "Ginseng" "insam (Ginseng)"]]> ∅))
       filledPage).

(** * Properties *)

(** Unfolds the plumbing of a computation down to its case analysis. *)
Ltac js_unfold :=
  unfold tryCatch, bind, fetch, json, console_error, modify, gets, ret, throw.

(** ** Strings *)

Section Strings.

Implicit Types (s t u r p : string) (c : ascii).

Lemma append_cons c s t : String c s +:+ t = String c (s +:+ t).
Proof. reflexivity. Qed.

Lemma append_nil_l t : EmptyString +:+ t = t.
Proof. reflexivity. Qed.

Lemma append_nil_r s : s +:+ EmptyString = s.
Proof. induction s as [|c s IH]; [done |]. by rewrite append_cons, IH. Qed.

Lemma append_assoc s t u : (s +:+ t) +:+ u = s +:+ (t +:+ u).
Proof. induction s as [|c s IH]; [done |]. by rewrite !append_cons, IH. Qed.

Lemma length_append s t : String.length (s +:+ t) = String.length s + String.length t.
Proof. induction s as [|c s IH]; [done |]. rewrite append_cons. simpl. by rewrite IH. Qed.

(** [trimStart] and [whitespaceOnly] go from one leading white-space
    character to the next. *)
Lemma trimStart_unfold s :
  trimStart s = match afterWhiteSpace s with Some r => trimStart r | None => s end.
Proof.
  destruct s as [|a [|b [|c s3]]]; cbn [trimStart afterWhiteSpace]; try done.
  - by destruct (isWhiteSpace a).
  - destruct (isWhiteSpace a); [done |]. by destruct (isWhiteSpace2 a b).
  - destruct (isWhiteSpace a); [done |]. destruct (isWhiteSpace2 a b); [done |].
    by destruct (isWhiteSpace3 a b c).
Qed.

Lemma whitespaceOnly_unfold s :
  whitespaceOnly s =
    match s with
    | EmptyString => true
    | String _ _ =>
        match afterWhiteSpace s with Some r => whitespaceOnly r | None => false end
    end.
Proof.
  destruct s as [|a [|b [|c s3]]]; cbn [whitespaceOnly afterWhiteSpace]; try done.
  - by destruct (isWhiteSpace a).
  - destruct (isWhiteSpace a); [done |]. by destruct (isWhiteSpace2 a b).
  - destruct (isWhiteSpace a); [done |]. destruct (isWhiteSpace2 a b); [done |].
    by destruct (isWhiteSpace3 a b c).
Qed.

Lemma trimEnd_cons c s :
  trimEnd (String c s)
    = if whitespaceOnly (String c s) then EmptyString else String c (trimEnd s).
Proof. reflexivity. Qed.

(** A leading white-space character is a non-empty prefix that is
    recognised whatever follows it. *)
Lemma afterWhiteSpace_suffix s r :
  afterWhiteSpace s = Some r →
  ∃ p, s = p +:+ r ∧ p ≠ EmptyString ∧ ∀ t, afterWhiteSpace (p +:+ t) = Some t.
Proof.
  destruct s as [|a [|b [|c s3]]]; cbn [afterWhiteSpace]; try done.
  - destruct (isWhiteSpace a) eqn:Ha; [| done]. intros [= <-].
    exists (String a EmptyString). split; [done |]. split; [done |].
    intros t. rewrite append_cons, append_nil_l. cbn [afterWhiteSpace]. by rewrite Ha.
  - destruct (isWhiteSpace a) eqn:Ha.
    + intros [= <-]. exists (String a EmptyString). split; [done |]. split; [done |].
      intros t. rewrite append_cons, append_nil_l. cbn [afterWhiteSpace]. by rewrite Ha.
    + destruct (isWhiteSpace2 a b) eqn:Hb; [| done]. intros [= <-].
      exists (String a (String b EmptyString)). split; [done |]. split; [done |].
      intros t. rewrite !append_cons, append_nil_l. cbn [afterWhiteSpace].
      by rewrite Ha, Hb.
  - destruct (isWhiteSpace a) eqn:Ha.
    + intros [= <-]. exists (String a EmptyString). split; [done |]. split; [done |].
      intros t. rewrite append_cons, append_nil_l. cbn [afterWhiteSpace]. by rewrite Ha.
    + destruct (isWhiteSpace2 a b) eqn:Hb.
      * intros [= <-]. exists (String a (String b EmptyString)).
        split; [done |]. split; [done |].
        intros t. rewrite !append_cons, append_nil_l. cbn [afterWhiteSpace].
        by rewrite Ha, Hb.
      * destruct (isWhiteSpace3 a b c) eqn:Hc; [| done]. intros [= <-].
        exists (String a (String b (String c EmptyString))).
        split; [done |]. split; [done |].
        intros t. rewrite !append_cons, append_nil_l. cbn [afterWhiteSpace].
        by rewrite Ha, Hb, Hc.
Qed.

Lemma afterWhiteSpace_shorter s r :
  afterWhiteSpace s = Some r → String.length r < String.length s.
Proof.
  intros (p & -> & Hp & _)%afterWhiteSpace_suffix.
  rewrite length_append. destruct p; [done | simpl; lia].
Qed.

(** Induction along the white-space characters a string begins with. *)
Lemma whiteSpace_ind (P : string → Prop) :
  (∀ s, (∀ r, afterWhiteSpace s = Some r → P r) → P s) → ∀ s, P s.
Proof.
  intros Hstep s. remember (String.length s) as n eqn:Hn.
  revert s Hn. induction n as [n IH] using lt_wf_ind. intros s ->.
  apply Hstep. intros r Hr. apply (IH (String.length r)); [| done].
  by apply afterWhiteSpace_shorter.
Qed.

Lemma whitespaceOnly_trimStart s : whitespaceOnly (trimStart s) = whitespaceOnly s.
Proof.
  induction s as [s IH] using whiteSpace_ind.
  rewrite trimStart_unfold, (whitespaceOnly_unfold s).
  destruct (afterWhiteSpace s) as [r|] eqn:Hr.
  - rewrite IH by done. by destruct s.
  - rewrite whitespaceOnly_unfold, Hr. done.
Qed.

Lemma trimEnd_empty_iff s : trimEnd s = EmptyString ↔ whitespaceOnly s = true.
Proof.
  destruct s as [|c s]; [done |]. rewrite trimEnd_cons.
  by destruct (whitespaceOnly (String c s)).
Qed.

Lemma trim_empty_iff s : trim s = EmptyString ↔ whitespaceOnly s = true.
Proof. unfold trim. by rewrite trimEnd_empty_iff, whitespaceOnly_trimStart. Qed.

Lemma afterWhiteSpace_trimStart s : afterWhiteSpace (trimStart s) = None.
Proof.
  induction s as [s IH] using whiteSpace_ind.
  rewrite trimStart_unfold.
  destruct (afterWhiteSpace s) as [r|] eqn:Hr; [by apply IH | done].
Qed.

Lemma afterWhiteSpace_append s r t :
  afterWhiteSpace s = Some r → afterWhiteSpace (s +:+ t) = Some (r +:+ t).
Proof.
  intros (p & -> & _ & Hp)%afterWhiteSpace_suffix.
  by rewrite append_assoc, !Hp.
Qed.

(** White space before a text does not change whether the whole is white
    space. *)
Lemma whitespaceOnly_append s t :
  whitespaceOnly s = true → whitespaceOnly (s +:+ t) = whitespaceOnly t.
Proof.
  induction s as [s IH] using whiteSpace_ind.
  destruct s as [|c s]; [done |].
  rewrite (whitespaceOnly_unfold (String c s)).
  destruct (afterWhiteSpace (String c s)) as [r|] eqn:Hr; [| done].
  intros Hw. rewrite whitespaceOnly_unfold, append_cons, <- append_cons.
  rewrite (afterWhiteSpace_append _ _ t Hr). by apply IH.
Qed.

(** What [trimEnd] cuts off is white space. *)
Lemma trimEnd_split s : ∃ r, s = trimEnd s +:+ r ∧ whitespaceOnly r = true.
Proof.
  induction s as [|c s IH]; [by exists EmptyString |].
  rewrite trimEnd_cons. destruct (whitespaceOnly (String c s)) eqn:Hw.
  - by exists (String c s).
  - destruct IH as (r & Hs & Hr). exists r. split; [| done].
    by rewrite append_cons, <- Hs.
Qed.

Lemma whitespaceOnly_trimEnd_prefix p s :
  whitespaceOnly (p +:+ trimEnd s) = true → whitespaceOnly (p +:+ s) = true.
Proof.
  intros Hw. destruct (trimEnd_split s) as (r & Hs & Hr).
  rewrite Hs, <- append_assoc. by rewrite whitespaceOnly_append.
Qed.

Lemma trimEnd_idempotent s : trimEnd (trimEnd s) = trimEnd s.
Proof.
  induction s as [|c s IH]; [done |].
  rewrite trimEnd_cons. destruct (whitespaceOnly (String c s)) eqn:Hw; [done |].
  rewrite trimEnd_cons.
  destruct (whitespaceOnly (String c (trimEnd s))) eqn:Hw'.
  - apply (whitespaceOnly_trimEnd_prefix (String c EmptyString) s) in Hw'.
    rewrite append_cons, append_nil_l in Hw'. congruence.
  - by rewrite IH.
Qed.

Lemma afterWhiteSpace_trimEnd s :
  afterWhiteSpace s = None → afterWhiteSpace (trimEnd s) = None.
Proof.
  intros Hs. destruct (afterWhiteSpace (trimEnd s)) as [r'|] eqn:Hr; [| done].
  destruct (trimEnd_split s) as (r & Heq & _).
  apply (afterWhiteSpace_append _ _ r) in Hr. rewrite <- Heq in Hr. congruence.
Qed.

Lemma trim_idempotent s : trim (trim s) = trim s.
Proof.
  unfold trim.
  rewrite (trimStart_unfold (trimEnd (trimStart s))).
  rewrite afterWhiteSpace_trimEnd by apply afterWhiteSpace_trimStart.
  apply trimEnd_idempotent.
Qed.

Lemma includesChar_afterWhiteSpace c s r :
  afterWhiteSpace s = Some r → includesChar c s = false → includesChar c r = false.
Proof.
  intros (p & -> & _)%afterWhiteSpace_suffix.
  induction p as [|d p IH]; [done |].
  rewrite append_cons. cbn [includesChar]. by destruct (Ascii.eqb d c).
Qed.

Lemma includesChar_trimStart c s :
  includesChar c s = false → includesChar c (trimStart s) = false.
Proof.
  induction s as [s IH] using whiteSpace_ind. intros Hs.
  rewrite trimStart_unfold.
  destruct (afterWhiteSpace s) as [r|] eqn:Hr; [| done].
  apply IH; [done |]. by eapply includesChar_afterWhiteSpace.
Qed.

Lemma includesChar_trimEnd c s :
  includesChar c s = false → includesChar c (trimEnd s) = false.
Proof.
  induction s as [|d s IH]; [done |].
  rewrite trimEnd_cons. cbn [includesChar].
  destruct (Ascii.eqb d c) eqn:Hd; [done |]. intros Hs.
  destruct (whitespaceOnly (String d s)); [done |].
  cbn [includesChar]. rewrite Hd. by apply IH.
Qed.

(** The script's [join(', ')] writes the names comma-joined. *)
Lemma join_commaJoined (names : list string) : join ", " names = commaJoined names.
Proof.
  destruct names as [|name rest]; [done |]. unfold commaJoined.
  revert name. induction rest as [|next rest IH]; intros name.
  - simpl. by rewrite append_nil_r.
  - change (join ", " (name :: next :: rest))
      with (name +:+ ", " +:+ join ", " (next :: rest)).
    rewrite IH. cbn [map concatStrings]. by rewrite append_assoc.
Qed.

End Strings.

(** ** The prescription registry *)

Section Registry.

Implicit Types (w : page) (cs : list card) (c : card).

Lemma renumberCards_nodes cs : ∀ i, map node (renumberCards i cs) = map node cs.
Proof. induction cs as [|c cs IH]; intros i; simpl; [done | by rewrite IH]. Qed.

Lemma renumberCards_indices cs :
  ∀ i, map dataset_index (renumberCards i cs) = seq (S i) (length cs).
Proof. induction cs as [|c cs IH]; intros i; simpl; [done | by rewrite IH]. Qed.

Lemma renumberCards_length cs i : length (renumberCards i cs) = length cs.
Proof.
  rewrite <- (length_map node (renumberCards i cs)), renumberCards_nodes.
  apply length_map.
Qed.

Lemma renumberMap_lookup_out old cs :
  ∀ i acc j, j ≤ i ∨ i + length cs < j →
    renumberMap old i cs acc !! j = acc !! j.
Proof.
  induction cs as [|c cs IH]; intros i acc j Hj; simpl in *; [done |].
  rewrite IH by lia. apply lookup_insert_ne. lia.
Qed.

Lemma renumberMap_lookup_in old cs :
  ∀ i acc k c, cs !! k = Some c →
    renumberMap old i cs acc !! S (i + k) = Some (default [] (old !! dataset_index c)).
Proof.
  induction cs as [|c0 cs IH]; intros i acc k c Hk; [done |].
  destruct k as [|k]; simpl in *.
  - injection Hk as ->. rewrite renumberMap_lookup_out by lia.
    rewrite Nat.add_0_r. apply lookup_insert_eq.
  - replace (S (i + S k)) with (S (S i + k)) by lia. by apply IH.
Qed.

Lemma renumberCards_lookup cs :
  ∀ i k c, cs !! k = Some c →
    renumberCards i cs !! k = Some (Card (node c) (S (i + k))).
Proof.
  induction cs as [|c0 cs IH]; intros i k c Hk; [done |].
  destruct k as [|k]; simpl in *.
  - injection Hk as ->. by rewrite Nat.add_0_r.
  - replace (S (i + S k)) with (S (S i + k)) by lia. by apply IH.
Qed.

Lemma filter_node_length cs c :
  NoDup (map node cs) → c ∈ cs →
  S (length (filter (λ c', node c' ≠ node c) cs)) = length cs.
Proof.
  induction cs as [|c0 cs IH]; intros Hnd Hin; [by apply elem_of_nil in Hin |].
  simpl in Hnd. apply NoDup_cons in Hnd as [Hfresh Hnd].
  rewrite filter_cons. case_decide as Hne.
  - apply elem_of_cons in Hin as [-> | Hin]; [done |].
    simpl. f_equal. by apply IH.
  - simpl. f_equal.
    assert (Hall : Forall (λ c', node c' ≠ node c) cs).
    { apply Forall_forall. intros c' Hc' Heq. apply Hfresh.
      rewrite Hne, <- Heq. apply list_elem_of_fmap. by exists c'. }
    clear -Hall. induction Hall as [|c' cs' Hc' _ IH']; [done |].
    rewrite filter_cons. case_decide; [simpl; by rewrite IH' | done].
Qed.

Lemma filter_node_length_le cs element :
  NoDup (map node cs) →
  length cs ≤ S (length (filter (λ c', node c' ≠ element) cs)).
Proof.
  induction cs as [|c0 cs IH]; intros Hnd; simpl; [lia |].
  simpl in Hnd. apply NoDup_cons in Hnd as [Hfresh Hnd].
  rewrite filter_cons. case_decide as Hne; simpl.
  - specialize (IH Hnd). lia.
  - subst element.
    assert (Hall : Forall (λ c', node c' ≠ node c0) cs).
    { apply Forall_forall. intros c' Hc' Heq. apply Hfresh.
      rewrite <- Heq. apply list_elem_of_fmap. by exists c'. }
    clear -Hall. induction Hall as [|c' cs' Hc' _ IH']; [simpl; lia |].
    rewrite filter_cons. case_decide; [simpl; lia | done].
Qed.

Lemma showToast_last message type duration w :
  last (toasts (showToast message type duration w)) = Some (Toast message type duration).
Proof. unfold showToast; simpl. apply last_snoc. Qed.

Lemma wellFormed_addPrescription w : wellFormed w → wellFormed (addPrescription w).
Proof.
  intros (Hcount & Hidx & Hnd & Hfresh & Hlo & Hhi).
  unfold addPrescription. case_decide as Hmax; [done |].
  unfold wellFormed; simpl.
  rewrite length_app, map_app, map_app; simpl.
  repeat split.
  - lia.
  - rewrite Hidx, Nat.add_1_r, seq_S. simpl. by rewrite Hcount.
  - apply NoDup_app. split; [done |]. split; [| apply NoDup_singleton].
    intros n Hn Hn'. apply list_elem_of_singleton in Hn'. subst n.
    apply list_elem_of_fmap in Hn as (c & Hc & Hin).
    rewrite Forall_forall in Hfresh. specialize (Hfresh c Hin). lia.
  - apply Forall_app. split.
    + eapply Forall_impl; [exact Hfresh |]. simpl. intros; lia.
    + apply Forall_singleton. simpl. lia.
  - lia.
  - lia.
Qed.

Lemma wellFormed_removePrescription w index element :
  wellFormed w → wellFormed (removePrescription index element w).
Proof.
  intros (Hcount & Hidx & Hnd & Hfresh & Hlo & Hhi).
  unfold removePrescription. case_decide as Hmin; [done |].
  unfold wellFormed, renumberPrescriptions; simpl.
  rewrite renumberCards_length, renumberCards_indices, renumberCards_nodes.
  pose proof (filter_node_length_le (cards w) element Hnd) as Hle.
  pose proof (length_filter (λ c, node c ≠ element) (cards w)) as Hge.
  repeat split; try done; try lia.
  - apply (NoDup_fmap_2_strong node).
    + intros c1 c2 Hc1 Hc2 Heq.
      apply list_elem_of_filter in Hc1 as [_ Hc1], Hc2 as [_ Hc2].
      apply list_elem_of_lookup in Hc1 as [i1 Hi1], Hc2 as [i2 Hi2].
      assert (i1 = i2).
      { eapply NoDup_lookup; [exact Hnd | |];
          rewrite list_lookup_fmap; [rewrite Hi1 | rewrite Hi2]; simpl; by rewrite ?Heq. }
      congruence.
    + apply NoDup_filter. eapply NoDup_fmap_1. exact Hnd.
  - apply Forall_forall. intros c Hc.
    apply list_elem_of_lookup in Hc as [k Hk].
    assert (Hn : map node (renumberCards 0 (filter (λ c, node c ≠ element) (cards w))) !! k
                 = Some (node c)) by (by rewrite list_lookup_fmap, Hk).
    rewrite renumberCards_nodes, list_lookup_fmap in Hn.
    destruct (filter _ _ !! k) as [c'|] eqn:Hc'; [| done].
    simpl in Hn. injection Hn as Hn. rewrite <- Hn.
    apply list_elem_of_lookup_2, list_elem_of_filter in Hc' as [_ Hc'].
    rewrite Forall_forall in Hfresh. by apply Hfresh.
Qed.

Lemma addPrescription_max w : maxPrescriptions (addPrescription w) = maxPrescriptions w.
Proof. unfold addPrescription. by case_decide. Qed.

Lemma removePrescription_max w index element :
  maxPrescriptions (removePrescription index element w) = maxPrescriptions w.
Proof. unfold removePrescription. by case_decide. Qed.

Lemma runOps_wellFormed ops :
  ∀ w, wellFormed w →
    wellFormed (runOps ops w) ∧ maxPrescriptions (runOps ops w) = maxPrescriptions w.
Proof.
  induction ops as [|op ops IH]; intros w Hwf; simpl; [done |].
  destruct op as [|index element]; simpl.
  - destruct (IH (addPrescription w)) as [H1 H2];
      [by apply wellFormed_addPrescription |].
    by rewrite H2, addPrescription_max.
  - destruct (IH (removePrescription index element w)) as [H1 H2];
      [by apply wellFormed_removePrescription |].
    by rewrite H2, removePrescription_max.
Qed.

End Registry.

(** C4.  [addPrescription] at the maximum changes neither the count nor any
    herb list nor the cards and shows a warning toast; [removePrescription]
    with a count of one (or less) does the same; and from a well-formed page
    every sequence of add and remove calls, whatever their arguments, keeps
    the count between 1 and [maxPrescriptions]. *)
Theorem C4_count_stays_within_bounds
    (wa wr w : page) (index element : nat) (ops : list registryOp) :
  maxPrescriptions wa ≤ prescriptionCount wa →
  prescriptionCount wr ≤ 1 →
  wellFormed w →
  (prescriptionCount (addPrescription wa) = prescriptionCount wa ∧
   prescriptions (addPrescription wa) = prescriptions wa ∧
   cards (addPrescription wa) = cards wa ∧
   last (toasts (addPrescription wa))
     = Some (Toast "Maximum 3 prescriptions allowed" ToastWarning 3000)) ∧
  (prescriptionCount (removePrescription index element wr) = prescriptionCount wr ∧
   prescriptions (removePrescription index element wr) = prescriptions wr ∧
   cards (removePrescription index element wr) = cards wr ∧
   last (toasts (removePrescription index element wr))
     = Some (Toast "At least one prescription is required" ToastWarning 3000)) ∧
  1 ≤ prescriptionCount (runOps ops w) ≤ maxPrescriptions w.
Proof.
  intros Hmax Hmin Hwf. split; [| split].
  - unfold addPrescription. case_decide; [| lia].
    repeat split; try done. apply showToast_last.
  - unfold removePrescription. case_decide; [| lia].
    repeat split; try done. apply showToast_last.
  - destruct (runOps_wellFormed ops w Hwf) as [(_ & _ & _ & _ & Hb) Hm].
    by rewrite <- Hm.
Qed.

Lemma wellFormed_initialPage : wellFormed initialPage.
Proof.
  unfold wellFormed; simpl. repeat split; try done; try lia.
  - apply NoDup_cons. split; [| apply NoDup_singleton].
    intros H. apply list_elem_of_singleton in H. discriminate.
  - repeat constructor.
Qed.

Lemma C4_count_stays_within_bounds_witness :
  let wr := removePrescription 2 2 initialPage in
  let ops := [OpRemove 1 1; OpRemove 2 2; OpAdd; OpAdd; OpRemove 2 3] in
  (prescriptionCount (addPrescription initialPage) = 2 ∧
   last (toasts (addPrescription initialPage))
     = Some (Toast "Maximum 3 prescriptions allowed" ToastWarning 3000)) ∧
  (prescriptionCount (removePrescription 1 1 wr) = 1 ∧
   last (toasts (removePrescription 1 1 wr))
     = Some (Toast "At least one prescription is required" ToastWarning 3000)) ∧
  1 ≤ prescriptionCount (runOps ops initialPage) ≤ 2.
Proof.
  intros wr ops.
  destruct (C4_count_stays_within_bounds initialPage wr initialPage 1 1 ops)
    as ((Ha1 & _ & _ & Ha2) & (Hr1 & _ & _ & Hr2) & Hb).
  - simpl. lia.
  - vm_compute. lia.
  - exact wellFormed_initialPage.
  - split; [split; [exact Ha1 | exact Ha2] |].
    split; [split; [exact Hr1 | exact Hr2] | exact Hb].
Defined.

(** X24.  In a well-formed page with at least two prescriptions,
    [removePrescription] called on card [c] with the index that [c] carries
    at the time of the call leaves the other cards in their display order,
    numbered 1 .. count-1, the registry holding exactly those indices, and
    the herb list found under a surviving card's new index is the one that
    was under its old index. *)
Theorem X24_remove_by_current_index_keeps_the_lists (w : page) (c : card) :
  wellFormed w →
  2 ≤ prescriptionCount w →
  c ∈ cards w →
  let w' := removePrescription (dataset_index c) (node c) w in
  let survivors := filter (λ c', node c' ≠ node c) (cards w) in
  prescriptionCount w' = prescriptionCount w - 1 ∧
  length (cards w') = prescriptionCount w - 1 ∧
  map node (cards w') = map node survivors ∧
  map dataset_index (cards w') = seq 1 (prescriptionCount w - 1) ∧
  (∀ j, is_Some (prescriptions w' !! j) ↔ 1 ≤ j ≤ prescriptionCount w - 1) ∧
  (∀ k c', survivors !! k = Some c' →
     cards w' !! k = Some (Card (node c') (S k)) ∧
     herbsOf w' (S k) = herbsOf w (dataset_index c')).
Proof.
  intros (Hcount & Hidx & Hnd & Hfresh & Hlo & Hhi) Htwo Hin w' survivors.
  pose proof (filter_node_length (cards w) c Hnd Hin) as Hlen.
  fold survivors in Hlen.
  subst w'. unfold removePrescription. case_decide as Hmin; [lia |].
  unfold renumberPrescriptions, herbsOf; simpl. fold survivors.
  rewrite renumberCards_length, renumberCards_nodes, renumberCards_indices.
  assert (Hn : length survivors = prescriptionCount w - 1) by lia.
  rewrite Hn.
  split; [lia |]. split; [done |]. split; [done |]. split; [done |].
  split.
  - intros j. split.
    + intros [v Hv].
      destruct (decide (1 ≤ j ≤ prescriptionCount w - 1)) as [|Hout]; [done |].
      rewrite renumberMap_lookup_out in Hv by lia. by rewrite lookup_empty in Hv.
    + intros Hj.
      destruct (lookup_lt_is_Some_2 survivors (j - 1)) as [c' Hc']; [lia |].
      replace j with (S (0 + (j - 1))) by lia.
      erewrite renumberMap_lookup_in; [by eexists | exact Hc'].
  - intros k c' Hk. split.
    + by apply (renumberCards_lookup survivors 0 k c').
    + replace (S k) with (S (0 + k)) by lia.
      erewrite renumberMap_lookup_in by exact Hk. simpl.
      rewrite lookup_delete_ne; [done |].
      intros Heq.
      apply list_elem_of_lookup_2, list_elem_of_filter in Hk as [Hne Hc'].
      apply Hne. f_equal.
      apply list_elem_of_lookup in Hin as [i Hi], Hc' as [i' Hi'].
      assert (i' = i); [| congruence].
      eapply (NoDup_lookup (map dataset_index (cards w))).
      * rewrite Hidx. apply NoDup_seq.
      * by rewrite list_lookup_fmap, Hi'.
      * rewrite list_lookup_fmap, Hi. simpl. congruence.
Qed.


Lemma X24_remove_by_current_index_keeps_the_lists_witness :
  let w' := removePrescription 1 1 filledPage in
  prescriptionCount w' = 1 ∧
  map dataset_index (cards w') = [1] ∧
  cards w' !! 0 = Some (Card 2 1) ∧
  herbsOf w' 1 = ["Licorice"; "Jujube"].
Proof.
  intros w'.
  assert (Hwf : wellFormed filledPage) by exact wellFormed_initialPage.
  assert (Htwo : 2 ≤ prescriptionCount filledPage) by (simpl; lia).
  assert (Hin : Card 1 1 ∈ cards filledPage) by (simpl; left).
  destruct (X24_remove_by_current_index_keeps_the_lists filledPage (Card 1 1) Hwf Htwo Hin)
    as (Hc & _ & _ & Hi & _ & Hs).
  destruct (Hs 0 (Card 2 2) eq_refl) as [Hcard Hherbs].
  split; [exact Hc |]. split; [exact Hi |]. split; [exact Hcard | exact Hherbs].
Defined.


(** ** Tag collections *)

Section Tags.

Implicit Types (w : page) (net : network).

Lemma set_herbKoreanCache_id w : set_herbKoreanCache (λ _, herbKoreanCache w) w = w.
Proof. by destruct w. Qed.

(** A cache lookup completes normally and changes nothing but the cache. *)
Lemma getKoreanName_effect net englishName w :
  ∃ koreanName cache,
    getKoreanName net englishName w
      = (Normal koreanName, set_herbKoreanCache (λ _, cache) w).
Proof.
  unfold getKoreanName. js_unfold.
  destruct (herbKoreanCache w !! englishName) as [k|] eqn:Hc.
  - exists k, (herbKoreanCache w). by rewrite set_herbKoreanCache_id.
  - destruct (validate_name net englishName) as [e|[e|data]]; simpl.
    + exists EmptyString, (herbKoreanCache w). by rewrite set_herbKoreanCache_id.
    + exists EmptyString, (herbKoreanCache w). by rewrite set_herbKoreanCache_id.
    + by eexists _, _.
Qed.

Lemma addHerbTagInline_present net prescriptionIndex herbName tagsContainer koreanName w :
  herbName ∈ herbsOf w prescriptionIndex →
  addHerbTagInline net prescriptionIndex herbName tagsContainer koreanName w = (Normal tt, w).
Proof.
  intros Hin. unfold addHerbTagInline, bind, gets, modify, ret.
  unfold herbsOf in *.
  destruct (prescriptions w !! prescriptionIndex) as [herbs|] eqn:Hp; simpl in *.
  - rewrite Hp. simpl. by rewrite bool_decide_eq_true_2.
  - by apply elem_of_nil in Hin.
Qed.

Lemma addHerbTagInline_absent net prescriptionIndex herbName tagsContainer koreanName w :
  herbName ∉ herbsOf w prescriptionIndex →
  ∃ w', addHerbTagInline net prescriptionIndex herbName tagsContainer koreanName w
          = (Normal tt, w') ∧
        prescriptions w'
          = <[prescriptionIndex := herbsOf w prescriptionIndex ++ [herbName]]> (prescriptions w).
Proof.
  intros Hout. unfold addHerbTagInline, bind, gets, modify, ret.
  unfold herbsOf in *.
  destruct (prescriptions w !! prescriptionIndex) as [herbs|] eqn:Hp; simpl in *.
  - rewrite Hp. simpl. rewrite bool_decide_eq_false_2 by done.
    destruct koreanName as [k|]; simpl.
    + by eexists.
    + match goal with |- context [getKoreanName net herbName ?w0] =>
        destruct (getKoreanName_effect net herbName w0) as (k & c & ->) end.
      simpl. by eexists.
  - rewrite lookup_insert_eq. simpl. rewrite ?bool_decide_eq_false_2 by done.
    destruct koreanName as [k|]; simpl.
    + eexists. split; [done |]. simpl. apply insert_insert_eq.
    + match goal with |- context [getKoreanName net herbName ?w0] =>
        destruct (getKoreanName_effect net herbName w0) as (k & c & ->) end.
      simpl. eexists. split; [done |]. simpl. apply insert_insert_eq.
Qed.

Lemma firstOccurrences_elem names : ∀ h, h ∈ firstOccurrences names ↔ h ∈ names.
Proof.
  induction names as [|name rest IH]; intros h; simpl; [done |].
  rewrite !elem_of_cons, list_elem_of_filter, IH.
  destruct (decide (h = name)); tauto.
Qed.

Lemma firstOccurrences_NoDup names : NoDup (firstOccurrences names).
Proof.
  induction names as [|name rest IH]; simpl; [apply NoDup_nil_2 |].
  apply NoDup_cons. split; [| by apply NoDup_filter].
  rewrite list_elem_of_filter. tauto.
Qed.

Lemma addHerbCalls_herbs net prescriptionIndex tagsContainer calls :
  ∀ w, ∃ w',
    addHerbCalls net prescriptionIndex tagsContainer calls w = (Normal tt, w') ∧
    herbsOf w' prescriptionIndex
      = herbsOf w prescriptionIndex
          ++ filter (λ h, h ∉ herbsOf w prescriptionIndex) (firstOccurrences (map fst calls)).
Proof.
  induction calls as [|[herbName koreanName] rest IH]; intros w; simpl.
  - exists w. split; [done |]. by rewrite filter_nil, app_nil_r.
  - unfold bind.
    destruct (decide (herbName ∈ herbsOf w prescriptionIndex)) as [Hin|Hout].
    + rewrite addHerbTagInline_present by done.
      destruct (IH w) as (w' & -> & Hw'). exists w'. split; [done |].
      rewrite Hw'. f_equal. rewrite filter_cons. case_decide; [done |].
      rewrite list_filter_filter. apply list_filter_iff. intros h.
      split; [| tauto]. intros Hh. split; [done |]. by intros ->.
    + destruct (addHerbTagInline_absent net prescriptionIndex herbName tagsContainer
                  koreanName w Hout) as (w1 & -> & Hp).
      destruct (IH w1) as (w' & -> & Hw'). exists w'. split; [done |].
      assert (H1 : herbsOf w1 prescriptionIndex = herbsOf w prescriptionIndex ++ [herbName]).
      { unfold herbsOf at 1. by rewrite Hp, lookup_insert_eq. }
      rewrite Hw', H1, <- app_assoc. f_equal. simpl.
      rewrite filter_cons. case_decide; [| done]. f_equal.
      rewrite list_filter_filter. apply list_filter_iff. intros h.
      rewrite elem_of_app, list_elem_of_singleton. tauto.
Qed.


End Tags.

(** C5.  A sequence of add calls on one prescription always completes; the
    herb list it leaves is the list it found followed by the new names, each
    once, in the order of their first call; it has no duplicates when the
    list it found had none, and holds exactly the old and the called names.
    An add of a name that is already there returns the page as it was, list
    and tags included. *)
Theorem C5_adds_keep_first_occurrences
    (net : network) (w wn : page) (prescriptionIndex tagsContainer : nat)
    (calls : list (string * option string)) (herbName : string)
    (koreanName : option string) :
  NoDup (herbsOf w prescriptionIndex) →
  herbName ∈ herbsOf wn prescriptionIndex →
  (∃ w', addHerbCalls net prescriptionIndex tagsContainer calls w = (Normal tt, w') ∧
     herbsOf w' prescriptionIndex
       = herbsOf w prescriptionIndex
           ++ filter (λ h, h ∉ herbsOf w prescriptionIndex)
                (firstOccurrences (map fst calls)) ∧
     NoDup (herbsOf w' prescriptionIndex) ∧
     (∀ h, h ∈ herbsOf w' prescriptionIndex
           ↔ h ∈ herbsOf w prescriptionIndex ∨ h ∈ map fst calls)) ∧
  addHerbTagInline net prescriptionIndex herbName tagsContainer koreanName wn
    = (Normal tt, wn).
Proof.
  intros Hnd Hin. split; [| by apply addHerbTagInline_present].
  destruct (addHerbCalls_herbs net prescriptionIndex tagsContainer calls w)
    as (w' & Hrun & Hherbs).
  exists w'. split; [done |]. split; [done |]. rewrite Hherbs. split.
  - apply NoDup_app. split; [done |]. split.
    + intros h Hh Hh'. apply list_elem_of_filter in Hh' as [Hh' _]. done.
    + apply NoDup_filter, firstOccurrences_NoDup.
  - intros h. rewrite elem_of_app, list_elem_of_filter, firstOccurrences_elem.
    destruct (decide (h ∈ herbsOf w prescriptionIndex)); tauto.
Qed.

Lemma C5_adds_keep_first_occurrences_witness :
  (∃ w', addHerbCalls sampleNetwork 1 1
           [("Ginseng"%string, None); ("Licorice"%string, Some "gamcho"%string);
            ("Ginseng"%string, Some ""%string)] initialPage = (Normal tt, w') ∧
         herbsOf w' 1 = ["Ginseng"; "Licorice"]%string) ∧
  addHerbTagInline sampleNetwork 1 "Ginseng" 1 None filledPage = (Normal tt, filledPage).
Proof.
  assert (Hnd : NoDup (herbsOf initialPage 1)) by apply NoDup_nil_2.
  assert (Hin : "Ginseng"%string ∈ herbsOf filledPage 1) by left.
  destruct (C5_adds_keep_first_occurrences sampleNetwork initialPage filledPage 1 1
              [("Ginseng"%string, None); ("Licorice"%string, Some "gamcho"%string);
               ("Ginseng"%string, Some ""%string)] "Ginseng" None Hnd Hin)
    as [(w' & Hrun & Hherbs & _ & _) Hnoop].
  split; [| exact Hnoop].
  exists w'. split; [exact Hrun | exact Hherbs].
Defined.




(** ** Form submission *)

Section Submission.

Implicit Types (w : page) (s : string).

Lemma truthy_false s : truthy s = false ↔ s = EmptyString.
Proof. unfold truthy. destruct (String.eqb_spec s EmptyString); simpl; split; done. Qed.

Lemma collectHerbs_spec w indices :
  ∀ herbsData hasHerbs,
    let chosen := filter (λ herbs : list string, herbs ≠ []) (map (herbsOf w) indices) in
    collectHerbs w indices herbsData hasHerbs
      = (herbsData ++ map (join ", ") chosen,
         hasHerbs || bool_decide (chosen ≠ [])).
Proof.
  induction indices as [|i rest IH]; intros herbsData hasHerbs; simpl.
  - by rewrite app_nil_r, orb_false_r.
  - rewrite filter_cons. destruct (herbsOf w i) as [|h hs] eqn:Hi; simpl.
    + apply IH.
    + rewrite IH, <- app_assoc. simpl. by rewrite orb_true_r.
Qed.

End Submission.

(** C6.  With a disease field that is empty or holds white space only
    (spaces, tabs, line ends, Unicode spaces) the submission is refused with
    the disease message, whatever the herbs; with a disease and no herb in
    any of the prescriptions 1 .. count it is refused with the
    add-at-least-one-herb message; otherwise the form is submitted and the
    hidden field carries exactly the non-empty prescriptions, in index
    order, each as one string of its herb names with a comma and a space
    between neighbours.  A page whose only herb is in prescription 2 sends a
    one-element array; a page with one herb in prescription 1 and two in
    prescription 2 sends two strings, the second with one comma. *)
Theorem C6_submit_serializes_non_empty (wa wb wc : page) :
  whitespaceOnly (diseaseInput wa) = true →
  whitespaceOnly (diseaseInput wb) = false →
  (∀ i, 1 ≤ i ≤ prescriptionCount wb → herbsOf wb i = []) →
  whitespaceOnly (diseaseInput wc) = false →
  (∃ i, 1 ≤ i ≤ prescriptionCount wc ∧ herbsOf wc i ≠ []) →
  handleFormSubmit wa
    = (showToast "Please enter a disease name" ToastError 3000 wa, false) ∧
  handleFormSubmit wb
    = (showToast "Please add at least one herb to a prescription" ToastError 3000 wb,
       false) ∧
  handleFormSubmit wc = (set_herbsDataInput (Some (nonEmptyPrescriptions wc)) wc, true) ∧
  handleFormSubmit secondOnlyPage
    = (set_herbsDataInput (Some ["Ginseng"%string]) secondOnlyPage, true) ∧
  handleFormSubmit taggedPage
    = (set_herbsDataInput (Some ["Ginseng"; "Licorice, Jujube"]%string) taggedPage, true).
Proof.
  intros Ha Hb Hnone Hc Hsome.
  split; [| split; [| split; [| split]]].
  - unfold handleFormSubmit.
    apply trim_empty_iff in Ha. rewrite Ha. done.
  - unfold handleFormSubmit.
    destruct (truthy (trim (diseaseInput wb))) eqn:Ht; simpl.
    2:{ apply truthy_false, trim_empty_iff in Ht. congruence. }
    rewrite collectHerbs_spec. simpl.
    assert (Hf : filter (λ herbs : list string, herbs ≠ [])
                   (map (herbsOf wb) (seq 1 (prescriptionCount wb))) = []).
    { destruct (filter _ _) as [|herbs more] eqn:Hf; [done |].
      assert (Hin : herbs ∈ herbs :: more) by left.
      rewrite <- Hf in Hin. apply list_elem_of_filter in Hin as [Hne Hin].
      apply list_elem_of_fmap in Hin as (i & -> & Hi).
      apply elem_of_seq in Hi. rewrite Hnone in Hne by lia. done. }
    rewrite Hf. simpl. done.
  - unfold handleFormSubmit.
    destruct (truthy (trim (diseaseInput wc))) eqn:Ht; simpl.
    2:{ apply truthy_false, trim_empty_iff in Ht. congruence. }
    rewrite collectHerbs_spec. simpl.
    rewrite (map_ext _ _ join_commaJoined). fold (nonEmptyPrescriptions wc).
    rewrite bool_decide_eq_true_2; [done |].
    destruct Hsome as (i & Hi & Hne). intros Hf.
    assert (Hin : herbsOf wc i ∈ filter (λ herbs : list string, herbs ≠ [])
                    (map (herbsOf wc) (seq 1 (prescriptionCount wc)))).
    { apply list_elem_of_filter. split; [done |].
      apply list_elem_of_fmap. exists i. split; [done |]. apply elem_of_seq. lia. }
    rewrite Hf in Hin. by apply elem_of_nil in Hin.
  - reflexivity.
  - reflexivity.
Qed.

Lemma C6_submit_serializes_non_empty_witness :
  whitespaceOnly (diseaseInput blankDiseasePage) = true ∧
  snd (handleFormSubmit blankDiseasePage) = false ∧
  last (toasts (fst (handleFormSubmit blankDiseasePage)))
    = Some (Toast "Please enter a disease name" ToastError 3000) ∧
  last (toasts (fst (handleFormSubmit noHerbsPage)))
    = Some (Toast "Please add at least one herb to a prescription" ToastError 3000) ∧
  herbsDataInput (fst (handleFormSubmit taggedPage))
    = Some ["Ginseng"; "Licorice, Jujube"]%string.
Proof.
  assert (Hnone : ∀ i, 1 ≤ i ≤ prescriptionCount noHerbsPage → herbsOf noHerbsPage i = []).
  { intros i Hi. simpl in Hi.
    assert (i = 1 ∨ i = 2) as [-> | ->] by lia; reflexivity. }
  assert (Hsome : ∃ i, 1 ≤ i ≤ prescriptionCount taggedPage ∧ herbsOf taggedPage i ≠ []).
  { exists 2. split; [simpl; lia | discriminate]. }
  destruct (C6_submit_serializes_non_empty blankDiseasePage noHerbsPage taggedPage
              eq_refl eq_refl Hnone eq_refl Hsome) as (Ha & Hb & Hc & _).
  rewrite Ha, Hb, Hc. simpl. repeat split; reflexivity.
Defined.

(** ** Suggestions *)

(** C9.  [fetchSuggestions] always completes normally with a list: the
    parsed answer when the request and the parse both succeed, with the page
    untouched, and the empty list when either fails, the only trace being
    one line on the console. *)
Theorem C9_fetchSuggestions_never_throws (net : network) (endpoint query : string) (w : page) :
  ∃ (suggestions : list suggestion) (w' : page),
    fetchSuggestions net endpoint query w = (Normal suggestions, w') ∧
    match suggestions_for net endpoint query with
    | Responded (Json answer) => suggestions = answer ∧ w' = w
    | Responded (Malformed error) | Unreachable error =>
        suggestions = [] ∧
        w' = set_console (λ out, out ++ ["Failed to fetch suggestions: " +:+ error]) w
    end.
Proof.
  unfold fetchSuggestions. js_unfold.
  destruct (suggestions_for net endpoint query) as [error | [error | answer]]; simpl;
    by eexists _, _.
Qed.

Section Panels.

Implicit Types (w : page) (net : network).

Lemma renderItems_values (row : nat → suggestion → completion suggestionItem) :
  (∀ i s it, row i s = Normal it → data_value it = englishNameOf s) →
  ∀ suggestions i items,
    renderItems row i suggestions = Normal items →
    map data_value items = map englishNameOf suggestions.
Proof.
  intros Hrow suggestions.
  induction suggestions as [|s rest IH]; intros i items Hr; simpl in *.
  - by injection Hr as <-.
  - destruct (row i s) as [it|] eqn:Hit; [| done].
    destruct (renderItems row (S i) rest) as [its|] eqn:Hits; [| done].
    injection Hr as <-. simpl. f_equal; [by eapply Hrow | by eapply IH].
Qed.

Lemma herbItem_value query i s it :
  truthy query = true → herbItem query i s = Normal it → data_value it = englishNameOf s.
Proof.
  intros Hq. destruct s as [value | english korean]; simpl.
  - by rewrite Hq.
  - by intros [= <-].
Qed.

Lemma plainItem_value query i s it :
  truthy query = true → plainItem query i s = Normal it → data_value it = englishNameOf s.
Proof.
  intros Hq. destruct s as [value | english korean]; simpl.
  - by intros [= <-].
  - by rewrite Hq.
Qed.

Lemma renderItems_herbRecords query suggestions :
  Forall isHerbRecord suggestions →
  ∀ i, ∃ items, renderItems (herbItem query) i suggestions = Normal items.
Proof.
  induction 1 as [|s rest Hs _ IH]; intros i; simpl; [by eexists |].
  destruct s as [value | english korean]; [done |]. simpl.
  destruct (IH (S i)) as [items ->]. by eexists.
Qed.

(** What [showSuggestionsWithKeyboard] leaves in the container when it
    completes normally with a non-empty query. *)
Lemma showSuggestions_values container suggestions query w w' :
  truthy query = true →
  showSuggestionsWithKeyboard container suggestions query w = (Normal tt, w') →
  map data_value (itemsOf w' container) = map englishNameOf suggestions.
Proof.
  intros Hq. unfold showSuggestionsWithKeyboard.
  destruct suggestions as [|first rest].
  - unfold modify, hideSuggestions. intros [= <-].
    unfold itemsOf; simpl. by rewrite lookup_insert_eq.
  - unfold bind, modify, liftCompletion.
    match goal with |- context [renderItems ?row 0 ?l] =>
      destruct (renderItems row 0 l) as [items|] eqn:Hitems end; [| done].
    intros [= <-]. unfold itemsOf; simpl. rewrite lookup_insert_eq.
    change (panel_items (Panel true (countHeader (S (length rest))) items)) with items.
    change (map data_value items = map englishNameOf (first :: rest)).
    eapply renderItems_values; [| exact Hitems].
    intros i s it. destruct first as [value | english korean].
    + by apply plainItem_value.
    + destruct (truthy english); [by apply herbItem_value | by apply plainItem_value].
Qed.

Lemma truthy_trim_length s :
  bool_decide (String.length (trim s) < 1) = false → truthy (trim s) = true.
Proof.
  intros Hlen. apply bool_decide_eq_false in Hlen.
  unfold truthy. destruct (trim s); simpl in *; [lia | done].
Qed.

Lemma set_console_id w : set_console (λ _, console w) w = w.
Proof. by destruct w. Qed.

(** A suggestion fetch completes normally and changes nothing but the
    console. *)
Lemma fetchSuggestions_effect net endpoint query w :
  ∃ suggestions out,
    fetchSuggestions net endpoint query w
      = (Normal suggestions, set_console (λ _, out) w) ∧
    ∀ answer, suggestions_for net endpoint query = Responded (Json answer) →
              suggestions = answer.
Proof.
  unfold fetchSuggestions. js_unfold.
  destruct (suggestions_for net endpoint query) as [error | [error | answer]]; simpl.
  - eexists [], _. split; [done |]. by intros.
  - eexists [], _. split; [done |]. by intros.
  - exists answer, (console w). rewrite set_console_id. split; [done |].
    by intros ? [= ->].
Qed.

End Panels.

(** X26.  Whatever the herb endpoint answers, when the input listener that
    was set up with [prescriptionIndex] completes, no row of its dropdown
    carries a name that is in the herb list stored under that index.  When
    the endpoint answers a non-blank text with herb records, the listener
    does complete and the rows are exactly the answered records whose
    English name is not in that list, in the order of the answer. *)
Theorem X26_dropdown_excludes_the_listeners_list
    (net netB : network) (w w' wB : page) (prescriptionIndex dropdown : nat)
    (value valueB : string) (answer : list suggestion) :
  herbInput net prescriptionIndex dropdown value w = (Normal tt, w') →
  whitespaceOnly valueB = false →
  suggestions_for netB "/api/herbs" (trim valueB) = Responded (Json answer) →
  Forall isHerbRecord answer →
  (∀ it, it ∈ itemsOf w' dropdown → data_value it ∉ herbsOf w prescriptionIndex) ∧
  (∃ wB', herbInput netB prescriptionIndex dropdown valueB wB = (Normal tt, wB') ∧
     map data_value (itemsOf wB' dropdown)
       = map englishNameOf
           (filter (λ s, englishNameOf s ∉ herbsOf wB prescriptionIndex) answer)).
Proof.
  intros Hrun HvalueB Hanswer Hrecords. split.
  - revert Hrun. unfold herbInput.
    unfold bind at 1. unfold modify at 1.
    case_bool_decide as Hlen.
    + unfold modify, hideSuggestions. intros [= <-] it Hit.
      unfold itemsOf in Hit; simpl in Hit. rewrite lookup_insert_eq in Hit.
      by apply elem_of_nil in Hit.
    + unfold bind at 1.
      destruct (fetchSuggestions_effect net "/api/herbs" (trim value)
                  (set_selectedIndex (-1) w)) as (suggestions & out & -> & _).
      unfold bind at 1, gets at 1. unfold bind at 1, modify at 1.
      intros Hshow it Hit.
      apply showSuggestions_values in Hshow;
        [| apply truthy_trim_length; by apply bool_decide_eq_false].
      assert (Hv : data_value it ∈ map data_value (itemsOf w' dropdown))
        by (apply list_elem_of_fmap; by exists it).
      rewrite Hshow in Hv. apply list_elem_of_fmap in Hv as (s & -> & Hs).
      by apply list_elem_of_filter in Hs as [Hs _].
  - unfold herbInput.
    unfold bind at 1. unfold modify at 1.
    assert (Hq : truthy (trim valueB) = true).
    { destruct (truthy (trim valueB)) eqn:Ht; [done |].
      apply truthy_false, trim_empty_iff in Ht. congruence. }
    rewrite bool_decide_eq_false_2.
    2:{ unfold truthy in Hq. destruct (trim valueB); simpl in *; [done | lia]. }
    unfold bind at 1.
    destruct (fetchSuggestions_effect netB "/api/herbs" (trim valueB)
                (set_selectedIndex (-1) wB)) as (suggestions & out & -> & Hs).
    rewrite (Hs answer Hanswer).
    unfold bind at 1, gets at 1. unfold bind at 1, modify at 1.
    change (herbsOf (set_console (λ _, out) (set_selectedIndex (-1) wB)) prescriptionIndex)
      with (herbsOf wB prescriptionIndex).
    set (shown := filter (λ s, englishNameOf s ∉ herbsOf wB prescriptionIndex) answer).
    set (w1 := set_activeDropdown _ _).
    assert (Hshown : Forall isHerbRecord shown).
    { apply Forall_forall. intros s Hin. apply list_elem_of_filter in Hin as [_ Hin].
      rewrite Forall_forall in Hrecords. by apply Hrecords. }
    assert (Hdone : ∃ wB', showSuggestionsWithKeyboard dropdown shown (trim valueB) w1
                           = (Normal tt, wB')).
    { unfold showSuggestionsWithKeyboard.
      destruct shown as [|first rest]; [by eexists |].
      unfold bind, modify, liftCompletion.
      pose proof (Forall_inv Hshown) as Hfirst.
      destruct first as [v | english korean]; [done |]. simpl in Hfirst.
      assert (Ht : truthy english = true).
      { unfold truthy. by destruct (String.eqb_spec english EmptyString). }
      rewrite Ht.
      destruct (renderItems_herbRecords (trim valueB) _ Hshown 0) as [items ->].
      by eexists. }
    destruct Hdone as [wB' Hdone]. exists wB'. split; [exact Hdone |].
    by apply showSuggestions_values in Hdone.
Qed.

Lemma X26_dropdown_excludes_the_listeners_list_witness :
  let w' := snd (herbInput sampleNetwork 1 1 " gin" filledPage) in
  (∀ it, it ∈ itemsOf w' 1 → data_value it ∉ herbsOf filledPage 1) ∧
  map data_value (itemsOf w' 1) = ["Licorice"; "Ginger"]%string.
Proof.
  intros w'.
  assert (Hrun : herbInput sampleNetwork 1 1 " gin" filledPage = (Normal tt, w'))
    by (vm_compute; reflexivity).
  assert (Hrecords : Forall isHerbRecord
            [HerbSuggestion "Ginseng" "insam"; HerbSuggestion "Licorice" "";
             HerbSuggestion "Ginger" "saenggang"])
    by (repeat constructor; discriminate).
  destruct (X26_dropdown_excludes_the_listeners_list sampleNetwork sampleNetwork
              filledPage w' filledPage 1 1 " gin" " gin" _ Hrun eq_refl eq_refl Hrecords)
    as [Hnone (wB' & HrunB & Hvalues)].
  split; [exact Hnone |].
  rewrite Hrun in HrunB. injection HrunB as <-. exact Hvalues.
Defined.


(** ** The Korean-name cache *)

Section Cache.

Implicit Types (w : page) (net : network).

Lemma jsOr_empty_r (a : string) : jsOr a "" = a.
Proof. unfold jsOr. by destruct (String.eqb_spec a EmptyString). Qed.

Lemma truthy_true (a : string) : truthy a = true ↔ a ≠ EmptyString.
Proof. unfold truthy. destruct (String.eqb_spec a EmptyString); simpl; split; done. Qed.

(** An add that is handed its Korean name leaves the cache alone. *)
Lemma addHerbTagInline_named_cache net prescriptionIndex herbName tagsContainer k w :
  ∃ w', addHerbTagInline net prescriptionIndex herbName tagsContainer (Some k) w
          = (Normal tt, w') ∧
        herbKoreanCache w' = herbKoreanCache w.
Proof.
  unfold addHerbTagInline, bind, gets, modify, ret.
  destruct (prescriptions w !! prescriptionIndex); simpl;
    case_bool_decide; by eexists.
Qed.

(** What either selection callback does once it holds the row's
    [data-korean]. *)
Lemma select_with_korean net prescriptionIndex tagsContainer dropdown value k w :
  ∃ w',
    ((if truthy k then modify (set_herbKoreanCache (λ c, <[value := k]> c)) else ret tt) ;;
     addHerbTagInline net prescriptionIndex value tagsContainer (Some k) ;;
     modify (hideSuggestions dropdown)) w = (Normal tt, w') ∧
    (k ≠ EmptyString → herbKoreanCache w' !! value = Some k) ∧
    (k = EmptyString → herbKoreanCache w' = herbKoreanCache w).
Proof.
  destruct (truthy k) eqn:Hk; unfold bind, modify, ret.
  - destruct (addHerbTagInline_named_cache net prescriptionIndex value tagsContainer k
                (set_herbKoreanCache (λ c, <[value := k]> c) w)) as (w1 & -> & Hc).
    eexists. split; [done |]. simpl. rewrite Hc. simpl. split.
    + intros _. apply lookup_insert_eq.
    + intros ->. done.
  - destruct (addHerbTagInline_named_cache net prescriptionIndex value tagsContainer k w)
      as (w1 & -> & Hc).
    eexists. split; [done |]. simpl. split; [| done].
    intros Hne. apply truthy_true in Hne. congruence.
Qed.

End Cache.

(** C2, as the script has it.  A successful validation, and a selection of a
    dropdown row of a herb record, store the herb's Korean name under its
    English name when that Korean name is not empty; when it is empty the
    cache stays as it was.  Only the lookup of [getKoreanName] stores what it
    found even when that is the empty string. *)
Theorem C2_cache_holds_non_empty_names
    (net : network) (wv wv' ws wl : page) (herbName value englishName k : string)
    (v : validated) (it : suggestionItem) (data : validation)
    (prescriptionIndex tagsContainer dropdown : nat) :
  validateHerb net herbName wv = (Normal (Some v), wv') →
  find (λ it, String.eqb (data_value it) value) (itemsOf ws dropdown) = Some it →
  itemAt (itemsOf ws dropdown) (selectedIndex ws) = Some it →
  data_korean it = Some k →
  herbKoreanCache wl !! englishName = None →
  validate_name net englishName = Responded (Json data) →
  ((korean v ≠ EmptyString → herbKoreanCache wv' !! english v = Some (korean v)) ∧
   (korean v = EmptyString → herbKoreanCache wv' = herbKoreanCache wv)) ∧
  (∃ ws', herbSelectByClick net prescriptionIndex tagsContainer dropdown value ws
            = (Normal tt, ws') ∧
          (k ≠ EmptyString → herbKoreanCache ws' !! value = Some k) ∧
          (k = EmptyString → herbKoreanCache ws' = herbKoreanCache ws)) ∧
  (∃ ws', herbSelectByEnter net prescriptionIndex tagsContainer dropdown value ws
            = (Normal tt, ws') ∧
          (k ≠ EmptyString → herbKoreanCache ws' !! value = Some k) ∧
          (k = EmptyString → herbKoreanCache ws' = herbKoreanCache ws)) ∧
  (∃ wl', getKoreanName net englishName wl = (Normal (v_korean data), wl') ∧
          herbKoreanCache wl' !! englishName = Some (v_korean data)).
Proof.
  intros Hvalidate Hfind Hat Hkorean Hmiss Hdata.
  split; [| split; [| split]].
  - revert Hvalidate.
    unfold validateHerb. js_unfold.
    destruct (validate_name net herbName) as [error | [error | d]]; simpl; try done.
    destruct (valid d); [| done].
    rewrite jsOr_empty_r.
    destruct (truthy (v_korean d)) eqn:Hk; intros [= <- <-]; simpl.
    + split; [intros _; apply lookup_insert_eq |].
      intros He. apply truthy_true in Hk. done.
    + split; [| done]. intros Hne. apply truthy_true in Hne. congruence.
  - unfold herbSelectByClick. unfold bind at 1, gets at 1. rewrite Hfind, Hkorean.
    apply (select_with_korean net prescriptionIndex tagsContainer dropdown value k ws).
  - unfold herbSelectByEnter. unfold bind at 1, gets at 1. rewrite Hat, Hkorean.
    apply (select_with_korean net prescriptionIndex tagsContainer dropdown value k ws).
  - unfold getKoreanName. js_unfold.
    rewrite Hmiss, Hdata. simpl. rewrite jsOr_empty_r.
    eexists. split; [done |]. simpl. apply lookup_insert_eq.
Qed.

Lemma C2_cache_holds_non_empty_names_witness :
  let wv' := snd (validateHerb sampleNetwork "Ginseng" initialPage) in
  let ws := snd (herbInput sampleNetwork 1 1 "gin" initialPage) in
  herbKoreanCache wv' !! "Ginseng"%string = Some "insam"%string ∧
  (∃ ws', herbSelectByClick sampleNetwork 1 1 1 "Ginseng" ws = (Normal tt, ws') ∧
          herbKoreanCache ws' !! "Ginseng"%string = Some "insam"%string) ∧
  (∃ wl', getKoreanName sampleNetwork "Licorice" initialPage = (Normal ""%string, wl') ∧
          herbKoreanCache wl' !! "Licorice"%string = Some ""%string).
Proof.
  intros wv' ws.
  pose (it := match itemsOf ws 1 with
              | it :: _ => it
              | [] => SuggestionItem false "" None ""
              end).
  assert (Hvalidate : validateHerb sampleNetwork "Ginseng" initialPage
                      = (Normal (Some (Validated "Ginseng" "insam")), wv'))
    by (vm_compute; reflexivity).
  assert (Hfind : find (λ it, String.eqb (data_value it) "Ginseng") (itemsOf ws 1) = Some it)
    by (vm_compute; reflexivity).
  assert (Hat : itemAt (itemsOf ws 1) (selectedIndex ws) = Some it)
    by (vm_compute; reflexivity).
  assert (Hkorean : data_korean it = Some "insam"%string) by (vm_compute; reflexivity).
  assert (Hmiss : herbKoreanCache initialPage !! "Licorice"%string = None) by reflexivity.
  assert (Hdata : validate_name sampleNetwork "Licorice"
                  = Responded (Json (Validation true "Licorice" "Licorice" "")))
    by reflexivity.
  destruct (C2_cache_holds_non_empty_names sampleNetwork initialPage wv' ws initialPage
              "Ginseng" "Ginseng" "Licorice" "insam" (Validated "Ginseng" "insam") it
              (Validation true "Licorice" "Licorice" "") 1 1 1
              Hvalidate Hfind Hat Hkorean Hmiss Hdata)
    as ([Hv _] & (ws' & Hclick & Hc & _) & _ & (wl' & Hlookup & Hl)).
  split; [apply Hv; discriminate |].
  split.
  - exists ws'. split; [exact Hclick | apply Hc; discriminate].
  - exists wl'. split; [exact Hlookup | exact Hl].
Defined.

(** C2 as the specification words it fails.  The validation service
    recognises Licorice and has no Korean name for it: the validation
    succeeds, and so does the selection of its dropdown row, which adds the
    herb; after either the cache has no entry for Licorice, so the empty
    name is not told apart from a name never looked up. *)
Lemma C2_empty_name_is_not_cached :
  let validation := validateHerb sampleNetwork "Licorice" initialPage in
  let ws := snd (herbInput sampleNetwork 1 1 "li" initialPage) in
  let selection := clickSuggestion sampleNetwork 1 1 1 1 ws in
  fst validation = Normal (Some (Validated "Licorice" "")) ∧
  herbKoreanCache (snd validation) !! "Licorice"%string = None ∧
  map data_value (itemsOf ws 1) = ["Ginseng"; "Licorice"; "Ginger"]%string ∧
  fst selection = Normal tt ∧
  herbsOf (snd selection) 1 = ["Licorice"%string] ∧
  herbKoreanCache (snd selection) !! "Licorice"%string = None.
Proof. vm_compute. repeat split; reflexivity. Qed.

(** ** Bulk paste *)

(** C1 at the input of the specification.  Both names are recognised and the
    prescription is empty.  All three candidates pass the duplicate check,
    which runs before anything is added; the second Ginseng is then dropped
    by [addHerbTagInline].  Two tags are added, no duplicate is reported, and
    the success toast counts three. *)
Theorem C1_repeated_name_in_one_paste :
  let pasted := herbPaste sampleNetwork 1 1 "Ginseng, Licorice, Ginseng" initialPage in
  pastedHerbs "Ginseng, Licorice, Ginseng" = ["Ginseng"; "Licorice"; "Ginseng"]%string ∧
  fst pasted = Normal tt ∧
  herbsOf (snd pasted) 1 = ["Ginseng"; "Licorice"]%string ∧
  map dataset_herb (default [] (tags (snd pasted) !! 1)) = ["Ginseng"; "Licorice"]%string ∧
  toasts (snd pasted)
    = [Toast "Validating herbs..." ToastInfo 3000;
       Toast "Added 3 herbs successfully" ToastSuccess 3000] ∧
  fst (classifyHerbs sampleNetwork 1 ["Ginseng"; "Licorice"; "Ginseng"]%string [] [] []
         initialPage)
    = Normal ([Validated "Ginseng" "insam"; Validated "Licorice" "";
               Validated "Ginseng" "insam"], [], []).
Proof. vm_compute. repeat split; reflexivity. Qed.

(** ** Highlighting *)

Section Highlight.

Implicit Types (s t u v query literal : string) (c : ascii).

Lemma revString_acc s : ∀ acc, revString acc s = revString EmptyString s +:+ acc.
Proof.
  induction s as [|c s IH]; intros acc; simpl; [done |].
  rewrite (IH (String c acc)), (IH (String c EmptyString)), append_assoc. done.
Qed.


Lemma length_dropString s : ∀ n, String.length (dropString n s) = String.length s - n.
Proof. induction s as [|c s IH]; intros [|n]; simpl; try done. Qed.


Lemma dropString_all u : dropString (String.length u) u = EmptyString.
Proof. induction u as [|c u IH]; simpl; done. Qed.

Lemma takeString_append u v : takeString (String.length u) (u +:+ v) = u.
Proof.
  induction u as [|c u IH]; simpl; [by destruct v |]. by rewrite IH.
Qed.

Lemma length_toLowerCase s : String.length (toLowerCase s) = String.length s.
Proof. induction s as [|c s IH]; simpl; [done | by rewrite IH]. Qed.

Lemma lowerChar_canonicalize c : lowerChar (canonicalize c) = lowerChar c.
Proof. destruct c as [[] [] [] [] [] [] [] []]; reflexivity. Qed.

Lemma canonicalize_lowerChar c : canonicalize (lowerChar c) = canonicalize c.
Proof. destruct c as [[] [] [] [] [] [] [] []]; reflexivity. Qed.

(** The matcher's comparison of two characters is the comparison of their
    lower cases. *)
Lemma canonicalize_eq_iff a b :
  canonicalize a = canonicalize b ↔ lowerChar a = lowerChar b.
Proof.
  split; intros H.
  - by rewrite <- (lowerChar_canonicalize a), H, lowerChar_canonicalize.
  - by rewrite <- (canonicalize_lowerChar a), H, canonicalize_lowerChar.
Qed.

Lemma matchesAt_spec literal : ∀ t,
  matchesAt literal t = true ↔
  String.length literal ≤ String.length t ∧
  toLowerCase (takeString (String.length literal) t) = toLowerCase literal.
Proof.
  induction literal as [|a literal IH]; intros t; simpl.
  - split; [intros _; split; [lia | done] | done].
  - destruct t as [|b t]; simpl.
    + split; [done | intros [? _]; lia].
    + rewrite andb_true_iff, IH. split.
      * intros [Hc [Hlen Hlow]]. apply Ascii.eqb_eq, canonicalize_eq_iff in Hc.
        split; [lia |]. by rewrite Hlow, Hc.
      * intros [Hlen [= Hc Hlow]]. split.
        -- apply Ascii.eqb_eq, canonicalize_eq_iff. done.
        -- split; [lia | done].
Qed.

Lemma occursAt_matchesAt query text k :
  k ≤ String.length text →
  occursAt query text k ↔ matchesAt query (dropString k text) = true.
Proof.
  intros Hk. unfold occursAt. rewrite matchesAt_spec, length_dropString.
  split; intros [Hlen Hlow]; (split; [lia | done]).
Qed.

(** The class the script escapes is the set of syntax characters. *)
Lemma isRegExpSyntax_covers c : isSyntaxCharacter c = isRegExpSyntax c.
Proof. by destruct c as [[] [] [] [] [] [] [] []]. Qed.

Lemma groupLiteral_escapeRegExp query :
  groupLiteral (escapeRegExp query +:+ ")") = Some query.
Proof.
  induction query as [|c query IH]; [done |].
  cbn [escapeRegExp]. destruct (isRegExpSyntax c) eqn:Hc.
  - rewrite !append_cons. cbn [groupLiteral].
    rewrite isRegExpSyntax_covers, Hc, IH. done.
  - rewrite append_cons. cbn [groupLiteral].
    destruct (Ascii.eqb_spec c ")"%char) as [-> | _]; [done |].
    destruct (Ascii.eqb_spec c "\"%char) as [-> | _]; [done |].
    rewrite isRegExpSyntax_covers, Hc, IH. done.
Qed.

(** Escaping makes the pattern a group around the query itself, taken
    literally. *)
Lemma newRegExp_escapeRegExp query :
  newRegExp ("(" +:+ escapeRegExp query +:+ ")") = Some query.
Proof. apply groupLiteral_escapeRegExp. Qed.

Lemma escapeChar_plain c :
  c ≠ "&"%char → c ≠ "<"%char → c ≠ ">"%char → escapeChar c = String c EmptyString.
Proof.
  destruct c as [[] [] [] [] [] [] [] []]; intros H1 H2 H3; try reflexivity;
    by (destruct H1 || destruct H2 || destruct H3).
Qed.



Lemma splitLoop_skip literal s : ∀ k segment,
  k ≤ String.length s →
  splitLoop literal s k segment = splitLoop literal (dropString k s) 0 segment.
Proof.
  induction s as [|c s IH]; intros [|k] segment Hk; simpl in Hk; try done; try lia.
  simpl. apply IH. lia.
Qed.



Lemma occursAt_head query u rest :
  toLowerCase u = toLowerCase query → occursAt query (u +:+ rest) 0.
Proof.
  intros Hlow.
  assert (Hlen : String.length u = String.length query)
    by (by rewrite <- (length_toLowerCase u), Hlow, length_toLowerCase).
  split.
  - rewrite length_append. lia.
  - simpl. replace (dropString 0 (u +:+ rest)) with (u +:+ rest) by (by destruct (u +:+ rest)).
    by rewrite <- Hlen, takeString_append.
Qed.

Lemma highlightPart_match query m :
  toLowerCase m = toLowerCase query → highlightPart query m = renderSegment (true, m).
Proof. intros Hlow. unfold highlightPart, renderSegment. simpl. by rewrite Hlow, String.eqb_refl. Qed.

Lemma highlightPart_between query u rest :
  query ≠ EmptyString →
  (∀ k, k < String.length u → ¬ occursAt query (u +:+ rest) k) →
  highlightPart query u = renderSegment (false, u).
Proof.
  intros Hq Hclean. unfold highlightPart, renderSegment. simpl.
  destruct (String.eqb_spec (toLowerCase u) (toLowerCase query)) as [Hlow|]; [| done].
  exfalso. apply (Hclean 0); [| by apply occursAt_head].
  assert (Hlen : String.length u = String.length query)
    by (by rewrite <- (length_toLowerCase u), Hlow, length_toLowerCase).
  rewrite Hlen. destruct query; [done | simpl; lia].
Qed.



End Highlight.



(** * Further properties *)

(** ** Toasts *)

(** X1.  A new toast replaces the toasts of its own type and leaves the
    others where they were: afterwards it is the only toast of its type, the
    toasts of the other types are the same and in the same order, and when
    no two toasts shared a type before, none do after. *)
Theorem X1_showToast_one_per_type
    (message : string) (type : toastType) (duration : nat) (w : page) :
  NoDup (map toast_type (toasts w)) →
  let w' := showToast message type duration w in
  filter (λ t, toast_type t = type) (toasts w') = [Toast message type duration] ∧
  filter (λ t, toast_type t ≠ type) (toasts w')
    = filter (λ t, toast_type t ≠ type) (toasts w) ∧
  NoDup (map toast_type (toasts w')).
Proof.
  intros Hnd w'. subst w'. unfold showToast; simpl.
  set (others := filter (λ t, toast_type t ≠ type) (toasts w)).
  assert (Hothers : Forall (λ t, toast_type t ≠ type) others).
  { apply Forall_forall. intros t Ht. by apply list_elem_of_filter in Ht as [Ht _]. }
  rewrite !filter_app, !filter_cons, !filter_nil.
  case_decide as Hsame; [| done]. case_decide as Hdiff; [done |].
  split; [| split].
  - replace (filter (λ t, toast_type t = type) others) with (@nil toast); [done |].
    clear -Hothers. induction Hothers as [|t ts Ht _ IH]; [done |].
    rewrite filter_cons. by case_decide.
  - rewrite app_nil_r. clear -Hothers. induction Hothers as [|t ts Ht _ IH]; [done |].
    rewrite filter_cons. case_decide; [by f_equal | done].
  - rewrite map_app. apply NoDup_app. split; [| split].
    + eapply sublist_NoDup; [exact Hnd |].
      apply fmap_sublist, sublist_filter.
    + intros ty Hty Hty'. simpl in Hty'. apply list_elem_of_singleton in Hty'. subst ty.
      apply list_elem_of_fmap in Hty as (t & Heq & Ht).
      rewrite Forall_forall in Hothers. by apply (Hothers t Ht).
    + apply NoDup_singleton.
Qed.

Lemma X1_showToast_one_per_type_witness :
  toasts (showToast "Maximum 3 prescriptions allowed" ToastWarning 3000 toastedPage)
    = [Toast "Please enter a disease name" ToastError 3000;
       Toast "Maximum 3 prescriptions allowed" ToastWarning 3000] ∧
  NoDup (map toast_type
           (toasts (showToast "Maximum 3 prescriptions allowed" ToastWarning 3000
                      toastedPage))).
Proof.
  assert (Hnd : NoDup (map toast_type (toasts toastedPage))).
  { apply NoDup_cons. split; [| apply NoDup_singleton].
    intros H. apply list_elem_of_singleton in H. discriminate. }
  destruct (X1_showToast_one_per_type "Maximum 3 prescriptions allowed" ToastWarning 3000
              toastedPage Hnd) as (_ & _ & Hnd').
  split; [reflexivity | exact Hnd'].
Defined.

(** ** The suggestion panel and its cursor *)

Section Cursor.

Implicit Types (w : page) (items : list suggestionItem).

Lemma markActive_lookup selected items :
  ∀ base i it, markActive selected base items !! i = Some it →
    ∃ it0, items !! i = Some it0 ∧
           data_value it = data_value it0 ∧ data_korean it = data_korean it0 ∧
           item_html it = item_html it0 ∧
           item_active it = bool_decide (Z.of_nat (base + i) = selected).
Proof.
  induction items as [|it0 items IH]; intros base i it Hi; [done |].
  destruct i as [|i]; simpl in Hi.
  - injection Hi as <-. exists it0. rewrite Nat.add_0_r. by repeat split.
  - destruct (IH (S base) i it Hi) as (it1 & H1 & H2 & H3 & H4 & H5).
    exists it1. replace (base + S i) with (S base + i) by lia. by repeat split.
Qed.

Lemma markActive_length selected items :
  ∀ base, length (markActive selected base items) = length items.
Proof. induction items as [|it items IH]; intros base; simpl; [done | by rewrite IH]. Qed.

Lemma markActive_values selected items :
  ∀ base, map data_value (markActive selected base items) = map data_value items.
Proof. induction items as [|it items IH]; intros base; simpl; [done | by rewrite IH]. Qed.

Lemma renderItems_length row suggestions :
  ∀ i items, renderItems row i suggestions = Normal items →
             length items = length suggestions.
Proof.
  induction suggestions as [|s rest IH]; intros i items Hr; simpl in *.
  - by injection Hr as <-.
  - destruct (row i s) as [it|]; [| done].
    destruct (renderItems row (S i) rest) as [its|] eqn:Hits; [| done].
    injection Hr as <-. simpl. f_equal. by eapply IH.
Qed.

Lemma renderItems_active row suggestions :
  (∀ i s it, row i s = Normal it → item_active it = bool_decide (i = 0)) →
  ∀ i items k it, renderItems row i suggestions = Normal items →
    items !! k = Some it → item_active it = bool_decide (i + k = 0).
Proof.
  intros Hrow.
  induction suggestions as [|s rest IH]; intros i items k it Hr Hk; simpl in *.
  - injection Hr as <-. done.
  - destruct (row i s) as [it0|] eqn:Hit0; [| done].
    destruct (renderItems row (S i) rest) as [its|] eqn:Hits; [| done].
    injection Hr as <-. destruct k as [|k]; simpl in Hk.
    + injection Hk as <-. rewrite Nat.add_0_r. by eapply Hrow.
    + replace (i + S k) with (S i + k) by lia. by eapply IH.
Qed.

Lemma herbItem_active query i s it :
  herbItem query i s = Normal it → item_active it = bool_decide (i = 0).
Proof.
  destruct s as [value | english korean]; simpl.
  - destruct (truthy query); [done | by intros [= <-]].
  - by intros [= <-].
Qed.

Lemma plainItem_active query i s it :
  plainItem query i s = Normal it → item_active it = bool_decide (i = 0).
Proof.
  destruct s as [value | english korean]; simpl.
  - by intros [= <-].
  - destruct (truthy query); [done | by intros [= <-]].
Qed.

Lemma updateSelectedItem_spec dropdown w p :
  panels w !! dropdown = Some p →
  selectedIndex (updateSelectedItem dropdown w) = selectedIndex w ∧
  itemsOf (updateSelectedItem dropdown w) dropdown
    = markActive (selectedIndex w) 0 (panel_items p).
Proof.
  intros Hp. unfold updateSelectedItem, itemsOf; simpl. rewrite Hp.
  by rewrite lookup_insert_eq.
Qed.

End Cursor.

(** X2.  When [showSuggestionsWithKeyboard] completes: for an empty list the
    container is hidden and emptied and the cursor is -1; for a non-empty
    list the container is shown with one row per suggestion, the cursor is
    on the first row and that row alone is marked active. *)
Theorem X2_panel_opens_on_first_row
    (container : nat) (suggestions : list suggestion) (query : string) (w w' : page) :
  showSuggestionsWithKeyboard container suggestions query w = (Normal tt, w') →
  ∃ p, panels w' !! container = Some p ∧
       length (panel_items p) = length suggestions ∧
       panel_shown p = bool_decide (suggestions ≠ []) ∧
       selectedIndex w' = (if decide (suggestions = []) then -1 else 0)%Z ∧
       ∀ k it, panel_items p !! k = Some it → item_active it = bool_decide (k = 0).
Proof.
  unfold showSuggestionsWithKeyboard.
  destruct suggestions as [|first rest].
  - unfold modify, hideSuggestions. intros [= <-]. simpl.
    eexists. rewrite lookup_insert_eq. split; [done |]. by repeat split.
  - unfold bind, modify, liftCompletion.
    match goal with |- context [renderItems ?row 0 ?l] =>
      destruct (renderItems row 0 l) as [items|] eqn:Hitems end; [| done].
    intros [= <-]. simpl. eexists. rewrite lookup_insert_eq. split; [done |].
    simpl. split; [by apply renderItems_length in Hitems |].
    split; [done |]. split; [done |].
    intros k it Hk.
    eapply (renderItems_active _ _ _ 0 items k it Hitems Hk).
    Unshelve.
    intros i s it0.
    destruct (match first with
              | PlainSuggestion _ => false
              | HerbSuggestion english _ => truthy english
              end); [apply herbItem_active | apply plainItem_active].
Qed.

Lemma X2_panel_opens_on_first_row_witness :
  let w' := snd (showSuggestionsWithKeyboard 1
                   [HerbSuggestion "Ginseng" "insam"; HerbSuggestion "Ginger" "saenggang"]
                   "gin" initialPage) in
  map item_active (itemsOf w' 1) = [true; false] ∧ selectedIndex w' = 0%Z.
Proof.
  intros w'.
  assert (Hrun : showSuggestionsWithKeyboard 1
                   [HerbSuggestion "Ginseng" "insam"; HerbSuggestion "Ginger" "saenggang"]
                   "gin" initialPage = (Normal tt, w')) by (vm_compute; reflexivity).
  destruct (X2_panel_opens_on_first_row _ _ _ _ _ Hrun) as (p & Hp & _ & _ & Hsel & _).
  split; [vm_compute; reflexivity | exact Hsel].
Defined.

(** X3.  On a dropdown with rows and a cursor between -1 and the last row,
    ArrowDown and ArrowUp complete without calling the selection callback;
    the cursor ends on a row (0 .. rows-1), having moved by one step unless
    it was at the end it moves towards; the rows keep their values and the
    row under the cursor, and no other, is marked active. *)
Theorem X3_arrows_keep_cursor_on_a_row
    (e : key) (dropdown : nat) (onSelect : string → js unit) (w : page) :
  e = ArrowDown ∨ e = ArrowUp →
  itemsOf w dropdown ≠ [] →
  (-1 ≤ selectedIndex w < Z.of_nat (length (itemsOf w dropdown)))%Z →
  ∃ w', handleKeyboardNavigation e dropdown onSelect w = (Normal tt, w') ∧
        (0 ≤ selectedIndex w' < Z.of_nat (length (itemsOf w dropdown)))%Z ∧
        selectedIndex w'
          = (if decide (e = ArrowDown)
             then Z.min (selectedIndex w + 1) (Z.of_nat (length (itemsOf w dropdown)) - 1)
             else Z.max (selectedIndex w - 1) 0)%Z ∧
        map data_value (itemsOf w' dropdown) = map data_value (itemsOf w dropdown) ∧
        ∀ k it, itemsOf w' dropdown !! k = Some it →
                item_active it = bool_decide (Z.of_nat k = selectedIndex w').
Proof.
  intros He Hrows Hsel.
  unfold handleKeyboardNavigation. unfold bind at 1, gets at 1.
  destruct (itemsOf w dropdown) as [|it0 items] eqn:Hitems; [done |].
  set (n := length (it0 :: items)) in *.
  assert (Hn : (1 ≤ Z.of_nat n)%Z) by (subst n; simpl; lia).
  assert (Hp : ∃ p, panels w !! dropdown = Some p ∧ panel_items p = it0 :: items).
  { unfold itemsOf in Hitems. destruct (panels w !! dropdown) as [p|]; [| done].
    by exists p. }
  destruct Hp as (p & Hp & Hpi).
  destruct He as [-> | ->]; unfold bind, modify.
  - set (w1 := set_selectedIndex _ w).
    destruct (updateSelectedItem_spec dropdown w1 p Hp) as [Hs Hi].
    eexists. split; [done |]. rewrite Hs, Hi, Hpi. subst w1. simpl selectedIndex.
    split; [lia |]. split; [done |]. split; [apply markActive_values |].
    intros k it Hk.
    apply markActive_lookup in Hk as (_ & _ & _ & _ & _ & ->). done.
  - set (w1 := set_selectedIndex _ w).
    destruct (updateSelectedItem_spec dropdown w1 p Hp) as [Hs Hi].
    eexists. split; [done |]. rewrite Hs, Hi, Hpi. subst w1. simpl selectedIndex.
    split; [lia |]. split; [done |]. split; [apply markActive_values |].
    intros k it Hk.
    apply markActive_lookup in Hk as (_ & _ & _ & _ & _ & ->). done.
Qed.

Lemma X3_arrows_keep_cursor_on_a_row_witness :
  (∃ w', handleKeyboardNavigation ArrowDown 2 (λ _, throw "unused") openPanelPage
           = (Normal tt, w') ∧
         selectedIndex w' = 2%Z ∧
         ∃ w'', handleKeyboardNavigation ArrowDown 2 (λ _, throw "unused") w'
                  = (Normal tt, w'') ∧ selectedIndex w'' = 2%Z) ∧
  (∃ w', handleKeyboardNavigation ArrowUp 2 (λ _, throw "unused") openPanelPage
           = (Normal tt, w') ∧ selectedIndex w' = 0%Z).
Proof.
  assert (Hrows : itemsOf openPanelPage 2 ≠ []) by discriminate.
  assert (Hsel : (-1 ≤ selectedIndex openPanelPage
                  < Z.of_nat (length (itemsOf openPanelPage 2)))%Z)
    by (change ((-1 ≤ 1 < 3)%Z); lia).
  destruct (X3_arrows_keep_cursor_on_a_row ArrowDown 2 (λ _, throw "unused")
              openPanelPage (or_introl eq_refl) Hrows Hsel)
    as (w1 & Hrun1 & _ & Hs1 & Hv1 & _).
  destruct (X3_arrows_keep_cursor_on_a_row ArrowUp 2 (λ _, throw "unused")
              openPanelPage (or_intror eq_refl) Hrows Hsel)
    as (w2 & Hrun2 & _ & Hs2 & _ & _).
  assert (Hrows1 : itemsOf w1 2 ≠ []).
  { intros Hnil. rewrite Hnil in Hv1. discriminate. }
  assert (Hlen1 : length (itemsOf w1 2) = 3).
  { rewrite <- (length_map data_value), Hv1. reflexivity. }
  assert (Hsel1 : (-1 ≤ selectedIndex w1 < Z.of_nat (length (itemsOf w1 2)))%Z).
  { rewrite Hs1, Hlen1. change ((-1 ≤ 2 < 3)%Z). lia. }
  destruct (X3_arrows_keep_cursor_on_a_row ArrowDown 2 (λ _, throw "unused")
              w1 (or_introl eq_refl) Hrows1 Hsel1)
    as (w3 & Hrun3 & _ & Hs3 & _ & _).
  split.
  - exists w1. split; [exact Hrun1 |]. split; [exact Hs1 |].
    exists w3. split; [exact Hrun3 |]. rewrite Hs3, Hs1, Hlen1. reflexivity.
  - exists w2. split; [exact Hrun2 | exact Hs2].
Defined.

(** X4.  Escape closes the dropdown for good: whatever the page, after the
    key the dropdown has no rows, and every further key on it, with any
    selection callback, leaves the page as it is. *)
Theorem X4_escape_closes_the_dropdown
    (dropdown : nat) (onSelect onSelect' : string → js unit) (e : key) (w : page) :
  ∃ w', handleKeyboardNavigation Escape dropdown onSelect w = (Normal tt, w') ∧
        itemsOf w' dropdown = [] ∧
        handleKeyboardNavigation e dropdown onSelect' w' = (Normal tt, w').
Proof.
  unfold handleKeyboardNavigation. unfold bind at 1, gets at 1.
  destruct (itemsOf w dropdown) as [|it items] eqn:Hitems.
  - exists w. split; [done |]. split; [done |].
    unfold bind, gets. by rewrite Hitems.
  - unfold bind, modify, hideSuggestions. eexists. split; [done |].
    unfold itemsOf, gets; simpl. rewrite lookup_insert_eq. by split.
Qed.

(** ** The two autocomplete fields *)

Section Fields.

Implicit Types (w : page) (net : network).

Lemma renderItems_plainStrings query suggestions :
  Forall isPlainString suggestions →
  ∀ i, ∃ items, renderItems (plainItem query) i suggestions = Normal items.
Proof.
  induction 1 as [|s rest Hs _ IH]; intros i; simpl; [by eexists |].
  destruct s as [value | english korean]; [| done]. simpl.
  destruct (IH (S i)) as [items ->]. by eexists.
Qed.

Lemma renderItems_head row i s rest items :
  renderItems row i (s :: rest) = Normal items →
  ∃ it its, items = it :: its ∧ row i s = Normal it.
Proof.
  simpl. destruct (row i s) as [it|]; [| done].
  destruct (renderItems row (S i) rest) as [its|]; [| done].
  intros [= <-]. by eexists _, _.
Qed.

Lemma truthy_nonblank value : whitespaceOnly value = false → truthy (trim value) = true.
Proof.
  intros Hv. destruct (truthy (trim value)) eqn:Ht; [done |].
  apply truthy_false, trim_empty_iff in Ht. congruence.
Qed.

Lemma length_nonblank value :
  whitespaceOnly value = false → bool_decide (String.length (trim value) < 1) = false.
Proof.
  intros Hv. apply truthy_nonblank in Hv. apply bool_decide_eq_false_2.
  unfold truthy in Hv. destruct (trim value); simpl in *; [done | lia].
Qed.

Lemma length_blank value :
  whitespaceOnly value = true → bool_decide (String.length (trim value) < 1) = true.
Proof.
  intros Hv. apply trim_empty_iff in Hv. rewrite Hv.
  apply bool_decide_eq_true_2. simpl. lia.
Qed.

End Fields.

(** X5.  A herb or disease field holding nothing but white space (spaces,
    tabs, line ends, Unicode spaces) sends no request: whatever the services are, the handler completes with the same
    page, no line on the console and no toast; the field's dropdown is
    hidden and empty, the cursor is -1 and no herb list has changed. *)
Theorem X5_blank_query_sends_no_request
    (net net' : network) (prescriptionIndex dropdown : nat) (value : string) (w : page) :
  whitespaceOnly value = true →
  (∃ w', herbInput net prescriptionIndex dropdown value w = (Normal tt, w') ∧
         herbInput net' prescriptionIndex dropdown value w = (Normal tt, w') ∧
         panels w' !! dropdown = Some (Panel false EmptyString []) ∧
         selectedIndex w' = (-1)%Z ∧ console w' = console w ∧
         toasts w' = toasts w ∧ prescriptions w' = prescriptions w) ∧
  (∃ w', diseaseInputEvent net value w = (Normal tt, w') ∧
         diseaseInputEvent net' value w = (Normal tt, w') ∧
         panels w' !! diseaseSuggestions = Some (Panel false EmptyString []) ∧
         selectedIndex w' = (-1)%Z ∧ console w' = console w ∧
         toasts w' = toasts w ∧ prescriptions w' = prescriptions w).
Proof.
  intros Hv. pose proof (length_blank value Hv) as Hlen. split.
  - unfold herbInput, bind, modify. rewrite Hlen.
    eexists. split; [done |]. split; [done |]. simpl.
    rewrite lookup_insert_eq. by repeat split.
  - unfold diseaseInputEvent, bind, modify. rewrite Hlen.
    eexists. split; [done |]. split; [done |]. simpl.
    rewrite lookup_insert_eq. by repeat split.
Qed.

Lemma X5_blank_query_sends_no_request_witness :
  let blank := " " +:+ ideographicSpace +:+ noBreakSpace in
  herbInput sampleNetwork 1 1 blank openPanelPage
    = herbInput (Network (λ _ _, Unreachable "offline") (λ _, Unreachable "offline"))
        1 1 blank openPanelPage ∧
  console (snd (diseaseInputEvent
                  (Network (λ _ _, Unreachable "offline") (λ _, Unreachable "offline"))
                  "  " initialPage)) = [].
Proof.
  intros blank.
  destruct (X5_blank_query_sends_no_request sampleNetwork
              (Network (λ _ _, Unreachable "offline") (λ _, Unreachable "offline"))
              1 1 blank openPanelPage eq_refl) as [(w1 & H1 & H1' & _) _].
  destruct (X5_blank_query_sends_no_request
              (Network (λ _ _, Unreachable "offline") (λ _, Unreachable "offline"))
              sampleNetwork 1 1 "  " initialPage eq_refl)
    as [_ (w2 & H2 & _ & _ & _ & Hc & _)].
  split; [by rewrite H1, H1' |]. rewrite H2. exact Hc.
Defined.

(** X6.  When the disease endpoint answers a non-blank text with strings,
    the dropdown lists exactly the answer, in its order and unfiltered;
    Enter, pressed next, writes the first of them into the disease field,
    empties the dropdown and takes the cursor off the list. *)
Theorem X6_enter_takes_the_first_disease
    (net : network) (value first : string) (rest : list suggestion) (w : page) :
  whitespaceOnly value = false →
  suggestions_for net "/api/diseases" (trim value)
    = Responded (Json (PlainSuggestion first :: rest)) →
  Forall isPlainString rest →
  ∃ w1 w2,
    diseaseInputEvent net value w = (Normal tt, w1) ∧
    map data_value (itemsOf w1 diseaseSuggestions) = first :: map englishNameOf rest ∧
    diseaseKeydown Enter w1 = (Normal tt, w2) ∧
    diseaseInput w2 = first ∧
    itemsOf w2 diseaseSuggestions = [] ∧
    selectedIndex w2 = (-1)%Z.
Proof.
  intros Hv Hanswer Hrest.
  pose proof (truthy_nonblank value Hv) as Hq.
  unfold diseaseInputEvent. unfold bind at 1, modify at 1. unfold bind at 1, modify at 1.
  rewrite (length_nonblank value Hv). unfold bind at 1.
  match goal with |- context [fetchSuggestions net _ _ ?w0] =>
    destruct (fetchSuggestions_effect net "/api/diseases" (trim value) w0)
      as (suggestions & out & -> & Hs) end.
  rewrite (Hs _ Hanswer). unfold bind at 1, modify at 1.
  set (w0 := set_activeDropdown _ _).
  assert (Hall : Forall isPlainString (PlainSuggestion first :: rest))
    by (by apply Forall_cons).
  assert (Hshow : ∃ w1, showSuggestionsWithKeyboard diseaseSuggestions
                          (PlainSuggestion first :: rest) (trim value) w0
                        = (Normal tt, w1)).
  { unfold showSuggestionsWithKeyboard, bind, modify, liftCompletion.
    destruct (renderItems_plainStrings (trim value) _ Hall 0) as [items ->].
    by eexists. }
  destruct Hshow as [w1 Hshow]. rewrite Hshow.
  pose proof (showSuggestions_values _ _ _ _ _ Hq Hshow) as Hvalues.
  assert (Hsel : selectedIndex w1 = 0%Z).
  { revert Hshow. unfold showSuggestionsWithKeyboard, bind, modify, liftCompletion.
    destruct (renderItems _ _ _); [| done]. by intros [= <-]. }
  exists w1.
  destruct (itemsOf w1 diseaseSuggestions) as [|it items] eqn:Hitems; [done |].
  simpl in Hvalues. injection Hvalues as Hit Hits.
  unfold diseaseKeydown, handleKeyboardNavigation.
  unfold bind at 1, gets at 1. rewrite Hitems.
  unfold bind at 1, gets at 1. rewrite Hsel. unfold itemAt. simpl.
  unfold selectDisease, bind, modify. eexists. split; [done |].
  split; [by rewrite Hit, Hits |]. split; [done |]. simpl.
  split; [done |]. unfold itemsOf; simpl. by rewrite lookup_insert_eq.
Qed.

Lemma X6_enter_takes_the_first_disease_witness :
  ∃ w1 w2,
    diseaseInputEvent sampleNetwork "fe" initialPage = (Normal tt, w1) ∧
    map data_value (itemsOf w1 diseaseSuggestions) = ["fever"%string] ∧
    diseaseKeydown Enter w1 = (Normal tt, w2) ∧
    diseaseInput w2 = "fever"%string.
Proof.
  destruct (X6_enter_takes_the_first_disease sampleNetwork "fe" "fever" [] initialPage
              eq_refl eq_refl (Forall_nil_2 _))
    as (w1 & w2 & Hrun & Hrows & Hkey & Hfield & _).
  exists w1, w2. split; [exact Hrun |]. split; [exact Hrows |].
  split; [exact Hkey | exact Hfield].
Defined.

Section Adding.

Implicit Types (w : page) (net : network).

(** What an add of a new name changes: the herb list, the tags of the
    container it is given and, when it has to look the Korean name up, the
    cache. *)
Lemma addHerbTagInline_new net prescriptionIndex herbName tagsContainer koreanName w :
  herbName ∉ herbsOf w prescriptionIndex →
  ∃ w' shown,
    addHerbTagInline net prescriptionIndex herbName tagsContainer koreanName w
      = (Normal tt, w') ∧
    prescriptions w'
      = <[prescriptionIndex := herbsOf w prescriptionIndex ++ [herbName]]> (prescriptions w) ∧
    tags w'
      = <[tagsContainer := default [] (tags w !! tagsContainer)
                           ++ [HerbTag herbName (tagText herbName shown)]]> (tags w) ∧
    (∀ k, koreanName = Some k → shown = k ∧ herbKoreanCache w' = herbKoreanCache w) ∧
    panels w' = panels w ∧ selectedIndex w' = selectedIndex w ∧
    toasts w' = toasts w ∧ console w' = console w ∧ cards w' = cards w ∧
    prescriptionCount w' = prescriptionCount w ∧ diseaseInput w' = diseaseInput w ∧
    maxPrescriptions w' = maxPrescriptions w ∧ nextNode w' = nextNode w.
Proof.
  intros Hout. unfold addHerbTagInline, bind, gets, modify, ret.
  unfold herbsOf in *.
  destruct (prescriptions w !! prescriptionIndex) as [herbs|] eqn:Hp; simpl in *.
  - rewrite Hp. simpl. rewrite bool_decide_eq_false_2 by done.
    destruct koreanName as [k|]; simpl.
    + eexists _, k. split; [done |]. simpl. repeat split; try done; congruence.
    + match goal with |- context [getKoreanName net herbName ?w0] =>
        destruct (getKoreanName_effect net herbName w0) as (k & c & ->) end.
      simpl. eexists _, k. split; [done |]. simpl. by repeat split.
  - rewrite lookup_insert_eq. simpl. rewrite ?bool_decide_eq_false_2 by done.
    destruct koreanName as [k|]; simpl.
    + eexists _, k. split; [done |]. simpl.
      split; [apply insert_insert_eq |]. repeat split; try done; congruence.
    + match goal with |- context [getKoreanName net herbName ?w0] =>
        destruct (getKoreanName_effect net herbName w0) as (k & c & ->) end.
      simpl. eexists _, k. split; [done |]. simpl.
      split; [apply insert_insert_eq |]. by repeat split.
Qed.

(** Rendering a list changes only the panels, the cursor and nothing
    else. *)
Lemma showSuggestions_frame container suggestions query w w' :
  showSuggestionsWithKeyboard container suggestions query w = (Normal tt, w') →
  prescriptions w' = prescriptions w ∧ herbKoreanCache w' = herbKoreanCache w ∧
  tags w' = tags w ∧ diseaseInput w' = diseaseInput w.
Proof.
  unfold showSuggestionsWithKeyboard.
  destruct suggestions as [|first rest].
  - unfold modify. by intros [= <-].
  - unfold bind, modify, liftCompletion.
    destruct (renderItems _ _ _); [| done]. by intros [= <-].
Qed.

Lemma showSuggestions_cursor container first rest query w w' :
  showSuggestionsWithKeyboard container (first :: rest) query w = (Normal tt, w') →
  selectedIndex w' = 0%Z.
Proof.
  unfold showSuggestionsWithKeyboard, bind, modify, liftCompletion.
  destruct (renderItems _ _ _); [| done]. by intros [= <-].
Qed.

Lemma showSuggestions_first_herb container english korean rest query w w' :
  truthy english = true →
  showSuggestionsWithKeyboard container (HerbSuggestion english korean :: rest) query w
    = (Normal tt, w') →
  ∃ it its, itemsOf w' container = it :: its ∧
            data_value it = english ∧ data_korean it = Some korean.
Proof.
  intros He. unfold showSuggestionsWithKeyboard, bind, modify, liftCompletion.
  rewrite He.
  destruct (renderItems _ _ _) as [items|] eqn:Hitems; [| done].
  intros [= <-]. unfold itemsOf; simpl. rewrite lookup_insert_eq. simpl.
  apply renderItems_head in Hitems as (it & its & -> & Hit).
  exists it, its. split; [done |]. simpl in Hit. injection Hit as <-. simpl.
  by rewrite jsOr_empty_r.
Qed.

End Adding.

(** X7.  When the herb endpoint answers a non-blank text with herb records
    of which some are not yet in the prescription, Enter, pressed once the
    dropdown has opened, adds the first of those and only it: the herb list
    grows by that name at its end, a tag with its Korean and English names
    is put last in the tags container, a non-empty Korean name is cached,
    and the dropdown is emptied with the cursor off the list. *)
Theorem X7_enter_adds_the_first_offered_herb
    (net : network) (prescriptionIndex tagsContainer dropdown : nat)
    (value english korean : string) (answer rest : list suggestion) (w : page) :
  whitespaceOnly value = false →
  suggestions_for net "/api/herbs" (trim value) = Responded (Json answer) →
  Forall isHerbRecord answer →
  filter (λ s, englishNameOf s ∉ herbsOf w prescriptionIndex) answer
    = HerbSuggestion english korean :: rest →
  ∃ w1 w2,
    herbInput net prescriptionIndex dropdown value w = (Normal tt, w1) ∧
    herbKeydown net prescriptionIndex tagsContainer dropdown Enter value w1
      = (Normal tt, w2) ∧
    herbsOf w2 prescriptionIndex = herbsOf w prescriptionIndex ++ [english] ∧
    tags w2 !! tagsContainer
      = Some (default [] (tags w !! tagsContainer)
              ++ [HerbTag english (tagText english korean)]) ∧
    (korean ≠ EmptyString → herbKoreanCache w2 !! english = Some korean) ∧
    itemsOf w2 dropdown = [] ∧
    selectedIndex w2 = (-1)%Z.
Proof.
  intros Hv Hanswer Hrecords Hfilter.
  assert (Hfirst : HerbSuggestion english korean
                   ∈ filter (λ s, englishNameOf s ∉ herbsOf w prescriptionIndex) answer)
    by (rewrite Hfilter; left).
  apply list_elem_of_filter in Hfirst as [Hnew Hin]. simpl in Hnew.
  assert (He : truthy english = true).
  { rewrite Forall_forall in Hrecords. specialize (Hrecords _ Hin). simpl in Hrecords.
    by apply truthy_true. }
  (* the dropdown opens *)
  unfold herbInput. unfold bind at 1, modify at 1.
  rewrite (length_nonblank value Hv). unfold bind at 1.
  match goal with |- context [fetchSuggestions net _ _ ?w0] =>
    destruct (fetchSuggestions_effect net "/api/herbs" (trim value) w0)
      as (suggestions & out & -> & Hs) end.
  rewrite (Hs _ Hanswer). unfold bind at 1, gets at 1. unfold bind at 1, modify at 1.
  change (herbsOf (set_console (λ _, out) (set_selectedIndex (-1) w)) prescriptionIndex)
    with (herbsOf w prescriptionIndex).
  rewrite Hfilter. set (w0 := set_activeDropdown _ _).
  assert (Hshown : Forall isHerbRecord (HerbSuggestion english korean :: rest)).
  { rewrite <- Hfilter. apply Forall_forall. intros s Hs'.
    apply list_elem_of_filter in Hs' as [_ Hs'].
    rewrite Forall_forall in Hrecords. by apply Hrecords. }
  assert (Hshow : ∃ w1, showSuggestionsWithKeyboard dropdown
                          (HerbSuggestion english korean :: rest) (trim value) w0
                        = (Normal tt, w1)).
  { unfold showSuggestionsWithKeyboard, bind, modify, liftCompletion. rewrite He.
    destruct (renderItems_herbRecords (trim value) _ Hshown 0) as [items ->].
    by eexists. }
  destruct Hshow as [w1 Hshow]. rewrite Hshow. exists w1.
  destruct (showSuggestions_frame _ _ _ _ _ Hshow) as (Hp1 & Hc1 & Ht1 & _).
  pose proof (showSuggestions_cursor _ _ _ _ _ _ Hshow) as Hsel1.
  destruct (showSuggestions_first_herb _ _ _ _ _ _ _ He Hshow)
    as (it & its & Hitems & Hvalue & Hkorean).
  (* Enter selects the row under the cursor *)
  unfold herbKeydown, handleKeyboardNavigation.
  unfold bind at 1, gets at 1. rewrite Hitems.
  unfold bind at 1, gets at 1. rewrite Hsel1. unfold itemAt at 1. simpl.
  rewrite Hvalue. unfold bind at 1.
  unfold herbSelectByEnter. unfold bind at 1, gets at 1.
  rewrite Hitems, Hsel1. unfold itemAt at 1. simpl. rewrite Hkorean.
  unfold bind at 1.
  set (w1' := snd ((if truthy korean
                    then modify (set_herbKoreanCache (λ c, <[english := korean]> c))
                    else ret tt) w1)).
  assert (Hcache : (if truthy korean
                    then modify (set_herbKoreanCache (λ c, <[english := korean]> c))
                    else ret tt) w1 = (Normal tt, w1'))
    by (subst w1'; by destruct (truthy korean)).
  rewrite Hcache.
  assert (Hw1' : prescriptions w1' = prescriptions w ∧ tags w1' = tags w ∧
                 (korean ≠ EmptyString → herbKoreanCache w1' !! english = Some korean)).
  { subst w1'. destruct (truthy korean) eqn:Hk; simpl.
    - split; [done |]. split; [done |]. intros _. apply lookup_insert_eq.
    - split; [done |]. split; [done |]. intros Hne. apply truthy_true in Hne. congruence. }
  destruct Hw1' as (Hp1' & Ht1' & Hc1').
  assert (Hnew' : english ∉ herbsOf w1' prescriptionIndex)
    by (unfold herbsOf in *; by rewrite Hp1').
  destruct (addHerbTagInline_new net prescriptionIndex english tagsContainer
              (Some korean) w1' Hnew')
    as (wa & shown & Hadd & Hpa & Hta & Hka & _).
  destruct (Hka korean eq_refl) as [-> Hca].
  unfold bind at 1. rewrite Hadd. unfold modify.
  eexists. split; [done |]. split; [done |]. simpl.
  split; [| split; [| split; [| split]]].
  - unfold herbsOf; simpl. rewrite Hpa, lookup_insert_eq. unfold herbsOf.
    by rewrite Hp1'.
  - by rewrite Hta, lookup_insert_eq, Ht1'.
  - intros Hne. rewrite Hca. by apply Hc1'.
  - unfold itemsOf; simpl. by rewrite lookup_insert_eq.
  - done.
Qed.

Lemma X7_enter_adds_the_first_offered_herb_witness :
  ∃ w1 w2,
    herbInput sampleNetwork 2 2 "gin" filledPage = (Normal tt, w1) ∧
    herbKeydown sampleNetwork 2 2 2 Enter "gin" w1 = (Normal tt, w2) ∧
    herbsOf w2 2 = ["Licorice"; "Jujube"; "Ginseng"]%string ∧
    herbKoreanCache w2 !! "Ginseng"%string = Some "insam"%string.
Proof.
  assert (Hrecords : Forall isHerbRecord
            [HerbSuggestion "Ginseng" "insam"; HerbSuggestion "Licorice" "";
             HerbSuggestion "Ginger" "saenggang"])
    by (repeat constructor; discriminate).
  destruct (X7_enter_adds_the_first_offered_herb sampleNetwork 2 2 2 "gin"
              "Ginseng" "insam" _ [HerbSuggestion "Ginger" "saenggang"] filledPage
              eq_refl eq_refl Hrecords eq_refl)
    as (w1 & w2 & Hrun & Hkey & Hherbs & _ & Hcache & _).
  exists w1, w2. split; [exact Hrun |]. split; [exact Hkey |].
  split; [exact Hherbs |]. apply Hcache. discriminate.
Defined.

(** ** Validation and the cache *)

(** X8.  [getKoreanName] asks the service at most once per name: after a
    lookup that the service answered, the name is answered from the cache,
    with the same result and no change to the page, whatever has become of
    the network, and no other entry of the cache has moved.  A lookup that
    fails answers the empty name and stores nothing, so the next call asks
    again. *)
Theorem X8_getKoreanName_asks_once
    (net net' netF : network) (englishName failingName : string)
    (data : validation) (w wF : page) :
  herbKoreanCache w !! englishName = None →
  validate_name net englishName = Responded (Json data) →
  herbKoreanCache wF !! failingName = None →
  (∀ d, validate_name netF failingName ≠ Responded (Json d)) →
  (∃ w', getKoreanName net englishName w = (Normal (v_korean data), w') ∧
         getKoreanName net' englishName w' = (Normal (v_korean data), w') ∧
         (∀ other, other ≠ englishName →
                   herbKoreanCache w' !! other = herbKoreanCache w !! other)) ∧
  getKoreanName netF failingName wF = (Normal EmptyString, wF).
Proof.
  intros Hmiss Hdata HmissF Hfail. split.
  - unfold getKoreanName at 1. js_unfold. rewrite Hmiss, Hdata. simpl.
    rewrite jsOr_empty_r. eexists. split; [done |]. split.
    + unfold getKoreanName. js_unfold. simpl. by rewrite lookup_insert_eq.
    + intros other Hne. simpl. by rewrite lookup_insert_ne.
  - unfold getKoreanName. js_unfold. rewrite HmissF.
    destruct (validate_name netF failingName) as [e | [e | d]]; simpl; try done.
    by destruct (Hfail d).
Qed.

Lemma X8_getKoreanName_asks_once_witness :
  (∃ w', getKoreanName sampleNetwork "Licorice" initialPage = (Normal ""%string, w') ∧
         getKoreanName (Network (λ _ _, Unreachable "offline") (λ _, Unreachable "offline"))
           "Licorice" w' = (Normal ""%string, w')) ∧
  getKoreanName sampleNetwork "offline" initialPage = (Normal ""%string, initialPage).
Proof.
  assert (Hfail : ∀ d, validate_name sampleNetwork "offline" ≠ Responded (Json d))
    by (intros d; discriminate).
  destruct (X8_getKoreanName_asks_once sampleNetwork
              (Network (λ _ _, Unreachable "offline") (λ _, Unreachable "offline"))
              sampleNetwork "Licorice" "offline" _ initialPage initialPage
              eq_refl eq_refl eq_refl Hfail) as [(w' & H1 & H2 & _) Hf].
  split; [| exact Hf]. exists w'. split; [exact H1 | exact H2].
Defined.

Section Validation.

Implicit Types (w : page) (net : network).

(** [validateHerb] completes with what [recognise] says; it touches the
    cache and the console only, the cache only for a recognised name with a
    Korean name and the console only when no usable answer arrives. *)
Lemma validateHerb_effect net herbName w :
  ∃ cache out,
    validateHerb net herbName w
      = (Normal (recognise net herbName),
         set_console (λ _, out) (set_herbKoreanCache (λ _, cache) w)) ∧
    (recognise net herbName = None → cache = herbKoreanCache w) ∧
    ((∃ data, validate_name net herbName = Responded (Json data)) → out = console w).
Proof.
  unfold validateHerb, recognise. js_unfold.
  destruct (validate_name net herbName) as [e | [e | data]]; simpl.
  - exists (herbKoreanCache w), (console w ++ ["Error validating herb: " +:+ e]).
    split; [by destruct w |]. split; [done |]. by intros [? ?].
  - exists (herbKoreanCache w), (console w ++ ["Error validating herb: " +:+ e]).
    split; [by destruct w |]. split; [done |]. by intros [? ?].
  - destruct (valid data); simpl.
    + destruct (truthy (v_korean data)); simpl.
      * exists (<[jsOr (v_english data) (v_name data) := v_korean data]>
                  (herbKoreanCache w)), (console w).
        split; [by destruct w |]. by split.
      * eexists (herbKoreanCache w), (console w). split; [by destruct w |]. by split.
    + eexists (herbKoreanCache w), (console w). split; [by destruct w |]. by split.
Qed.

End Validation.

(** X9.  [validateHerb] never throws: it completes with the canonical pair
    of a name the service accepts and with null otherwise, be the name
    rejected, the answer unreadable or the service out of reach.  Herb
    lists, tags and toasts are untouched; a null result leaves the cache as
    it was, and only a request without a readable answer writes to the
    console. *)
Theorem X9_validateHerb_never_throws (net : network) (herbName : string) (w : page) :
  ∃ w', validateHerb net herbName w = (Normal (recognise net herbName), w') ∧
        prescriptions w' = prescriptions w ∧ tags w' = tags w ∧ toasts w' = toasts w ∧
        (recognise net herbName = None → herbKoreanCache w' = herbKoreanCache w) ∧
        (recognise net herbName = None ↔
           ¬ ∃ data, validate_name net herbName = Responded (Json data)
                     ∧ valid data = true) ∧
        (∀ data, validate_name net herbName = Responded (Json data) →
                 console w' = console w).
Proof.
  destruct (validateHerb_effect net herbName w) as (cache & out & -> & Hc & Ho).
  eexists. split; [done |]. simpl. split; [done |]. split; [done |]. split; [done |].
  split; [exact Hc |]. split.
  - unfold recognise.
    destruct (validate_name net herbName) as [e | [e | data]].
    + split; [| done]. intros _ (d & Hd & _). done.
    + split; [| done]. intros _ (d & Hd & _). done.
    + destruct (valid data) eqn:Hvalid.
      * split; [done |]. intros Hno. exfalso. apply Hno. by exists data.
      * split; [| done]. intros _ (d & [= <-] & Hd). congruence.
  - intros data Hd. apply Ho. by exists data.
Qed.

(** ** Bulk paste *)

Section Bulk.

Implicit Types (w : page) (net : network).

Lemma set_console_cache_twice w cache out cache' out' :
  set_console (λ _, out')
    (set_herbKoreanCache (λ _, cache')
       (set_console (λ _, out) (set_herbKoreanCache (λ _, cache) w)))
  = set_console (λ _, out') (set_herbKoreanCache (λ _, cache') w).
Proof. by destruct w. Qed.

(** How the three lists grow by one candidate. *)
Lemma classification_cons net old h rest :
  let valid := recognisedNew net old in
  let invalid := filter (λ h, isUnknown net h = true) in
  let duplicate := filter (λ h, isKnownIn net old h = true) in
  match recognise net h with
  | None =>
      valid (h :: rest) = valid rest ∧ invalid (h :: rest) = h :: invalid rest ∧
      duplicate (h :: rest) = duplicate rest
  | Some v =>
      if decide (english v ∈ old) then
        valid (h :: rest) = valid rest ∧ invalid (h :: rest) = invalid rest ∧
        duplicate (h :: rest) = h :: duplicate rest
      else
        valid (h :: rest) = v :: valid rest ∧ invalid (h :: rest) = invalid rest ∧
        duplicate (h :: rest) = duplicate rest
  end.
Proof.
  intros valid invalid duplicate. subst valid invalid duplicate.
  rewrite !filter_cons. unfold recognisedNew, isUnknown, isKnownIn.
  change (omap ?f (h :: rest)) with
    (match f h with Some y => y :: omap f rest | None => omap f rest end).
  cbv beta.
  destruct (recognise net h) as [v|].
  - destruct (decide (english v ∈ old)) as [Hin | Hout].
    + rewrite (bool_decide_eq_true_2 _ Hin). simpl.
      repeat case_decide; done.
    + rewrite (bool_decide_eq_false_2 _ Hout). simpl.
      repeat case_decide; done.
  - simpl. repeat case_decide; done.
Qed.

Lemma classifyHerbs_spec net prescriptionIndex herbs :
  ∀ validHerbs invalidHerbs duplicateHerbs w,
  ∃ cache out,
    classifyHerbs net prescriptionIndex herbs validHerbs invalidHerbs duplicateHerbs w
      = (Normal
           (validHerbs ++ recognisedNew net (herbsOf w prescriptionIndex) herbs,
            invalidHerbs ++ filter (λ h, isUnknown net h = true) herbs,
            duplicateHerbs
              ++ filter (λ h, isKnownIn net (herbsOf w prescriptionIndex) h = true) herbs),
         set_console (λ _, out) (set_herbKoreanCache (λ _, cache) w)).
Proof.
  induction herbs as [|h rest IH]; intros validHerbs invalidHerbs duplicateHerbs w.
  - simpl. exists (herbKoreanCache w), (console w). unfold ret.
    rewrite !app_nil_r. by destruct w.
  - cbn [classifyHerbs]. unfold bind at 1.
    destruct (validateHerb_effect net h w) as (cache & out & -> & _ & _).
    set (w1 := set_console _ _).
    assert (Hold : herbsOf w1 prescriptionIndex = herbsOf w prescriptionIndex) by done.
    pose proof (classification_cons net (herbsOf w prescriptionIndex) h rest) as Hcons.
    cbv zeta in Hcons.
    destruct (recognise net h) as [v|] eqn:Hr.
    + unfold bind at 1, gets at 1. rewrite Hold.
      destruct (decide (english v ∈ herbsOf w prescriptionIndex)) as [Hin | Hout].
      * rewrite (bool_decide_eq_true_2 _ Hin).
        destruct Hcons as (-> & -> & ->).
        destruct (IH validHerbs invalidHerbs (duplicateHerbs ++ [h]) w1)
          as (cache' & out' & ->).
        exists cache', out'. subst w1. rewrite set_console_cache_twice, Hold.
        by rewrite <- !app_assoc.
      * rewrite (bool_decide_eq_false_2 _ Hout).
        destruct Hcons as (-> & -> & ->).
        destruct (IH (validHerbs ++ [v]) invalidHerbs duplicateHerbs w1)
          as (cache' & out' & ->).
        exists cache', out'. subst w1. rewrite set_console_cache_twice, Hold.
        by rewrite <- !app_assoc.
    + destruct Hcons as (-> & -> & ->).
      destruct (IH validHerbs (invalidHerbs ++ [h]) duplicateHerbs w1)
        as (cache' & out' & ->).
      exists cache', out'. subst w1. rewrite set_console_cache_twice, Hold.
      by rewrite <- !app_assoc.
Qed.

Lemma classification_lengths net old herbs :
  length (recognisedNew net old herbs)
  + length (filter (λ h, isUnknown net h = true) herbs)
  + length (filter (λ h, isKnownIn net old h = true) herbs)
  = length herbs.
Proof.
  induction herbs as [|h rest IH]; [done |].
  pose proof (classification_cons net old h rest) as Hcons. cbv zeta in Hcons.
  destruct (recognise net h) as [v|].
  - destruct (decide (english v ∈ old)); destruct Hcons as (-> & -> & ->); simpl; lia.
  - destruct Hcons as (-> & -> & ->). simpl. lia.
Qed.

End Bulk.

(** X10.  The first loop of a bulk paste completes whatever the service
    does and sorts every candidate into exactly one list, judged against the
    herb list as it stands before the paste: the names the service does not
    accept (or cannot be asked about) are invalid, the accepted names whose
    English name is in that list are duplicates, and the others are valid,
    all in paste order.  The three lists have as many entries together as
    the paste, and no herb list, tag or toast has changed. *)
Theorem X10_classification_is_a_partition
    (net : network) (prescriptionIndex : nat) (herbs : list string) (w : page) :
  ∃ w',
    classifyHerbs net prescriptionIndex herbs [] [] [] w
      = (Normal (recognisedNew net (herbsOf w prescriptionIndex) herbs,
                 filter (λ h, isUnknown net h = true) herbs,
                 filter (λ h, isKnownIn net (herbsOf w prescriptionIndex) h = true) herbs),
         w') ∧
    length (recognisedNew net (herbsOf w prescriptionIndex) herbs)
    + length (filter (λ h, isUnknown net h = true) herbs)
    + length (filter (λ h, isKnownIn net (herbsOf w prescriptionIndex) h = true) herbs)
    = length herbs ∧
    prescriptions w' = prescriptions w ∧ tags w' = tags w ∧ toasts w' = toasts w.
Proof.
  destruct (classifyHerbs_spec net prescriptionIndex herbs [] [] [] w)
    as (cache & out & Hrun).
  eexists. split; [exact Hrun |]. split; [apply classification_lengths |]. done.
Qed.

Section BulkAdd.

Implicit Types (w : page) (net : network).

Lemma addValidHerbs_calls net prescriptionIndex tagsContainer validHerbs :
  ∀ w, addValidHerbs net prescriptionIndex tagsContainer validHerbs w
       = addHerbCalls net prescriptionIndex tagsContainer
           (map (λ v, (english v, Some (korean v))) validHerbs) w.
Proof.
  induction validHerbs as [|v rest IH]; intros w; [done |].
  simpl. unfold bind.
  destruct (addHerbTagInline _ _ _ _ _ w) as [[[]|error] w1]; [apply IH | done].
Qed.

Lemma addHerbCalls_others net prescriptionIndex tagsContainer calls :
  ∀ w w', addHerbCalls net prescriptionIndex tagsContainer calls w = (Normal tt, w') →
    (∀ j, j ≠ prescriptionIndex → prescriptions w' !! j = prescriptions w !! j) ∧
    toasts w' = toasts w ∧ cards w' = cards w ∧
    prescriptionCount w' = prescriptionCount w.
Proof.
  induction calls as [|[herbName koreanName] rest IH]; intros w w' Hrun; simpl in Hrun.
  - by injection Hrun as <-.
  - unfold bind in Hrun.
    destruct (decide (herbName ∈ herbsOf w prescriptionIndex)) as [Hin | Hout].
    + rewrite addHerbTagInline_present in Hrun by done. by apply IH.
    + destruct (addHerbTagInline_new net prescriptionIndex herbName tagsContainer
                  koreanName w Hout)
        as (w1 & shown & Hadd & Hp & _ & _ & _ & _ & Ht & _ & Hc & Hn & _).
      rewrite Hadd in Hrun. destruct (IH _ _ Hrun) as (Hp' & Ht' & Hc' & Hn').
      split; [| by rewrite Ht', Hc', Hn'].
      intros j Hj. rewrite (Hp' j Hj), Hp. by apply lookup_insert_ne.
Qed.

Lemma recognisedNew_fresh net old herbs :
  Forall (λ name, name ∉ old) (map english (recognisedNew net old herbs)).
Proof.
  induction herbs as [|h rest IH]; [by constructor |].
  pose proof (classification_cons net old h rest) as Hcons. cbv zeta in Hcons.
  destruct (recognise net h) as [v|].
  - destruct (decide (english v ∈ old)); destruct Hcons as (-> & _ & _); [done |].
    simpl. by constructor.
  - by destruct Hcons as (-> & _ & _).
Qed.

Lemma firstOccurrences_fresh (old names : list string) :
  Forall (λ name, name ∉ old) names →
  filter (λ h, h ∉ old) (firstOccurrences names) = firstOccurrences names.
Proof.
  intros Hfresh.
  assert (Hall : Forall (λ h, h ∉ old) (firstOccurrences names)).
  { apply Forall_forall. intros h Hh.
    apply (proj1 (firstOccurrences_elem names h)) in Hh.
    rewrite Forall_forall in Hfresh. by apply Hfresh. }
  induction Hall as [|h l Hh _ IH]; [done |].
  rewrite filter_cons. case_decide; [by f_equal | done].
Qed.

Lemma showToast_keeps message type duration w t :
  t ∈ toasts w → toast_type t ≠ type → t ∈ toasts (showToast message type duration w).
Proof.
  intros Hin Hne. unfold showToast; simpl.
  apply elem_of_app. left. by apply list_elem_of_filter.
Qed.

End BulkAdd.

(** X11.  A bulk paste always completes.  It appends to the herb list, in
    paste order and each once, the English names of the candidates that the
    service accepts and that the list did not hold before the paste; what
    the list held stays in front, no other prescription changes, and a list
    without duplicates stays so.  When some candidate is not accepted the
    error toast listing the rejected names is on screen at the end, and when
    some accepted name was already in the list the warning listing those is
    the last toast. *)
Theorem X11_bulk_paste_appends_new_names
    (net : network) (prescriptionIndex tagsContainer : nat) (herbs : list string)
    (w : page) :
  let old := herbsOf w prescriptionIndex in
  let invalid := filter (λ h, isUnknown net h = true) herbs in
  let duplicate := filter (λ h, isKnownIn net old h = true) herbs in
  ∃ w',
    addBulkHerbs net prescriptionIndex herbs tagsContainer w = (Normal tt, w') ∧
    herbsOf w' prescriptionIndex
      = old ++ firstOccurrences (map english (recognisedNew net old herbs)) ∧
    (∀ j, j ≠ prescriptionIndex → prescriptions w' !! j = prescriptions w !! j) ∧
    (NoDup old → NoDup (herbsOf w' prescriptionIndex)) ∧
    (invalid ≠ [] →
       Toast ("Not found in database: " +:+ join ", " invalid) ToastError 5000
         ∈ toasts w') ∧
    (duplicate ≠ [] →
       last (toasts w')
         = Some (Toast ("Already added: " +:+ join ", " duplicate) ToastWarning 3000)).
Proof.
  intros old invalid duplicate.
  unfold addBulkHerbs. unfold bind at 1, modify at 1. unfold bind at 1.
  set (w0 := showToast _ _ _ w).
  destruct (classifyHerbs_spec net prescriptionIndex herbs [] [] [] w0)
    as (cache & out & ->).
  change (herbsOf w0 prescriptionIndex) with old. rewrite !app_nil_l.
  fold invalid duplicate.
  set (validHerbs := recognisedNew net old herbs).
  set (w1 := set_console _ _).
  unfold bind at 1. rewrite addValidHerbs_calls.
  destruct (addHerbCalls_herbs net prescriptionIndex tagsContainer
              (map (λ v, (english v, Some (korean v))) validHerbs) w1)
    as (w2 & Hrun & Hherbs).
  rewrite Hrun.
  destruct (addHerbCalls_others _ _ _ _ _ _ Hrun) as (Hothers & Htoasts & _ & _).
  change (herbsOf w1 prescriptionIndex) with old in Hherbs.
  rewrite map_map in Hherbs. simpl in Hherbs.
  change (map (λ x, english x) validHerbs) with (map english validHerbs) in Hherbs.
  rewrite (firstOccurrences_fresh old (map english validHerbs)
             (recognisedNew_fresh net old herbs)) in Hherbs.
  set (w3 := snd ((if bool_decide (0 < length validHerbs)
                   then modify (showToast
                          ("Added " +:+ pretty (length validHerbs) +:+ " herb"
                             +:+ (if bool_decide (1 < length validHerbs) then "s" else "")
                             +:+ " successfully") ToastSuccess 3000)
                   else ret tt) w2)).
  set (w4 := snd ((if bool_decide (0 < length invalid)
                   then modify (showToast
                          ("Not found in database: " +:+ join ", " invalid) ToastError 5000)
                   else ret tt) w3)).
  set (w5 := snd ((if bool_decide (0 < length duplicate)
                   then modify (showToast
                          ("Already added: " +:+ join ", " duplicate) ToastWarning 3000)
                   else ret tt) w4)).
  exists w5. split.
  { subst w5 w4 w3. unfold bind, modify, ret.
    repeat (case_bool_decide; simpl); done. }
  assert (Hp5 : prescriptions w5 = prescriptions w2).
  { subst w5 w4 w3. unfold modify, ret.
    repeat (case_bool_decide; simpl); done. }
  split; [by unfold herbsOf; rewrite Hp5 |].
  split; [intros j Hj; by rewrite Hp5, (Hothers j Hj) |].
  split.
  { intros Hnd. unfold herbsOf at 1. rewrite Hp5. fold (herbsOf w2 prescriptionIndex).
    rewrite Hherbs. apply NoDup_app. split; [done |]. split.
    - intros h Hh Hh'. apply (proj1 (firstOccurrences_elem _ h)) in Hh'.
      pose proof (recognisedNew_fresh net old herbs) as Hfresh.
      rewrite Forall_forall in Hfresh. by apply (Hfresh h).
    - apply firstOccurrences_NoDup. }
  split.
  - intros Hinv.
    assert (Hlen : 0 < length invalid) by (destruct invalid; [done | simpl; lia]).
    assert (Hin4 : Toast ("Not found in database: " +:+ join ", " invalid) ToastError 5000
                   ∈ toasts w4).
    { subst w4. rewrite (bool_decide_eq_true_2 _ Hlen). unfold modify, showToast; simpl.
      apply elem_of_app. right. by left. }
    subst w5. case_bool_decide; [| done].
    unfold modify; simpl. apply elem_of_app. left.
    apply list_elem_of_filter. by split.
  - intros Hdup.
    assert (Hlen : 0 < length duplicate) by (destruct duplicate; [done | simpl; lia]).
    subst w5. rewrite (bool_decide_eq_true_2 _ Hlen). unfold modify.
    apply showToast_last.
Qed.

(** ** Tags and herb lists *)

Section TagLists.

Implicit Types (w : page) (net : network) (ts : list herbTag).

Lemma removeFirstTag_absent herbName ts :
  herbName ∉ map dataset_herb ts → removeFirstTag herbName ts = ts.
Proof.
  induction ts as [|t ts IH]; intros Hout; simpl; [done |].
  destruct (String.eqb_spec (dataset_herb t) herbName) as [Heq | Hne].
  - exfalso. apply Hout. simpl. rewrite Heq. by left.
  - f_equal. apply IH. intros Hin. apply Hout. simpl. by right.
Qed.

Lemma removeFirstTag_last herbName display ts :
  herbName ∉ map dataset_herb ts →
  removeFirstTag herbName (ts ++ [HerbTag herbName display]) = ts.
Proof.
  induction ts as [|t ts IH]; intros Hout; simpl.
  - by rewrite String.eqb_refl.
  - destruct (String.eqb_spec (dataset_herb t) herbName) as [Heq | Hne].
    + exfalso. apply Hout. simpl. rewrite Heq. by left.
    + f_equal. apply IH. intros Hin. apply Hout. simpl. by right.
Qed.

Lemma filter_ne_absent (herbName : string) (herbs : list string) :
  herbName ∉ herbs → filter (λ h, h ≠ herbName) herbs = herbs.
Proof.
  induction herbs as [|h herbs IH]; intros Hout; [done |].
  rewrite filter_cons. case_decide as Hh.
  - f_equal. apply IH. intros Hin. apply Hout. by right.
  - exfalso. apply Hout. rewrite Hh. by left.
Qed.

Lemma removeFirstTag_filter herbName ts :
  NoDup (map dataset_herb ts) →
  map dataset_herb (removeFirstTag herbName ts)
    = filter (λ h, h ≠ herbName) (map dataset_herb ts).
Proof.
  induction ts as [|t ts IH]; intros Hnd; simpl; [done |].
  simpl in Hnd. apply NoDup_cons in Hnd as [Hfresh Hnd].
  rewrite filter_cons.
  destruct (String.eqb_spec (dataset_herb t) herbName) as [Heq | Hne].
  - case_decide; [done |]. rewrite filter_ne_absent; [done |]. by rewrite <- Heq.
  - case_decide; [| done]. simpl. f_equal. by apply IH.
Qed.

(** What a removal changes, when the prescription has an entry. *)
Lemma removeHerbTagInline_entry prescriptionIndex herbName tagsContainer herbs w :
  prescriptions w !! prescriptionIndex = Some herbs →
  ∃ w', removeHerbTagInline prescriptionIndex herbName tagsContainer w = (Normal tt, w') ∧
        prescriptions w'
          = <[prescriptionIndex := filter (λ h, h ≠ herbName) herbs]> (prescriptions w) ∧
        default [] (tags w' !! tagsContainer)
          = removeFirstTag herbName (default [] (tags w !! tagsContainer)) ∧
        herbKoreanCache w' = herbKoreanCache w ∧ toasts w' = toasts w ∧
        cards w' = cards w ∧ prescriptionCount w' = prescriptionCount w ∧
        maxPrescriptions w' = maxPrescriptions w ∧ nextNode w' = nextNode w.
Proof.
  intros Hp. unfold removeHerbTagInline, bind, gets, modify. rewrite Hp.
  eexists. split; [done |]. simpl. split; [done |].
  split; [| done].
  destruct (tags w !! tagsContainer) as [ts|] eqn:Ht; simpl.
  - by rewrite lookup_insert_eq.
  - by rewrite Ht.
Qed.

End TagLists.

(** X12.  The tags of a container mirror the herb list they are kept with:
    when the herbs named by the tags are the herb list, in order and without
    repetition, this is still so after an add and after a removal made with
    the same prescription and container; and a removed name is no longer in
    the list. *)
Theorem X12_tags_mirror_the_herb_list
    (net : network) (prescriptionIndex tagsContainer : nat) (herbName : string)
    (koreanName : option string) (wa wr : page) :
  map dataset_herb (default [] (tags wa !! tagsContainer)) = herbsOf wa prescriptionIndex →
  NoDup (herbsOf wa prescriptionIndex) →
  map dataset_herb (default [] (tags wr !! tagsContainer)) = herbsOf wr prescriptionIndex →
  NoDup (herbsOf wr prescriptionIndex) →
  is_Some (prescriptions wr !! prescriptionIndex) →
  (∃ w', addHerbTagInline net prescriptionIndex herbName tagsContainer koreanName wa
           = (Normal tt, w') ∧
         map dataset_herb (default [] (tags w' !! tagsContainer))
           = herbsOf w' prescriptionIndex ∧
         NoDup (herbsOf w' prescriptionIndex)) ∧
  (∃ w', removeHerbTagInline prescriptionIndex herbName tagsContainer wr = (Normal tt, w') ∧
         map dataset_herb (default [] (tags w' !! tagsContainer))
           = herbsOf w' prescriptionIndex ∧
         NoDup (herbsOf w' prescriptionIndex) ∧
         herbName ∉ herbsOf w' prescriptionIndex).
Proof.
  intros Hma Hnda Hmr Hndr [herbs Hentry]. split.
  - destruct (decide (herbName ∈ herbsOf wa prescriptionIndex)) as [Hin | Hout].
    + rewrite addHerbTagInline_present by done. by exists wa.
    + destruct (addHerbTagInline_new net prescriptionIndex herbName tagsContainer
                  koreanName wa Hout) as (w' & shown & -> & Hp & Ht & _).
      exists w'. split; [done |].
      assert (Hherbs : herbsOf w' prescriptionIndex
                       = herbsOf wa prescriptionIndex ++ [herbName])
        by (unfold herbsOf at 1; by rewrite Hp, lookup_insert_eq).
      rewrite Hherbs, Ht, lookup_insert_eq. simpl. rewrite map_app, Hma. split; [done |].
      apply NoDup_app. split; [done |]. split; [| apply NoDup_singleton].
      intros h Hh Hh'. apply list_elem_of_singleton in Hh'. by subst h.
  - destruct (removeHerbTagInline_entry prescriptionIndex herbName tagsContainer herbs wr
                Hentry) as (w' & -> & Hp & Ht & _).
    exists w'. split; [done |].
    assert (Hold : herbsOf wr prescriptionIndex = herbs)
      by (unfold herbsOf; by rewrite Hentry).
    assert (Hherbs : herbsOf w' prescriptionIndex = filter (λ h, h ≠ herbName) herbs)
      by (unfold herbsOf; by rewrite Hp, lookup_insert_eq).
    rewrite Hherbs, Ht. rewrite Hold in Hmr, Hndr. split; [| split].
    + rewrite removeFirstTag_filter by (by rewrite Hmr). by rewrite Hmr.
    + by apply NoDup_filter.
    + intros Hin. by apply list_elem_of_filter in Hin as [Hne _].
Qed.

Lemma X12_tags_mirror_the_herb_list_witness :
  (∃ w', addHerbTagInline sampleNetwork 2 "Ginseng" 2 None taggedPage = (Normal tt, w') ∧
         map dataset_herb (default [] (tags w' !! 2)) = herbsOf w' 2) ∧
  (∃ w', removeHerbTagInline 2 "Ginseng" 2 taggedPage = (Normal tt, w') ∧
         map dataset_herb (default [] (tags w' !! 2)) = herbsOf w' 2).
Proof.
  assert (Hnd : NoDup (herbsOf taggedPage 2)).
  { apply NoDup_cons. split; [| apply NoDup_singleton].
    intros H. apply list_elem_of_singleton in H. discriminate. }
  destruct (X12_tags_mirror_the_herb_list sampleNetwork 2 2 "Ginseng" None
              taggedPage taggedPage eq_refl Hnd eq_refl Hnd (mk_is_Some _ _ eq_refl))
    as [(wa & Ha & Hma & _) (wr & Hr & Hmr & _)].
  split; [exists wa | exists wr]; by split.
Defined.

(** X13.  Adding a new herb and removing it again is a round trip: the herb
    list and the tags of the container are as they were before the add,
    provided no tag of the container named the herb; and a second removal
    of the same herb changes neither.  A removal on a prescription that has
    no entry throws, with the page untouched. *)
Theorem X13_add_then_remove_is_a_round_trip
    (net : network) (prescriptionIndex tagsContainer : nat) (herbName : string)
    (koreanName : option string) (w wm : page) :
  herbName ∉ herbsOf w prescriptionIndex →
  herbName ∉ map dataset_herb (default [] (tags w !! tagsContainer)) →
  prescriptions wm !! prescriptionIndex = None →
  (∃ w1 w2 w3,
     addHerbTagInline net prescriptionIndex herbName tagsContainer koreanName w
       = (Normal tt, w1) ∧
     removeHerbTagInline prescriptionIndex herbName tagsContainer w1 = (Normal tt, w2) ∧
     herbsOf w2 prescriptionIndex = herbsOf w prescriptionIndex ∧
     default [] (tags w2 !! tagsContainer) = default [] (tags w !! tagsContainer) ∧
     removeHerbTagInline prescriptionIndex herbName tagsContainer w2 = (Normal tt, w3) ∧
     herbsOf w3 prescriptionIndex = herbsOf w prescriptionIndex ∧
     default [] (tags w3 !! tagsContainer) = default [] (tags w !! tagsContainer)) ∧
  removeHerbTagInline prescriptionIndex herbName tagsContainer wm = (Throw "TypeError", wm).
Proof.
  intros Hout Htag Hmissing. split.
  - destruct (addHerbTagInline_new net prescriptionIndex herbName tagsContainer
                koreanName w Hout) as (w1 & shown & Hadd & Hp1 & Ht1 & _).
    assert (Hentry1 : prescriptions w1 !! prescriptionIndex
                      = Some (herbsOf w prescriptionIndex ++ [herbName]))
      by (by rewrite Hp1, lookup_insert_eq).
    destruct (removeHerbTagInline_entry prescriptionIndex herbName tagsContainer _ w1
                Hentry1) as (w2 & Hrem & Hp2 & Ht2 & _).
    assert (Hfilter : filter (λ h, h ≠ herbName) (herbsOf w prescriptionIndex ++ [herbName])
                      = herbsOf w prescriptionIndex).
    { rewrite filter_app, filter_ne_absent by done.
      rewrite filter_cons, filter_nil. case_decide; [done | apply app_nil_r]. }
    rewrite Hfilter in Hp2.
    assert (Hentry2 : prescriptions w2 !! prescriptionIndex
                      = Some (herbsOf w prescriptionIndex))
      by (by rewrite Hp2, lookup_insert_eq).
    destruct (removeHerbTagInline_entry prescriptionIndex herbName tagsContainer _ w2
                Hentry2) as (w3 & Hrem' & Hp3 & Ht3 & _).
    assert (Htags2 : default [] (tags w2 !! tagsContainer)
                     = default [] (tags w !! tagsContainer)).
    { rewrite Ht2, Ht1, lookup_insert_eq. simpl. by apply removeFirstTag_last. }
    exists w1, w2, w3. split; [done |]. split; [done |].
    split; [unfold herbsOf at 1; by rewrite Hentry2 |]. split; [done |].
    split; [done |]. split.
    + unfold herbsOf at 1. rewrite Hp3, lookup_insert_eq. simpl.
      by apply filter_ne_absent.
    + rewrite Ht3, Htags2. by apply removeFirstTag_absent.
  - unfold removeHerbTagInline, bind, gets, throw. by rewrite Hmissing.
Qed.

Lemma X13_add_then_remove_is_a_round_trip_witness :
  (∃ w1 w2,
     addHerbTagInline sampleNetwork 3 "Licorice" 1 None taggedPage = (Normal tt, w1) ∧
     removeHerbTagInline 3 "Licorice" 1 w1 = (Normal tt, w2) ∧
     herbsOf w2 3 = [] ∧
     default [] (tags w2 !! 1) = [HerbTag "Ginseng" "insam (Ginseng)"]) ∧
  removeHerbTagInline 3 "Licorice" 1 taggedPage = (Throw "TypeError", taggedPage).
Proof.
  assert (Hout : "Licorice"%string ∉ herbsOf taggedPage 3) by apply not_elem_of_nil.
  assert (Htag : "Licorice"%string ∉ map dataset_herb (default [] (tags taggedPage !! 1))).
  { intros H. apply list_elem_of_singleton in H. discriminate. }
  destruct (X13_add_then_remove_is_a_round_trip sampleNetwork 3 1 "Licorice" None
              taggedPage taggedPage Hout Htag eq_refl)
    as [(w1 & w2 & w3 & Hadd & Hrem & Hherbs & Htags & _) Hthrow].
  split; [| exact Hthrow].
  exists w1, w2. split; [exact Hadd |]. split; [exact Hrem |].
  split; [exact Hherbs | exact Htags].
Defined.

(** ** More on the prescription registry *)

Section Renumbering.

Implicit Types (w : page) (cs : list card).

Lemma renumberCards_fixed cs :
  ∀ i, map dataset_index cs = seq (S i) (length cs) → renumberCards i cs = cs.
Proof.
  induction cs as [|c cs IH]; intros i Hidx; simpl in *; [done |].
  injection Hidx as Hc Hcs. rewrite (IH (S i) Hcs). destruct c; simpl in *. by subst.
Qed.

Lemma filter_fresh_node cs element :
  Forall (λ c, node c < element) cs →
  filter (λ c, node c ≠ element) (cs ++ [Card element (S (length cs))]) = cs.
Proof.
  intros Hfresh. rewrite filter_app, filter_cons, filter_nil.
  case_decide as Hne; [simpl in Hne; done |]. rewrite app_nil_r. clear Hne.
  induction Hfresh as [|c cs Hc _ IH]; [done |].
  rewrite filter_cons. case_decide; [by f_equal | lia].
Qed.

Lemma page_eq w w' :
  prescriptions w = prescriptions w' → prescriptionCount w = prescriptionCount w' →
  maxPrescriptions w = maxPrescriptions w' → activeDropdown w = activeDropdown w' →
  selectedIndex w = selectedIndex w' → herbKoreanCache w = herbKoreanCache w' →
  diseaseInput w = diseaseInput w' → herbsDataInput w = herbsDataInput w' →
  cards w = cards w' → tags w = tags w' → panels w = panels w' →
  toasts w = toasts w' → console w = console w' → nextNode w = nextNode w' →
  w = w'.
Proof. destruct w, w'; simpl; intros; by subst. Qed.

End Renumbering.

(** X14.  [renumberPrescriptions] brings any page to its normal form: the
    counter is the number of cards, the cards keep their nodes and order and
    carry the indices 1 .. n, the registry has exactly the keys 1 .. n, and
    the card at position k holds under index k+1 the herb list it held under
    its old index (the empty list when it had none).  Renumbering a second
    time changes nothing. *)
Theorem X14_renumbering_normalises (w : page) :
  let w' := renumberPrescriptions w in
  prescriptionCount w' = length (cards w) ∧
  map node (cards w') = map node (cards w) ∧
  map dataset_index (cards w') = seq 1 (length (cards w)) ∧
  (∀ j, is_Some (prescriptions w' !! j) ↔ 1 ≤ j ≤ length (cards w)) ∧
  (∀ k c, cards w !! k = Some c → herbsOf w' (S k) = herbsOf w (dataset_index c)) ∧
  renumberPrescriptions w' = w'.
Proof.
  intros w'. subst w'. unfold renumberPrescriptions; simpl.
  rewrite renumberCards_nodes, renumberCards_indices, renumberCards_length.
  split; [done |]. split; [done |]. split; [done |].
  assert (Hkeys : ∀ j, is_Some (renumberMap (prescriptions w) 0 (cards w) ∅ !! j)
                       ↔ 1 ≤ j ≤ length (cards w)).
  { intros j. split.
    - intros [v Hv].
      destruct (decide (1 ≤ j ≤ length (cards w))) as [|Hout]; [done |].
      rewrite renumberMap_lookup_out in Hv by lia. by rewrite lookup_empty in Hv.
    - intros Hj. destruct (lookup_lt_is_Some_2 (cards w) (j - 1)) as [c Hc]; [lia |].
      replace j with (S (0 + (j - 1))) by lia.
      erewrite renumberMap_lookup_in; [by eexists | exact Hc]. }
  split; [exact Hkeys |]. split.
  - intros k c Hk. unfold herbsOf; simpl.
    replace (S k) with (S (0 + k)) by lia.
    by erewrite renumberMap_lookup_in by exact Hk.
  - apply page_eq; simpl; try done.
    + apply map_eq. intros j.
      destruct (decide (1 ≤ j ≤ length (cards w))) as [Hj | Hout].
      * destruct (lookup_lt_is_Some_2 (cards w) (j - 1)) as [c Hc]; [lia |].
        pose proof (renumberCards_lookup (cards w) 0 (j - 1) c Hc) as Hc'.
        replace j with (S (0 + (j - 1))) by lia.
        erewrite renumberMap_lookup_in by exact Hc'. cbn [dataset_index].
        by erewrite (renumberMap_lookup_in _ (cards w)) by exact Hc.
      * by rewrite !renumberMap_lookup_out by (rewrite ?renumberCards_length; lia).
    + apply renumberCards_fixed. by rewrite renumberCards_indices, renumberCards_length.
Qed.

(** X15.  [removePrescription] deletes the herb list kept under the index
    it is given, whichever card it removes: with more than one prescription,
    a card that stays holds afterwards, under its new index, the list it
    held under its old one, unless its old index is the index passed, in
    which case its list comes out empty. *)
Theorem X15_remove_deletes_the_list_at_the_index
    (index element : nat) (w : page) :
  1 < prescriptionCount w →
  let w' := removePrescription index element w in
  let survivors := filter (λ c, node c ≠ element) (cards w) in
  prescriptionCount w' = length survivors ∧
  map node (cards w') = map node survivors ∧
  ∀ k c, survivors !! k = Some c →
         herbsOf w' (S k)
           = if decide (dataset_index c = index) then [] else herbsOf w (dataset_index c).
Proof.
  intros Hcount w' survivors. subst w'.
  unfold removePrescription. case_decide; [lia |].
  unfold renumberPrescriptions; simpl. fold survivors.
  rewrite renumberCards_nodes. split; [done |]. split; [done |].
  intros k c Hk. unfold herbsOf; simpl.
  replace (S k) with (S (0 + k)) by lia.
  erewrite renumberMap_lookup_in by exact Hk.
  case_decide as Hidx.
  - by rewrite Hidx, lookup_delete_eq.
  - by rewrite lookup_delete_ne.
Qed.

Lemma X15_remove_deletes_the_list_at_the_index_witness :
  herbsOf (removePrescription 2 1 filledPage) 1 = [] ∧
  herbsOf (removePrescription 1 1 filledPage) 1 = ["Licorice"; "Jujube"]%string.
Proof.
  assert (Hcount : 1 < prescriptionCount filledPage) by (simpl; lia).
  destruct (X15_remove_deletes_the_list_at_the_index 2 1 filledPage Hcount)
    as (_ & _ & Hstale).
  destruct (X15_remove_deletes_the_list_at_the_index 1 1 filledPage Hcount)
    as (_ & _ & Hown).
  split; [exact (Hstale 0 (Card 2 2) eq_refl) | exact (Hown 0 (Card 2 2) eq_refl)].
Defined.

(** X16.  Adding a prescription and removing it again is a round trip for
    the registry: from a well-formed page below the maximum, the cards, the
    count and the herb list of every prescription 1 .. count are as before,
    and the registry holds exactly the keys 1 .. count. *)
Theorem X16_add_then_remove_prescription (w : page) :
  wellFormed w →
  prescriptionCount w < maxPrescriptions w →
  let w1 := addPrescription w in
  let w2 := removePrescription (prescriptionCount w1) (nextNode w) w1 in
  prescriptionCount w1 = S (prescriptionCount w) ∧
  herbsOf w1 (prescriptionCount w1) = [] ∧
  cards w2 = cards w ∧
  prescriptionCount w2 = prescriptionCount w ∧
  (∀ i, 1 ≤ i ≤ prescriptionCount w → herbsOf w2 i = herbsOf w i) ∧
  (∀ j, is_Some (prescriptions w2 !! j) ↔ 1 ≤ j ≤ prescriptionCount w).
Proof.
  intros (Hcount & Hidx & Hnd & Hfresh & Hlo & Hhi) Hmax w1 w2.
  subst w2 w1. unfold addPrescription. case_decide; [lia |]. simpl.
  split; [done |].
  split; [unfold herbsOf; simpl; by rewrite lookup_insert_eq |].
  unfold removePrescription. simpl. case_decide; [lia |].
  unfold renumberPrescriptions; simpl.
  rewrite Hcount, filter_fresh_node by done.
  rewrite renumberCards_fixed by done.
  split; [done |]. split; [done |]. split.
  - intros i Hi. unfold herbsOf; simpl.
    destruct (lookup_lt_is_Some_2 (cards w) (i - 1)) as [c Hc]; [lia |].
    assert (Hci : dataset_index c = i).
    { assert (Hl : map dataset_index (cards w) !! (i - 1) = Some (dataset_index c))
        by (by rewrite list_lookup_fmap, Hc).
      rewrite Hidx in Hl. apply lookup_seq in Hl as [Hl _]. lia. }
    replace i with (S (0 + (i - 1))) at 1 by lia.
    erewrite renumberMap_lookup_in by exact Hc. rewrite Hci.
    rewrite lookup_delete_ne, lookup_insert_ne by lia. done.
  - intros j. split.
    + intros [v Hv].
      destruct (decide (1 ≤ j ≤ length (cards w))) as [|Hout]; [done |].
      rewrite renumberMap_lookup_out in Hv by lia. by rewrite lookup_empty in Hv.
    + intros Hj. destruct (lookup_lt_is_Some_2 (cards w) (j - 1)) as [c Hc]; [lia |].
      replace j with (S (0 + (j - 1))) by lia.
      erewrite renumberMap_lookup_in; [by eexists | exact Hc].
Qed.

Lemma X16_add_then_remove_prescription_witness :
  let w := removePrescription 2 2 filledPage in
  let w2 := removePrescription 2 3 (addPrescription w) in
  cards w2 = [Card 1 1] ∧ prescriptionCount w2 = 1 ∧ herbsOf w2 1 = ["Ginseng"%string].
Proof.
  intros w w2.
  assert (Hwf : wellFormed w).
  { apply wellFormed_removePrescription. exact wellFormed_initialPage. }
  assert (Hmax : prescriptionCount w < maxPrescriptions w) by (vm_compute; lia).
  destruct (X16_add_then_remove_prescription w Hwf Hmax) as (_ & _ & Hc & Hn & Hh & _).
  split; [exact Hc |]. split; [exact Hn |].
  exact (Hh 1 (conj (le_n 1) (le_n 1))).
Defined.

(** ** Clearing and submitting *)

Section Clearing.

Implicit Types (w : page).

Lemma clearPrescription_fields i w :
  let w' := clearPrescription i w in
  prescriptions w' = <[i := []]> (prescriptions w) ∧
  diseaseInput w' = diseaseInput w ∧ cards w' = cards w ∧
  prescriptionCount w' = prescriptionCount w ∧
  maxPrescriptions w' = maxPrescriptions w ∧ toasts w' = toasts w ∧
  herbsDataInput w' = herbsDataInput w ∧
  (∀ n, tags w' !! n
        = if decide (tagsContainerOf w i = Some n) then Some [] else tags w !! n).
Proof.
  intros w'. subst w'. unfold clearPrescription.
  destruct (tagsContainerOf w i) as [m|]; simpl.
  - do 7 (split; [done |]). intros n. case_decide as Hn.
    + injection Hn as ->. apply lookup_insert_eq.
    + apply lookup_insert_ne. congruence.
  - do 7 (split; [done |]). intros n. try case_decide; done.
Qed.

Lemma collectHerbs_ext w w' indices :
  (∀ i, i ∈ indices → herbsOf w i = herbsOf w' i) →
  ∀ herbsData hasHerbs,
    collectHerbs w indices herbsData hasHerbs = collectHerbs w' indices herbsData hasHerbs.
Proof.
  induction indices as [|i rest IH]; intros Hsame herbsData hasHerbs; simpl; [done |].
  rewrite (Hsame i) by left.
  case_bool_decide; apply IH; intros j Hj; apply Hsame; by right.
Qed.

End Clearing.

(** X17.  [clearForm] empties the disease field and the herb lists of
    prescriptions 1 and 2, and the tags of the cards that carry those
    indices; it leaves the count, the cards and every herb list under
    another index as they were.  A submission right after it is refused
    for want of a disease. *)
Theorem X17_clearForm_empties_the_first_two (w : page) :
  let w' := clearForm w in
  diseaseInput w' = EmptyString ∧
  herbsOf w' 1 = [] ∧ herbsOf w' 2 = [] ∧
  (∀ j, j ≠ 1 → j ≠ 2 → prescriptions w' !! j = prescriptions w !! j) ∧
  (∀ i n, (i = 1 ∨ i = 2) → tagsContainerOf w i = Some n → tags w' !! n = Some []) ∧
  prescriptionCount w' = prescriptionCount w ∧ cards w' = cards w ∧
  handleFormSubmit w' = (showToast "Please enter a disease name" ToastError 3000 w', false).
Proof.
  intros w'. subst w'. unfold clearForm.
  set (w0 := set_diseaseInput EmptyString w).
  destruct (clearPrescription_fields 1 w0) as (Hp1 & Hd1 & Hc1 & Hn1 & _ & _ & _ & Ht1).
  set (w1 := clearPrescription 1 w0) in *.
  destruct (clearPrescription_fields 2 w1) as (Hp2 & Hd2 & Hc2 & Hn2 & _ & _ & _ & Ht2).
  set (w2 := clearPrescription 2 w1) in *.
  assert (Hd : diseaseInput w2 = EmptyString) by (by rewrite Hd2, Hd1).
  split; [exact Hd |].
  split; [unfold herbsOf; rewrite Hp2, lookup_insert_ne, Hp1, lookup_insert_eq by lia; done |].
  split; [unfold herbsOf; by rewrite Hp2, lookup_insert_eq |].
  split; [intros j H1 H2; by rewrite Hp2, lookup_insert_ne, Hp1, lookup_insert_ne by lia |].
  split.
  { intros i n Hi Hn. rewrite Ht2.
    assert (Hsame : ∀ k, tagsContainerOf w1 k = tagsContainerOf w k)
      by (intros k; unfold tagsContainerOf; by rewrite Hc1).
    rewrite Hsame. case_decide as H2; [done |].
    rewrite Ht1. change (tagsContainerOf w0 1) with (tagsContainerOf w 1).
    case_decide as H1; [done |].
    destruct Hi as [-> | ->]; congruence. }
  split; [by rewrite Hn2, Hn1 |]. split; [by rewrite Hc2, Hc1 |].
  unfold handleFormSubmit. by rewrite Hd.
Qed.

(** X18.  A submission reads the prescriptions 1 .. count and nothing else:
    a herb list stored under any other index, as an add made with an index
    beyond the count leaves it, changes neither whether the form is
    submitted nor what the hidden field receives. *)
Theorem X18_submit_ignores_entries_beyond_count
    (w : page) (i : nat) (herbs : list string) :
  i < 1 ∨ prescriptionCount w < i →
  let w' := set_prescriptions (λ p, <[i := herbs]> p) w in
  snd (handleFormSubmit w') = snd (handleFormSubmit w) ∧
  herbsDataInput (fst (handleFormSubmit w')) = herbsDataInput (fst (handleFormSubmit w)) ∧
  toasts (fst (handleFormSubmit w')) = toasts (fst (handleFormSubmit w)).
Proof.
  intros Hi w'. subst w'. unfold handleFormSubmit. simpl.
  destruct (truthy (trim (diseaseInput w))); simpl; [| done].
  rewrite (collectHerbs_ext (set_prescriptions (λ p, <[i := herbs]> p) w) w).
  - destruct (collectHerbs w _ [] false) as [herbsData hasHerbs].
    by destruct hasHerbs.
  - intros j Hj. apply elem_of_seq in Hj. unfold herbsOf; simpl.
    rewrite lookup_insert_ne by lia. done.
Qed.

Lemma X18_submit_ignores_entries_beyond_count_witness :
  herbsDataInput
    (fst (handleFormSubmit
            (set_prescriptions (λ p, <[3 := ["Peony"%string]]> p) secondOnlyPage)))
  = Some ["Ginseng"%string].
Proof.
  assert (Hi : 3 < 1 ∨ prescriptionCount secondOnlyPage < 3) by (right; simpl; lia).
  destruct (X18_submit_ignores_entries_beyond_count secondOnlyPage 3 ["Peony"%string] Hi)
    as (_ & Hfield & _).
  rewrite Hfield. reflexivity.
Defined.

(** ** Pasted text *)

Section Trimming.

Implicit Types (s t : string) (c : ascii).

Lemma split_parts_clean sep s :
  Forall (λ part, includesChar sep part = false) (split sep s).
Proof.
  induction s as [|c s IH]; simpl; [by repeat constructor |].
  destruct (Ascii.eqb c sep) eqn:Hc; [by constructor |].
  destruct (split sep s) as [|seg segs]; [by repeat constructor; simpl; rewrite Hc |].
  apply Forall_cons in IH as [Hseg Hsegs].
  constructor; [| done]. simpl. by rewrite Hc.
Qed.

End Trimming.

(** X19.  Every candidate name taken from a pasted text is non-empty, is
    not made of white space, has no comma in it, and is trimmed: trimming it
    again gives the same name.  White space is that of [trim], Unicode
    spaces included.  So no blank or padded name is ever sent for
    validation. *)
Theorem X19_pasted_candidates_are_clean (pastedText h : string) :
  h ∈ pastedHerbs pastedText →
  h ≠ EmptyString ∧ whitespaceOnly h = false ∧
  includesChar ","%char h = false ∧ trim h = h.
Proof.
  unfold pastedHerbs. intros Hin.
  apply list_elem_of_filter in Hin as [Hlen Hin].
  apply list_elem_of_fmap in Hin as (part & -> & Hpart).
  assert (Hne : trim part ≠ EmptyString).
  { intros Hempty. rewrite Hempty in Hlen. simpl in Hlen. lia. }
  split; [exact Hne |]. split; [| split].
  - destruct (whitespaceOnly (trim part)) eqn:Hw; [| done].
    apply trim_empty_iff in Hw. rewrite trim_idempotent in Hw. done.
  - pose proof (split_parts_clean ","%char pastedText) as Hclean.
    rewrite Forall_forall in Hclean. specialize (Hclean part Hpart).
    unfold trim. by apply includesChar_trimEnd, includesChar_trimStart.
  - apply trim_idempotent.
Qed.

Lemma X19_pasted_candidates_are_clean_witness :
  let pastedText :=
    " Ginseng ," +:+ noBreakSpace +:+ "Licorice" +:+ ideographicSpace +:+ ",, " in
  pastedHerbs pastedText = ["Ginseng"; "Licorice"]%string ∧
  includesChar "," "Licorice" = false ∧
  trim "Licorice" = "Licorice"%string.
Proof.
  intros pastedText.
  assert (Heq : pastedHerbs pastedText = ["Ginseng"; "Licorice"]%string)
    by (vm_compute; reflexivity).
  assert (Hin : "Licorice"%string ∈ pastedHerbs pastedText)
    by (rewrite Heq; right; left).
  destruct (X19_pasted_candidates_are_clean _ _ Hin) as (_ & _ & Hcomma & Htrim).
  split; [exact Heq |]. split; [exact Hcomma | exact Htrim].
Defined.

(** ** Escaping and highlighting *)

Section Escaping.

Implicit Types (s t text query : string) (c : ascii).

Lemma includesChar_append c s t :
  includesChar c (s +:+ t) = includesChar c s || includesChar c t.
Proof.
  induction s as [|d s IH]; [done |].
  rewrite append_cons. simpl. by destruct (Ascii.eqb d c).
Qed.

Lemma escapeChar_no_bracket c :
  includesChar "<"%char (escapeChar c) = false ∧
  includesChar ">"%char (escapeChar c) = false.
Proof. destruct c as [[] [] [] [] [] [] [] []]; split; reflexivity. Qed.

Lemma escapeHtml_append s t : escapeHtml (s +:+ t) = escapeHtml s +:+ escapeHtml t.
Proof.
  induction s as [|c s IH]; [done |].
  rewrite append_cons. simpl. by rewrite IH, append_assoc.
Qed.

Lemma splitLoop_no_match literal s :
  ∀ segment,
    (∀ k, k < String.length s → matchesAt literal (dropString k s) = false) →
    splitLoop literal s 0 segment = [revString EmptyString segment +:+ s].
Proof.
  induction s as [|c s IH]; intros segment Hno.
  - simpl. by rewrite append_nil_r.
  - assert (H0 : matchesAt literal (String c s) = false)
      by (apply (Hno 0); simpl; lia).
    cbn [splitLoop]. rewrite H0.
    rewrite IH.
    + simpl. by rewrite revString_acc, append_assoc.
    + intros k Hk. apply (Hno (S k)). simpl. lia.
Qed.

End Escaping.

(** X20.  Escaped text carries no angle bracket, so it can open or close no
    element; escaping goes character by character, so the escape of a
    concatenation is the concatenation of the escapes; and a text without
    ampersand and angle brackets is its own escape. *)
Theorem X20_escapeHtml_leaves_no_bracket (text s t : string) :
  includesChar "<"%char (escapeHtml text) = false ∧
  includesChar ">"%char (escapeHtml text) = false ∧
  escapeHtml (s +:+ t) = escapeHtml s +:+ escapeHtml t ∧
  (includesChar "&"%char text = false → includesChar "<"%char text = false →
   includesChar ">"%char text = false → escapeHtml text = text).
Proof.
  split; [| split; [| split; [apply escapeHtml_append |]]].
  - induction text as [|c text IH]; [done |]. simpl.
    rewrite includesChar_append, IH. by destruct (escapeChar_no_bracket c) as [-> _].
  - induction text as [|c text IH]; [done |]. simpl.
    rewrite includesChar_append, IH. by destruct (escapeChar_no_bracket c) as [_ ->].
  - induction text as [|c text IH]; [done |]. simpl.
    destruct (Ascii.eqb_spec c "&"%char) as [|Ha]; [done |].
    destruct (Ascii.eqb_spec c "<"%char) as [|Hl]; [done |].
    destruct (Ascii.eqb_spec c ">"%char) as [|Hg]; [done |].
    intros H1 H2 H3. rewrite (escapeChar_plain c Ha Hl Hg), append_cons, append_nil_l.
    by rewrite IH.
Qed.

(** X21.  The two ends of highlighting, for a non-empty query.  A text in
    which the query occurs nowhere, letter case aside, comes out escaped and
    without any marker; a text that is the query up to letter case comes out
    escaped inside one marker. *)
Theorem X21_highlightMatch_none_or_whole (text whole query : string) :
  query ≠ EmptyString →
  (∀ k, k < String.length text → ¬ occursAt query text k) →
  toLowerCase whole = toLowerCase query →
  highlightMatch text query = escapeHtml text ∧
  highlightMatch whole query = markOpen +:+ escapeHtml whole +:+ markClose.
Proof.
  intros Hq Hnone Hwhole.
  unfold highlightMatch.
  destruct (String.eqb_spec query EmptyString) as [|_]; [done |].
  rewrite newRegExp_escapeRegExp. unfold splitCapture. split.
  - rewrite splitLoop_no_match.
    + cbn [revString map concatStrings]. rewrite append_nil_l, append_nil_r.
      rewrite (highlightPart_between query text EmptyString Hq)
        by (by rewrite append_nil_r).
      done.
    + intros k Hk. destruct (matchesAt query (dropString k text)) eqn:Hm; [| done].
      exfalso. apply (Hnone k Hk). apply occursAt_matchesAt; [lia | done].
  - assert (Hlen : String.length whole = String.length query)
      by (by rewrite <- (length_toLowerCase whole), Hwhole, length_toLowerCase).
    assert (Htake : takeString (String.length query) whole = whole).
    { rewrite <- Hlen. rewrite <- (append_nil_r whole) at 2. apply takeString_append. }
    assert (Hm : matchesAt query whole = true).
    { apply matchesAt_spec. split; [lia |]. by rewrite Htake. }
    destruct whole as [|c rest].
    { destruct query; [done | simpl in Hlen; lia]. }
    cbn [splitLoop]. rewrite Hm, Htake.
    simpl in Hlen.
    rewrite splitLoop_skip by lia.
    replace (dropString (String.length query - 1) rest) with EmptyString.
    2:{ replace (String.length query - 1) with (String.length rest) by lia.
        by rewrite dropString_all. }
    cbn [splitLoop revString map concatStrings].
    rewrite (highlightPart_match query (String c rest) Hwhole).
    assert (Hblank : highlightPart query EmptyString = EmptyString).
    { unfold highlightPart. simpl. by destruct query. }
    rewrite Hblank. unfold renderSegment. cbn [fst snd].
    by rewrite append_nil_l, !append_nil_r.
Qed.

Lemma X21_highlightMatch_none_or_whole_witness :
  highlightMatch "Licorice <root>" "gin" = "Licorice &lt;root&gt;"%string ∧
  highlightMatch "GIN" "gin" = markOpen +:+ "GIN" +:+ markClose.
Proof.
  assert (Hq : "gin"%string ≠ EmptyString) by discriminate.
  assert (Hnone : ∀ k, k < String.length "Licorice <root>" →
                       ¬ occursAt "gin" "Licorice <root>" k).
  { intros k Hk [_ Hlow]. simpl in Hk.
    do 15 (destruct k as [|k]; [discriminate Hlow |]). lia. }
  destruct (X21_highlightMatch_none_or_whole "Licorice <root>" "GIN" "gin"
              Hq Hnone eq_refl) as [Hplain Hmarked].
  split; [exact Hplain | exact Hmarked].
Defined.

(** ** The page under every run of events *)

Section Invariant.

Implicit Types (w : page) (net : network) (f : page → page).

Lemma pageInvariant_same w w' :
  prescriptions w' = prescriptions w → prescriptionCount w' = prescriptionCount w →
  maxPrescriptions w' = maxPrescriptions w → cards w' = cards w →
  nextNode w' = nextNode w →
  pageInvariant w → pageInvariant w'.
Proof.
  intros Hp Hn Hm Hc Hx [Hwf Hnd]. split.
  - unfold wellFormed in *. by rewrite Hn, Hm, Hc, Hx.
  - intros i. unfold herbsOf. rewrite Hp. apply Hnd.
Qed.

Lemma keeps_ret {A} (a : A) : keeps (ret a).
Proof. by intros w Hw. Qed.

Lemma keeps_throw {A} error : keeps (@throw A error).
Proof. by intros w Hw. Qed.

Lemma keeps_gets {A} (g : page → A) : keeps (gets g).
Proof. by intros w Hw. Qed.

Lemma keeps_liftCompletion {A} (c : completion A) : keeps (liftCompletion c).
Proof. by intros w Hw. Qed.

Lemma keeps_beside f : besideRegistry f → keeps (modify f).
Proof.
  intros Hf w Hw. destruct (Hf w) as (Hp & Hn & Hm & Hc & Hx). simpl.
  split; [by apply (pageInvariant_same w) | done].
Qed.

Lemma keeps_bind {A B} (m : js A) (k : A → js B) :
  keeps m → (∀ a, keeps (k a)) → keeps (bind m k).
Proof.
  intros Hm Hk w Hw. unfold bind. specialize (Hm w Hw).
  destruct (m w) as [[a | error] w1]; simpl in *; [| done].
  destruct Hm as [Hw1 Hmax]. destruct (Hk a w1 Hw1) as [Hw2 Hmax2].
  split; [done | by rewrite Hmax2].
Qed.

Lemma keeps_tryCatch {A} (m : js A) (handler : string → js A) :
  keeps m → (∀ error, keeps (handler error)) → keeps (tryCatch m handler).
Proof.
  intros Hm Hh w Hw. unfold tryCatch. specialize (Hm w Hw).
  destruct (m w) as [[a | error] w1]; simpl in *; [done |].
  destruct Hm as [Hw1 Hmax]. destruct (Hh error w1 Hw1) as [Hw2 Hmax2].
  split; [done | by rewrite Hmax2].
Qed.

Lemma keeps_if {A} (b : bool) (m1 m2 : js A) :
  keeps m1 → keeps m2 → keeps (if b then m1 else m2).
Proof. by destruct b. Qed.

Lemma beside_hideSuggestions container : besideRegistry (hideSuggestions container).
Proof. by intros w. Qed.

Lemma beside_showToast message type duration :
  besideRegistry (showToast message type duration).
Proof. by intros w. Qed.

Lemma beside_updateSelectedItem dropdown : besideRegistry (updateSelectedItem dropdown).
Proof. by intros w. Qed.

Lemma beside_set_panels g : besideRegistry (set_panels g).
Proof. by intros w. Qed.

Lemma beside_set_selectedIndex i : besideRegistry (set_selectedIndex i).
Proof. by intros w. Qed.

Lemma beside_set_console g : besideRegistry (set_console g).
Proof. by intros w. Qed.

Lemma beside_set_herbKoreanCache g : besideRegistry (set_herbKoreanCache g).
Proof. by intros w. Qed.

Lemma beside_set_activeDropdown d : besideRegistry (set_activeDropdown d).
Proof. by intros w. Qed.

Lemma beside_set_diseaseInput v : besideRegistry (set_diseaseInput v).
Proof. by intros w. Qed.

Lemma beside_set_herbsDataInput v : besideRegistry (set_herbsDataInput v).
Proof. by intros w. Qed.

End Invariant.

Create HintDb keeps.

#[export] Hint Resolve keeps_ret keeps_throw keeps_gets keeps_liftCompletion
  keeps_beside keeps_bind keeps_tryCatch keeps_if
  beside_hideSuggestions beside_showToast beside_updateSelectedItem beside_set_panels
  beside_set_selectedIndex beside_set_console beside_set_herbKoreanCache
  beside_set_activeDropdown beside_set_diseaseInput beside_set_herbsDataInput : keeps.

Section Handlers.

Implicit Types (w : page) (net : network).

Lemma keeps_fetch {A} (r : reply A) : keeps (fetch r).
Proof. destruct r; simpl; auto with keeps. Qed.

Lemma keeps_json {A} (b : body A) : keeps (json b).
Proof. destruct b; simpl; auto with keeps. Qed.

Lemma keeps_console_error label error : keeps (console_error label error).
Proof. unfold console_error. auto with keeps. Qed.

Lemma keeps_fetchSuggestions net endpoint query :
  keeps (fetchSuggestions net endpoint query).
Proof.
  unfold fetchSuggestions.
  apply keeps_tryCatch; [apply keeps_bind; auto using keeps_fetch, keeps_json |].
  intros error. apply keeps_bind; auto using keeps_console_error with keeps.
Qed.

Lemma keeps_getKoreanName net englishName : keeps (getKoreanName net englishName).
Proof.
  unfold getKoreanName. apply keeps_bind; [auto with keeps |].
  intros [k|]; [auto with keeps |].
  apply keeps_tryCatch; [| auto with keeps].
  apply keeps_bind; [apply keeps_fetch |]. intros response.
  apply keeps_bind; [apply keeps_json |]. intros data.
  apply keeps_bind; auto with keeps.
Qed.

Lemma keeps_validateHerb net herbName : keeps (validateHerb net herbName).
Proof.
  unfold validateHerb. apply keeps_tryCatch.
  - apply keeps_bind; [apply keeps_fetch |]. intros response.
    apply keeps_bind; [apply keeps_json |]. intros data.
    destruct (valid data); [| auto with keeps].
    apply keeps_bind; [| auto with keeps].
    destruct (truthy (v_korean data)); auto with keeps.
  - intros error. apply keeps_bind; auto using keeps_console_error with keeps.
Qed.

Lemma keeps_showSuggestions container suggestions query :
  keeps (showSuggestionsWithKeyboard container suggestions query).
Proof.
  unfold showSuggestionsWithKeyboard. destruct suggestions as [|first rest].
  - auto with keeps.
  - apply keeps_bind; [auto with keeps |]. intros _.
    apply keeps_bind; auto with keeps.
Qed.

Lemma keeps_addHerbTagInline net prescriptionIndex herbName tagsContainer koreanName :
  keeps (addHerbTagInline net prescriptionIndex herbName tagsContainer koreanName).
Proof.
  intros w [Hwf Hnd].
  destruct (decide (herbName ∈ herbsOf w prescriptionIndex)) as [Hin | Hout].
  - by rewrite addHerbTagInline_present.
  - destruct (addHerbTagInline_new net prescriptionIndex herbName tagsContainer
                koreanName w Hout)
      as (w' & shown & -> & Hp & _ & _ & _ & _ & _ & _ & Hc & Hn & _ & Hm & Hx).
    simpl. split; [| done]. split.
    + unfold wellFormed in *. by rewrite Hn, Hm, Hc, Hx.
    + intros i. unfold herbsOf. rewrite Hp.
      destruct (decide (i = prescriptionIndex)) as [-> | Hi].
      * rewrite lookup_insert_eq. simpl. apply NoDup_app.
        split; [apply Hnd |]. split; [| apply NoDup_singleton].
        intros h Hh Hh'. apply list_elem_of_singleton in Hh'. by subst h.
      * rewrite lookup_insert_ne by done. apply Hnd.
Qed.

Lemma keeps_removeHerbTagInline prescriptionIndex herbName tagsContainer :
  keeps (removeHerbTagInline prescriptionIndex herbName tagsContainer).
Proof.
  intros w [Hwf Hnd].
  destruct (prescriptions w !! prescriptionIndex) as [herbs|] eqn:Hentry.
  - destruct (removeHerbTagInline_entry prescriptionIndex herbName tagsContainer herbs w
                Hentry) as (w' & -> & Hp & _ & _ & _ & Hc & Hn & Hm & Hx).
    simpl. split; [| done]. split.
    + unfold wellFormed in *. by rewrite Hn, Hm, Hc, Hx.
    + intros i. unfold herbsOf. rewrite Hp.
      destruct (decide (i = prescriptionIndex)) as [-> | Hi].
      * rewrite lookup_insert_eq. simpl. apply NoDup_filter.
        specialize (Hnd prescriptionIndex). unfold herbsOf in Hnd.
        by rewrite Hentry in Hnd.
      * rewrite lookup_insert_ne by done. apply Hnd.
  - unfold removeHerbTagInline, bind, gets, throw. rewrite Hentry. by split.
Qed.

Lemma keeps_selection net prescriptionIndex tagsContainer dropdown value
    (korean : option string) :
  keeps (match korean with
         | Some k =>
             if truthy k then modify (set_herbKoreanCache (λ c, <[value := k]> c))
             else ret tt
         | None => ret tt
         end ;;
         addHerbTagInline net prescriptionIndex value tagsContainer korean ;;
         modify (hideSuggestions dropdown)).
Proof.
  apply keeps_bind.
  - destruct korean as [k|]; [destruct (truthy k) |]; auto with keeps.
  - intros _. apply keeps_bind; [apply keeps_addHerbTagInline | auto with keeps].
Qed.

Lemma keeps_herbSelectByEnter net prescriptionIndex tagsContainer dropdown value :
  keeps (herbSelectByEnter net prescriptionIndex tagsContainer dropdown value).
Proof.
  unfold herbSelectByEnter. apply keeps_bind; [auto with keeps |].
  intros selectedItem. apply keeps_selection.
Qed.

Lemma keeps_herbSelectByClick net prescriptionIndex tagsContainer dropdown value :
  keeps (herbSelectByClick net prescriptionIndex tagsContainer dropdown value).
Proof.
  unfold herbSelectByClick. apply keeps_bind; [auto with keeps |].
  intros suggestionItem. apply keeps_selection.
Qed.

Lemma keeps_handleKeyboardNavigation e dropdown (onSelect : string → js unit) :
  (∀ value, keeps (onSelect value)) →
  keeps (handleKeyboardNavigation e dropdown onSelect).
Proof.
  intros Hselect. unfold handleKeyboardNavigation.
  apply keeps_bind; [auto with keeps |]. intros [|it items]; [auto with keeps |].
  destruct e; try auto with keeps.
  - apply keeps_bind; [| auto with keeps].
    apply keeps_beside. by intros w.
  - apply keeps_bind; [| auto with keeps].
    apply keeps_beside. by intros w.
  - apply keeps_bind; [auto with keeps |]. intros [selected|]; [| auto with keeps].
    apply keeps_bind; [apply Hselect | auto with keeps].
Qed.

Lemma keeps_classifyHerbs net prescriptionIndex herbs :
  ∀ validHerbs invalidHerbs duplicateHerbs,
    keeps (classifyHerbs net prescriptionIndex herbs validHerbs invalidHerbs
             duplicateHerbs).
Proof.
  induction herbs as [|h rest IH]; intros validHerbs invalidHerbs duplicateHerbs;
    simpl; [auto with keeps |].
  apply keeps_bind; [apply keeps_validateHerb |]. intros [v|]; [| apply IH].
  apply keeps_bind; [auto with keeps |]. intros [|]; apply IH.
Qed.

Lemma keeps_addValidHerbs net prescriptionIndex tagsContainer validHerbs :
  keeps (addValidHerbs net prescriptionIndex tagsContainer validHerbs).
Proof.
  induction validHerbs as [|v rest IH]; simpl; [auto with keeps |].
  apply keeps_bind; [apply keeps_addHerbTagInline | by intros _].
Qed.

Lemma keeps_addBulkHerbs net prescriptionIndex herbs tagsContainer :
  keeps (addBulkHerbs net prescriptionIndex herbs tagsContainer).
Proof.
  unfold addBulkHerbs. apply keeps_bind; [auto with keeps |]. intros _.
  apply keeps_bind; [apply keeps_classifyHerbs |].
  intros [[validHerbs invalidHerbs] duplicateHerbs].
  apply keeps_bind; [apply keeps_addValidHerbs |]. intros _.
  apply keeps_bind; [apply keeps_if; auto with keeps |]. intros _.
  apply keeps_bind; [apply keeps_if; auto with keeps |]. intros _.
  apply keeps_if; auto with keeps.
Qed.

Lemma keeps_addPrescription : keeps (modify addPrescription).
Proof.
  intros w [Hwf Hnd]. simpl. split; [| apply addPrescription_max].
  split; [by apply wellFormed_addPrescription |].
  intros i. unfold addPrescription. case_decide; [apply Hnd |].
  unfold herbsOf; simpl.
  destruct (decide (i = S (prescriptionCount w))) as [-> | Hi].
  - rewrite lookup_insert_eq. apply NoDup_nil_2.
  - rewrite lookup_insert_ne by done. apply Hnd.
Qed.

Lemma keeps_removePrescription index element :
  keeps (modify (removePrescription index element)).
Proof.
  intros w [Hwf Hnd]. simpl. split; [| apply removePrescription_max].
  split; [by apply wellFormed_removePrescription |].
  intros i. unfold removePrescription. case_decide; [apply Hnd |].
  unfold renumberPrescriptions, herbsOf; simpl.
  set (survivors := filter (λ c, node c ≠ element) (cards w)).
  destruct (decide (1 ≤ i ≤ length survivors)) as [Hi | Hout].
  - destruct (lookup_lt_is_Some_2 survivors (i - 1)) as [c Hc]; [lia |].
    replace i with (S (0 + (i - 1))) by lia.
    erewrite renumberMap_lookup_in by exact Hc. simpl.
    destruct (decide (dataset_index c = index)) as [-> | Hne].
    + rewrite lookup_delete_eq. apply NoDup_nil_2.
    + rewrite lookup_delete_ne by done. apply Hnd.
  - rewrite renumberMap_lookup_out by lia. rewrite lookup_empty. apply NoDup_nil_2.
Qed.

Lemma keeps_clearForm : keeps (modify clearForm).
Proof.
  intros w [Hwf Hnd]. simpl.
  assert (Hfields : prescriptions (clearForm w) = <[2 := []]> (<[1 := []]> (prescriptions w))
                    ∧ prescriptionCount (clearForm w) = prescriptionCount w
                    ∧ maxPrescriptions (clearForm w) = maxPrescriptions w
                    ∧ cards (clearForm w) = cards w
                    ∧ nextNode (clearForm w) = nextNode w).
  { unfold clearForm, clearPrescription.
    destruct (tagsContainerOf (set_diseaseInput EmptyString w) 1); simpl;
      match goal with |- context [tagsContainerOf ?w0 2] =>
        destruct (tagsContainerOf w0 2) end; by simpl. }
  destruct Hfields as (Hp & Hn & Hm & Hc & Hx).
  split; [| done]. split.
  - unfold wellFormed in *. by rewrite Hn, Hm, Hc, Hx.
  - intros i. unfold herbsOf. rewrite Hp.
    destruct (decide (i = 2)) as [-> | H2]; [rewrite lookup_insert_eq; apply NoDup_nil_2 |].
    rewrite lookup_insert_ne by done.
    destruct (decide (i = 1)) as [-> | H1]; [rewrite lookup_insert_eq; apply NoDup_nil_2 |].
    rewrite lookup_insert_ne by done. apply Hnd.
Qed.

Lemma keeps_submit : keeps (modify (λ w, fst (handleFormSubmit w))).
Proof.
  apply keeps_beside. intros w. unfold handleFormSubmit.
  destruct (truthy (trim (diseaseInput w))); simpl; [| done].
  destruct (collectHerbs w _ [] false) as [herbsData [|]]; by simpl.
Qed.

Lemma keeps_handle net ev : keeps (handle net ev).
Proof.
  destruct ev; simpl.
  - unfold herbInput. apply keeps_bind; [auto with keeps |]. intros _.
    apply keeps_if; [auto with keeps |].
    apply keeps_bind; [apply keeps_fetchSuggestions |]. intros suggestions.
    apply keeps_bind; [auto with keeps |]. intros selectedHerbs.
    apply keeps_bind; [auto with keeps |]. intros _. apply keeps_showSuggestions.
  - unfold herbKeydown.
    assert (Hnav : keeps (handleKeyboardNavigation e dropdown
                            (herbSelectByEnter net prescriptionIndex tagsContainer dropdown)))
      by (apply keeps_handleKeyboardNavigation; intros; apply keeps_herbSelectByEnter).
    destruct e; try exact Hnav.
    apply keeps_if; [| exact Hnav].
    apply keeps_bind; [auto with keeps |]. intros [hs|]; [| auto with keeps].
    destruct (lastHerbOf hs); [apply keeps_removeHerbTagInline | auto with keeps].
  - unfold clickSuggestion. apply keeps_bind; [auto with keeps |].
    intros [it|]; [apply keeps_herbSelectByClick | auto with keeps].
  - unfold herbPaste. apply keeps_if; [apply keeps_addBulkHerbs | auto with keeps].
  - apply keeps_removeHerbTagInline.
  - unfold diseaseInputEvent. apply keeps_bind; [auto with keeps |]. intros _.
    apply keeps_bind; [auto with keeps |]. intros _.
    apply keeps_if; [auto with keeps |].
    apply keeps_bind; [apply keeps_fetchSuggestions |]. intros suggestions.
    apply keeps_bind; [auto with keeps |]. intros _. apply keeps_showSuggestions.
  - unfold diseaseKeydown. apply keeps_handleKeyboardNavigation.
    intros value. unfold selectDisease. apply keeps_bind; auto with keeps.
  - apply keeps_addPrescription.
  - apply keeps_removePrescription.
  - apply keeps_clearForm.
  - apply keeps_submit.
Qed.

Lemma pageInvariant_initialPage : pageInvariant initialPage.
Proof.
  split; [exact wellFormed_initialPage |].
  intros i. unfold herbsOf, initialPage; simpl.
  destruct (decide (i = 2)) as [-> | H2]; [rewrite lookup_insert_eq; apply NoDup_nil_2 |].
  rewrite lookup_insert_ne by done.
  destruct (decide (i = 1)) as [-> | H1]; [rewrite lookup_insert_eq; apply NoDup_nil_2 |].
  rewrite lookup_insert_ne by done. rewrite lookup_empty. apply NoDup_nil_2.
Qed.

End Handlers.

(** X22.  Whatever the user does and whatever the services answer, the page
    stays sound.  Starting from a page on which the counter counts the
    cards, the cards carry the indices 1 .. count, the count lies between 1
    and the maximum and no herb list names a herb twice (the initial page is
    one), every run of events, with any indices, containers and dropdowns in
    the hands of the listeners and with listeners that throw, ends on a page
    of which all this is true again, under the same maximum. *)
Theorem X22_every_run_keeps_the_page_sound
    (net : network) (events : list event) (w : page) :
  pageInvariant w →
  let w' := runEvents net events w in
  maxPrescriptions w' = maxPrescriptions w ∧
  1 ≤ prescriptionCount w' ≤ maxPrescriptions w ∧
  prescriptionCount w' = length (cards w') ∧
  map dataset_index (cards w') = seq 1 (prescriptionCount w') ∧
  (∀ i, NoDup (herbsOf w' i)) ∧
  pageInvariant initialPage.
Proof.
  intros Hw w'. subst w'.
  assert (Hrun : pageInvariant (runEvents net events w)
                 ∧ maxPrescriptions (runEvents net events w) = maxPrescriptions w).
  { revert w Hw. induction events as [|ev rest IH]; intros w Hw; simpl; [done |].
    destruct (keeps_handle net ev w Hw) as [Hw1 Hmax].
    destruct (IH _ Hw1) as [Hw2 Hmax2]. split; [done | by rewrite Hmax2]. }
  destruct Hrun as [[(Hcount & Hidx & _ & _ & Hbounds) Hnd] Hmax].
  split; [done |]. split; [by rewrite <- Hmax |]. split; [done |].
  split; [by rewrite Hcount |]. split; [exact Hnd | exact pageInvariant_initialPage].
Qed.

Lemma X22_every_run_keeps_the_page_sound_witness :
  let w' := runEvents sampleNetwork
              [HerbPasted 1 1 "Ginseng, Licorice, Ginseng"; HerbTyped 2 2 "gin";
               HerbKey 2 2 2 Enter "gin"; RemoveClicked 1 1; HerbKey 2 2 2 Backspace "";
               TagRemoved 2 "Ginseng" 2; AddClicked; AddClicked; SubmitClicked;
               ClearClicked] initialPage in
  1 ≤ prescriptionCount w' ≤ 2 ∧ ∀ i, NoDup (herbsOf w' i).
Proof.
  intros w'.
  destruct (X22_every_run_keeps_the_page_sound sampleNetwork
              [HerbPasted 1 1 "Ginseng, Licorice, Ginseng"; HerbTyped 2 2 "gin";
               HerbKey 2 2 2 Enter "gin"; RemoveClicked 1 1; HerbKey 2 2 2 Backspace "";
               TagRemoved 2 "Ginseng" 2; AddClicked; AddClicked; SubmitClicked;
               ClearClicked] initialPage)
    as (_ & Hbounds & _ & _ & Hnd & _).
  - split; [exact wellFormed_initialPage |].
    intros i. unfold herbsOf, initialPage; simpl.
    destruct (decide (i = 2)) as [-> | H2]; [rewrite lookup_insert_eq; apply NoDup_nil_2 |].
    rewrite lookup_insert_ne by done.
    destruct (decide (i = 1)) as [-> | H1]; [rewrite lookup_insert_eq; apply NoDup_nil_2 |].
    rewrite lookup_insert_ne by done. rewrite lookup_empty. apply NoDup_nil_2.
  - split; [exact Hbounds | exact Hnd].
Defined.

(** ** Pointer and keyboard *)

Section Selecting.

Implicit Types (w : page) (net : network) (items : list suggestionItem).

Lemma find_by_value items :
  NoDup (map data_value items) →
  ∀ i it, items !! i = Some it →
    find (λ x, String.eqb (data_value x) (data_value it)) items = Some it.
Proof.
  induction items as [|x items IH]; intros Hnd i it Hi; [done |].
  simpl in Hnd. apply NoDup_cons in Hnd as [Hfresh Hnd].
  destruct i as [|i]; simpl in Hi.
  - injection Hi as ->. simpl. by rewrite String.eqb_refl.
  - simpl. destruct (String.eqb_spec (data_value x) (data_value it)) as [Heq | _].
    + exfalso. apply Hfresh. rewrite Heq. apply list_elem_of_fmap.
      exists it. split; [done |]. by eapply list_elem_of_lookup_2.
    + by eapply IH.
Qed.

Lemma addHerbTagInline_normal net prescriptionIndex herbName tagsContainer koreanName w :
  ∃ w', addHerbTagInline net prescriptionIndex herbName tagsContainer koreanName w
        = (Normal tt, w').
Proof.
  destruct (decide (herbName ∈ herbsOf w prescriptionIndex)) as [Hin | Hout].
  - exists w. by apply addHerbTagInline_present.
  - destruct (addHerbTagInline_new net prescriptionIndex herbName tagsContainer
                koreanName w Hout) as (w' & _ & Hadd & _).
    by exists w'.
Qed.

End Selecting.

(** X23.  In a herb dropdown whose rows have distinct values, a click on the
    row under the cursor and Enter do the same: both complete with the same
    page. *)
Theorem X23_click_and_enter_agree
    (net : network) (prescriptionIndex tagsContainer dropdown row : nat)
    (it : suggestionItem) (w : page) :
  NoDup (map data_value (itemsOf w dropdown)) →
  itemsOf w dropdown !! row = Some it →
  selectedIndex w = Z.of_nat row →
  clickSuggestion net prescriptionIndex tagsContainer dropdown row w
    = herbKeydown net prescriptionIndex tagsContainer dropdown Enter EmptyString w ∧
  fst (clickSuggestion net prescriptionIndex tagsContainer dropdown row w) = Normal tt.
Proof.
  intros Hnd Hrow Hsel.
  assert (Hat : itemAt (itemsOf w dropdown) (selectedIndex w) = Some it).
  { unfold itemAt. rewrite Hsel. case_decide; [| lia]. by rewrite Nat2Z.id. }
  set (rest := λ korean : option string,
         (match korean with
          | Some k =>
              if truthy k
              then modify (set_herbKoreanCache (λ c, <[data_value it := k]> c))
              else ret tt
          | None => ret tt
          end ;;
          addHerbTagInline net prescriptionIndex (data_value it) tagsContainer korean ;;
          modify (hideSuggestions dropdown))).
  assert (Hrest : ∃ w2, rest (data_korean it) w = (Normal tt, hideSuggestions dropdown w2)).
  { subst rest. cbv beta. unfold bind at 1.
    set (w1 := snd (match data_korean it with
                    | Some k =>
                        if truthy k
                        then modify (set_herbKoreanCache (λ c, <[data_value it := k]> c))
                        else ret tt
                    | None => ret tt
                    end w)).
    assert (H1 : match data_korean it with
                 | Some k =>
                     if truthy k
                     then modify (set_herbKoreanCache (λ c, <[data_value it := k]> c))
                     else ret tt
                 | None => ret tt
                 end w = (Normal tt, w1)).
    { subst w1. destruct (data_korean it) as [k|]; [destruct (truthy k) |]; done. }
    rewrite H1. unfold bind.
    destruct (addHerbTagInline_normal net prescriptionIndex (data_value it) tagsContainer
                (data_korean it) w1) as [w2 ->].
    by exists w2. }
  destruct Hrest as [w2 Hrest].
  assert (Hclick : clickSuggestion net prescriptionIndex tagsContainer dropdown row w
                   = (Normal tt, hideSuggestions dropdown w2)).
  { unfold clickSuggestion. unfold bind at 1, gets at 1. rewrite Hrow.
    unfold herbSelectByClick. unfold bind at 1, gets at 1.
    rewrite (find_by_value _ Hnd row it Hrow). exact Hrest. }
  rewrite Hclick. split; [| done].
  unfold herbKeydown, handleKeyboardNavigation. unfold bind at 1, gets at 1.
  destruct (itemsOf w dropdown) as [|it0 items] eqn:Hitems; [done |].
  unfold bind at 1, gets at 1. rewrite Hat.
  unfold bind at 1. unfold herbSelectByEnter. unfold bind at 1, gets at 1.
  rewrite Hitems, Hat. fold (rest (data_korean it)). rewrite Hrest.
  done.
Qed.

Lemma X23_click_and_enter_agree_witness :
  clickSuggestion sampleNetwork 2 2 2 1 openPanelPage
    = herbKeydown sampleNetwork 2 2 2 Enter "" openPanelPage ∧
  herbsOf (snd (clickSuggestion sampleNetwork 2 2 2 1 openPanelPage)) 2
    = ["Licorice"; "Jujube"; "Ginger"]%string.
Proof.
  assert (Hnd : NoDup (map data_value (itemsOf openPanelPage 2))).
  { change (NoDup ["Ginseng"; "Ginger"; "Peony"]%string).
    repeat (apply NoDup_cons; split;
            [rewrite ?elem_of_cons, ?elem_of_nil;
             intros H; repeat destruct H as [H | H]; (discriminate || done) |]).
    apply NoDup_nil_2. }
  destruct (X23_click_and_enter_agree sampleNetwork 2 2 2 1
              (SuggestionItem true "Ginger" (Some "saenggang") "Ginger")
              openPanelPage Hnd eq_refl eq_refl) as [Hsame _].
  split; [exact Hsame | reflexivity].
Defined.
